(** * Pragya Company Law: governance-grade hybrid retrieval pipeline

    A shallow embedding of the retrieval core of the Pragya CompanyGPT
    backend: the PostgreSQL governance schema ([schema.sql]), the query
    classifier, the direct lookups, the FAISS vector search, the context
    builder of [generate_answer] and the [query] method of
    [retrieval_service_faiss.py], as the repository records them.

    Conventions.
    - Text is [string]; a character is an ASCII character (Python [str] and
      PostgreSQL [TEXT] hold Unicode code points; every operation modelled
      here acts on them one character at a time).
    - A nullable SQL column is an [option].
    - A table is the list of its rows in physical (scan) order.
    - Floating-point numbers (FAISS distances, similarity scores) are
      rationals.
    - External services (Ollama embeddings, the FAISS index, the LLM) are
      functions handed to the code that calls them.
    - Where the notes of the repository record a piece of the backend in
      two forms (the branch condition of the classifier, the list of term
      patterns, the ORDER BY of the definition lookup), both are embedded,
      and a theorem that depends on the difference is stated for either.
    - The last sections of Part I embed the Next.js front end ([app/src]):
      a route is a function from the state its module holds and the
      request to the response and the state it leaves; a JavaScript value
      that may be null or undefined is an [option], and a component is the
      function from its props to what it renders. Part III proves further
      properties of the schema, the retrieval path and the front end. *)

From Stdlib Require Import List String Ascii Bool Arith NArith ZArith QArith Lia.
From Stdlib Require Import Sorting.Sorted Permutation Lqa.
From Stdlib Require Import Structures.OrderedTypeEx.
From Stdlib Require Import DecimalString DecimalNat.
Import ListNotations.

Local Close Scope Q_scope.
Local Open Scope string_scope.
Local Open Scope list_scope.

(* ================================================================== *)
(** * Part I. Definitions *)
(* ================================================================== *)

(** ** Text utilities (Python [str] methods and slices) *)

Definition newline : string := String (ascii_of_nat 10) EmptyString.
Definition dquote : ascii := ascii_of_nat 34.
Definition squote : ascii := ascii_of_nat 39.

(** [s[:n]] *)
Fixpoint take (n : nat) (s : string) : string :=
  match n, s with
  | S n', String c s' => String c (take n' s')
  | _, _ => EmptyString
  end.

(** [s[n:]] *)
Fixpoint drop (n : nat) (s : string) : string :=
  match n, s with
  | S n', String _ s' => drop n' s'
  | _, _ => s
  end.

Definition is_upper (c : ascii) : bool :=
  let n := N_of_ascii c in ((65 <=? n) && (n <=? 90))%N.

Definition is_lower (c : ascii) : bool :=
  let n := N_of_ascii c in ((97 <=? n) && (n <=? 122))%N.

Definition lower_char (c : ascii) : ascii :=
  if is_upper c then ascii_of_N (N_of_ascii c + 32) else c.

Definition upper_char (c : ascii) : ascii :=
  if is_lower c then ascii_of_N (N_of_ascii c - 32) else c.

Fixpoint map_chars (f : ascii -> ascii) (s : string) : string :=
  match s with
  | EmptyString => EmptyString
  | String c s' => String (f c) (map_chars f s')
  end.

(** [s.lower()] and SQL [LOWER(s)] *)
Definition lower : string -> string := map_chars lower_char.

(** [s.upper()] *)
Definition upper : string -> string := map_chars upper_char.

(** [needle in haystack] *)
Fixpoint contains (needle haystack : string) : bool :=
  prefix needle haystack
  || match haystack with
     | EmptyString => false
     | String _ h' => contains needle h'
     end.

Fixpoint forallb_chars (p : ascii -> bool) (s : string) : bool :=
  match s with
  | EmptyString => true
  | String c s' => p c && forallb_chars p s'
  end.

Fixpoint replicate (n : nat) (c : ascii) : string :=
  match n with
  | O => EmptyString
  | S n' => String c (replicate n' c)
  end.

(** [s.zfill(width)]: zeros are put on the left, after a leading sign. *)
Definition zfill (width : nat) (s : string) : string :=
  let zeros := replicate (width - length s) "0"%char in
  match s with
  | String c s' =>
      if (Ascii.eqb c "+"%char || Ascii.eqb c "-"%char)%bool
      then String c (zeros ++ s')
      else zeros ++ s
  | EmptyString => zeros
  end.

(** [sep.join(parts)] *)
Definition join (sep : string) (parts : list string) : string :=
  String.concat sep parts.

(** Python renders [None] inside an f-string as the text [None]. *)
Definition py_str (o : option string) : string :=
  match o with
  | Some s => s
  | None => "None"
  end.

(** ** The governance schema ([schema.sql]) *)

Inductive chunk_role_enum := parent | child.

Inductive document_type_enum :=
| act | rule | regulation | order | notification | circular | sop | form
| guideline | practice_note | commentary | textbook | qa_book | schedule
| register | return_ | qa | other.

Inductive authority_level_enum :=
| statutory | interpretive | procedural | commentary_level.

Inductive relationship_type_enum :=
| part_of | precedes | clarifies | proceduralises | proceduralised_by
| implements | implemented_by | amends | amended_by | supersedes
| superseded_by.

Inductive lifecycle_status_enum := DRAFT | ACTIVE | RETIRED.

(** [retrieval_priority_enum]: the labels '1' .. '4'. *)
Inductive retrieval_priority_enum := P1 | P2 | P3 | P4.

Definition priority_number (p : retrieval_priority_enum) : nat :=
  match p with P1 => 1 | P2 => 2 | P3 => 3 | P4 => 4 end.

Definition chunk_role_eqb (a b : chunk_role_enum) : bool :=
  match a, b with
  | parent, parent | child, child => true
  | _, _ => false
  end.

Definition document_type_name (d : document_type_enum) : string :=
  match d with
  | act => "act" | rule => "rule" | regulation => "regulation"
  | order => "order" | notification => "notification"
  | circular => "circular" | sop => "sop" | form => "form"
  | guideline => "guideline" | practice_note => "practice_note"
  | commentary => "commentary" | textbook => "textbook"
  | qa_book => "qa_book" | schedule => "schedule" | register => "register"
  | return_ => "return" | qa => "qa" | other => "other"
  end.

(** Table [chunks_identity] ([page_number] and [created_at] carry no
    constraint and are left out). *)
Record chunks_identity_row := {
  chunk_id : string;
  chunk_role : chunk_role_enum;
  parent_chunk_id : option string;
  document_type : document_type_enum;
  authority_level : authority_level_enum;
  binding : bool;
  act_name : option string;
  section : option string;
  sub_section : option string
}.

(** Table [chunks_content]. *)
Record chunks_content_row := {
  cc_chunk_id : string;
  title : option string;
  compliance_area : option string;
  text : option string;
  summary : option string;
  citation : option string
}.

(** Table [chunk_relationships]. *)
Record chunk_relationships_row := {
  from_chunk_id : string;
  relationship : relationship_type_enum;
  to_chunk_id : string
}.

(** Table [chunk_retrieval_rules]. *)
Record chunk_retrieval_rules_row := {
  crr_chunk_id : string;
  priority : retrieval_priority_enum;
  requires_parent_law : bool;
  allowed_query_types : list string
}.

(** Table [chunk_refusal_policy]. *)
Record chunk_refusal_policy_row := {
  crp_chunk_id : string;
  can_answer_standalone : bool;
  must_reference_parent_law : bool;
  refuse_if_parent_missing : bool
}.

(** Table [chunk_lifecycle]. *)
Record chunk_lifecycle_row := {
  cl_chunk_id : string;
  status : lifecycle_status_enum
}.

(** Table [chunk_embeddings]; [embedded_at] is a timestamp, kept as a
    number. *)
Record chunk_embeddings_row := {
  ce_chunk_id : string;
  enabled : bool;
  model : option string;
  vector_id : option string;
  embedded_at : option nat
}.

Record database := {
  chunks_identity : list chunks_identity_row;
  chunks_content : list chunks_content_row;
  chunk_relationships : list chunk_relationships_row;
  chunk_retrieval_rules : list chunk_retrieval_rules_row;
  chunk_refusal_policy : list chunk_refusal_policy_row;
  chunk_lifecycle : list chunk_lifecycle_row;
  chunk_embeddings : list chunk_embeddings_row
}.

(** *** Writes to [chunks_identity] under its constraints *)

Definition is_null {A : Type} (o : option A) : bool :=
  match o with None => true | Some _ => false end.

(** [CONSTRAINT parent_child_consistency CHECK (...)] *)
Definition parent_child_consistency (r : chunks_identity_row) : bool :=
  (chunk_role_eqb (chunk_role r) parent && is_null (parent_chunk_id r))
  || (chunk_role_eqb (chunk_role r) child && negb (is_null (parent_chunk_id r))).

Definition has_chunk (t : list chunks_identity_row) (id : string) : bool :=
  existsb (fun r => String.eqb (chunk_id r) id) t.

(** [parent_chunk_id TEXT REFERENCES chunks_identity(chunk_id)], checked
    against the table as it stands after the statement. *)
Definition references_ok (t : list chunks_identity_row) (r : chunks_identity_row) : bool :=
  match parent_chunk_id r with
  | None => true
  | Some p => has_chunk t p
  end.

Inductive db_error :=
| check_violation
| unique_violation
| foreign_key_violation.

Inductive write_op :=
| Insert (r : chunks_identity_row)
| Update (id : string) (r : chunks_identity_row)
| Delete (id : string).

Definition remove_chunk (t : list chunks_identity_row) (id : string) :=
  filter (fun r => negb (String.eqb (chunk_id r) id)) t.

Definition replace_chunk (t : list chunks_identity_row) (id : string)
  (r' : chunks_identity_row) :=
  map (fun r => if String.eqb (chunk_id r) id then r' else r) t.

(** One write statement: it either fails with an error and leaves the
    table as it was, or yields the new table. *)
Definition apply_write (t : list chunks_identity_row) (op : write_op)
  : db_error + list chunks_identity_row :=
  match op with
  | Insert r =>
      if negb (parent_child_consistency r) then inl check_violation
      else if has_chunk t (chunk_id r) then inl unique_violation
      else if negb (references_ok (t ++ [r]) r) then inl foreign_key_violation
      else inr (t ++ [r])
  | Update id r =>
      if negb (has_chunk t id) then inr t
      else if negb (parent_child_consistency r) then inl check_violation
      else if has_chunk (remove_chunk t id) (chunk_id r) then inl unique_violation
      else
        let t' := replace_chunk t id r in
        if negb (forallb (references_ok t') t') then inl foreign_key_violation
        else inr t'
  | Delete id =>
      let t' := remove_chunk t id in
      if negb (forallb (references_ok t') t') then inl foreign_key_violation
      else inr t'
  end.

(** The tables that a sequence of writes can produce from an empty one. *)
Inductive reachable : list chunks_identity_row -> Prop :=
| reachable_empty : reachable []
| reachable_write t op t' :
    reachable t -> apply_write t op = inr t' -> reachable t'.

(** The identity invariant, row by row. *)
Definition identity_invariant (t : list chunks_identity_row) : Prop :=
  Forall (fun r => parent_child_consistency r = true) t.

(** ** Regular expressions (the fragment of Python [re] the classifier uses) *)

Inductive char_class := class_space | class_word | class_digit.

Definition is_digit (c : ascii) : bool :=
  let n := N_of_ascii c in ((48 <=? n) && (n <=? 57))%N.

Definition in_class (k : char_class) (c : ascii) : bool :=
  match k with
  | class_space =>
      let n := N_of_ascii c in
      ((n =? 32) || ((9 <=? n) && (n <=? 13)) || ((28 <=? n) && (n <=? 31)))%N
  | class_word => is_upper c || is_lower c || is_digit c || Ascii.eqb c "_"%char
  | class_digit => is_digit c
  end.

Fixpoint mem_char (c : ascii) (s : string) : bool :=
  match s with
  | EmptyString => false
  | String d s' => Ascii.eqb c d || mem_char c s'
  end.

Inductive regex :=
| Lit (s : string)                 (* literal text *)
| Class (k : char_class)           (* \s \w \d *)
| OneOf (set : string)             (* [...] *)
| Seq (r1 r2 : regex)
| Alt (r1 r2 : regex)              (* r1|r2, the left one first *)
| Opt (r : regex)                  (* r?  greedy *)
| Star (r : regex)                 (* r*  greedy *)
| Group (n : nat) (r : regex)      (* capturing group number n *)
| Backref (n : nat).               (* \n *)

(** r+ *)
Definition Plus (r : regex) : regex := Seq r (Star r).

Definition captures := list (nat * string).

Fixpoint lookup_group (n : nat) (caps : captures) : option string :=
  match caps with
  | [] => None
  | (m, s) :: rest => if Nat.eqb m n then Some s else lookup_group n rest
  end.

(** The loop of a greedy [r*]: one more iteration of the body first, the
    continuation when that fails. Each iteration must consume input, so
    the length of the input bounds their number. *)
Fixpoint star_loop
  (body : string -> captures -> (string -> captures -> option captures)
          -> option captures)
  (k : string -> captures -> option captures)
  (fuel : nat) (s : string) (caps : captures) {struct fuel} : option captures :=
  match fuel with
  | O => k s caps
  | S fuel' =>
      match body s caps
              (fun s' caps' =>
                 if Nat.ltb (length s') (length s)
                 then star_loop body k fuel' s' caps'
                 else None) with
      | Some res => Some res
      | None => k s caps
      end
  end.

(** Backtracking matcher in continuation-passing style: [k] receives the
    rest of the input and the groups captured so far; the first success in
    the order greedy alternatives are tried is the match, as in [re]. *)
Fixpoint match_here (r : regex) (s : string) (caps : captures)
  (k : string -> captures -> option captures) {struct r} : option captures :=
  match r with
  | Lit t => if prefix t s then k (drop (length t) s) caps else None
  | Class c =>
      match s with
      | String a s' => if in_class c a then k s' caps else None
      | EmptyString => None
      end
  | OneOf set =>
      match s with
      | String a s' => if mem_char a set then k s' caps else None
      | EmptyString => None
      end
  | Seq r1 r2 =>
      match_here r1 s caps (fun s' caps' => match_here r2 s' caps' k)
  | Alt r1 r2 =>
      match match_here r1 s caps k with
      | Some res => Some res
      | None => match_here r2 s caps k
      end
  | Opt r' =>
      match match_here r' s caps k with
      | Some res => Some res
      | None => k s caps
      end
  | Star r' => star_loop (match_here r') k (length s) s caps
  | Group n r' =>
      match_here r' s caps
        (fun s' caps' => k s' ((n, take (length s - length s') s) :: caps'))
  | Backref n =>
      match lookup_group n caps with
      | Some t => if prefix t s then k (drop (length t) s) caps else None
      | None => None
      end
  end.

(** What a match of a pattern is: [matches r s caps s' caps'] holds when
    [r] matches a prefix of [s], leaves [s'] and turns the groups [caps]
    into [caps']. *)
Inductive matches : regex -> string -> captures -> string -> captures -> Prop :=
| matches_lit t s caps :
    matches (Lit t) (t ++ s) caps s caps
| matches_class c a s caps :
    in_class c a = true -> matches (Class c) (String a s) caps s caps
| matches_oneof set a s caps :
    mem_char a set = true -> matches (OneOf set) (String a s) caps s caps
| matches_seq r1 r2 s caps s1 caps1 s2 caps2 :
    matches r1 s caps s1 caps1 -> matches r2 s1 caps1 s2 caps2 ->
    matches (Seq r1 r2) s caps s2 caps2
| matches_alt_l r1 r2 s caps s' caps' :
    matches r1 s caps s' caps' -> matches (Alt r1 r2) s caps s' caps'
| matches_alt_r r1 r2 s caps s' caps' :
    matches r2 s caps s' caps' -> matches (Alt r1 r2) s caps s' caps'
| matches_opt_some r s caps s' caps' :
    matches r s caps s' caps' -> matches (Opt r) s caps s' caps'
| matches_opt_none r s caps :
    matches (Opt r) s caps s caps
| matches_star_nil r s caps :
    matches (Star r) s caps s caps
| matches_star_cons r s caps s1 caps1 s2 caps2 :
    matches r s caps s1 caps1 -> matches (Star r) s1 caps1 s2 caps2 ->
    matches (Star r) s caps s2 caps2
| matches_group n r s caps s' caps' :
    matches r s caps s' caps' ->
    matches (Group n r) s caps s' ((n, take (length s - length s') s) :: caps')
| matches_backref n t s caps :
    lookup_group n caps = Some t ->
    matches (Backref n) (t ++ s) caps s caps.

(** [re.search(r, s)]: the match at the leftmost position that has one. *)
Fixpoint search (r : regex) (s : string) : option captures :=
  match match_here r s [] (fun _ caps => Some caps) with
  | Some caps => Some caps
  | None =>
      match s with
      | EmptyString => None
      | String _ s' => search r s'
      end
  end.

(** [m = re.search(r, s)] followed by [m.group(n)] *)
Definition search_group (r : regex) (n : nat) (s : string) : option string :=
  match search r s with
  | Some caps => lookup_group n caps
  | None => None
  end.

(** ** Query classifier ([query], steps 4 to 6a) *)

Definition definition_keywords : list string :=
  ["definition"; "define"; "meaning"; "means"; "what is"; "what does"].

(** [any(keyword in query.lower() for keyword in [...])] *)
Definition is_definition_query (query : string) : bool :=
  existsb (fun keyword => contains keyword (lower query)) definition_keywords.

Definition spaces : regex := Plus (Class class_space).
Definition word : regex := Plus (Class class_word).

(** The tail shared by the three term patterns: an optional quote
    character (single or double) as group 1, the term as group 2, that is
    [( \w+ (?: \s+ \w+ )* )], and then [\1], the quote of group 1 again. *)
Definition quoted_term : regex :=
  Seq (Group 1 (Opt (OneOf (String dquote (String squote EmptyString)))))
      (Seq (Group 2 (Seq word (Star (Seq spaces word))))
           (Backref 1)).

(** [section\s+(\d+)] *)
Definition section_pattern : regex :=
  Seq (Lit "section") (Seq spaces (Group 1 (Plus (Class class_digit)))).

(** [term_patterns], in the order of the list (the notes on the
    governance-grade improvements show a fourth pattern, for
    [meaning of], after these three). *)
Definition term_patterns : list regex :=
  [ (* definition\s+of\s+ and the quoted term *)
    Seq (Lit "definition") (Seq spaces (Seq (Lit "of") (Seq spaces quoted_term)));
    (* define\s+ and the quoted term *)
    Seq (Lit "define") (Seq spaces quoted_term);
    (* what\s+is\s+(?:a\s+|an\s+)? and the quoted term *)
    Seq (Lit "what")
      (Seq spaces
         (Seq (Lit "is")
            (Seq spaces
               (Seq (Opt (Alt (Seq (Lit "a") spaces) (Seq (Lit "an") spaces)))
                  quoted_term)))) ].


(** Modelled from the spec: the loop of [query] over [term_patterns],
    which the repository does not record: the patterns are tried in order
    on the text [s] and the first one that matches gives the term, its
    group 2. *)
Fixpoint first_match (patterns : list regex) (s : string) : option string :=
  match patterns with
  | [] => None
  | p :: rest =>
      match search_group p 2 s with
      | Some term => Some term
      | None => first_match rest s
      end
  end.

(** The repository does not record which text the patterns are searched
    in. Here it is the lowered query, the text of the keyword test and of
    the section pattern; [classify_as] below leaves the text open. *)
Definition extract_term (query : string) : option string :=
  first_match term_patterns (lower query).

(** [section_match = re.search(r'section\s+(\d+)', query.lower())], and
    [section_match.group(1)] when it matched. *)
Definition section_match (query : string) : option string :=
  search_group section_pattern 1 (lower query).

(** The three retrieval strategies. *)
Inductive intent :=
| definition (term : string)
| section_query (section_num : string)
| general (query : string).

(** Modelled from the spec: what [query] does with a definition query
    when no term pattern matches, which the repository does not record:
    the intent degrades to the general strategy. *)
Definition no_term_found (query : string) : intent := general query.

(** The decision tree of step 4: a definition query goes down the
    definition path, and only a query that is not one is tested for a
    section number; [section_num = section_match.group(1).zfill(3)]. *)
Definition classify (query : string) : intent :=
  if is_definition_query query then
    match extract_term query with
    | Some term => definition term
    | None => no_term_found query
    end
  else
    match section_match query with
    | Some digits => section_query (zfill 3 digits)
    | None => general query
    end.

(** The variant of the branch condition found in the notes on the
    governance-grade improvements of [retrieval_service_faiss.py]:
    [if is_definition_query and not section_match:]. *)
Definition classify_section_first (query : string) : intent :=
  match section_match query with
  | Some digits => section_query (zfill 3 digits)
  | None =>
      if is_definition_query query then
        match extract_term query with
        | Some term => definition term
        | None => no_term_found query
        end
      else general query
  end.

(** The fourth pattern of [term_patterns] in the notes on the
    governance-grade improvements: [meaning\s+of\s+] and the quoted
    term. *)
Definition meaning_of_pattern : regex :=
  Seq (Lit "meaning") (Seq spaces (Seq (Lit "of") (Seq spaces quoted_term))).

(** [term_patterns] as those notes record it: the three patterns above
    and the fourth. *)
Definition term_patterns_governance : list regex :=
  term_patterns ++ [meaning_of_pattern].

(** The two records of the branch condition of step 4: the decision tree
    of the flow document, which asks for a definition query first, and
    [if is_definition_query and not section_match:] of the notes on the
    governance-grade improvements. *)
Inductive branch_condition :=
| definition_before_section
| definition_and_not_section.

(** The classifier under either record of the branch condition. What the
    repository does not record of the definition path is left open: the
    list [patterns] is either record of [term_patterns], and
    [subject query] is the text the patterns are searched in, the query or
    its lowered form. The loop over the patterns and the fall-back are
    [first_match] and [no_term_found]. *)
Definition classify_as (branch : branch_condition) (patterns : list regex)
  (subject : string -> string) (query : string) : intent :=
  let definition_path :=
    match first_match patterns (subject query) with
    | Some term => definition term
    | None => no_term_found query
    end in
  match branch with
  | definition_before_section =>
      if is_definition_query query then definition_path
      else
        match section_match query with
        | Some digits => section_query (zfill 3 digits)
        | None => general query
        end
  | definition_and_not_section =>
      match section_match query with
      | Some digits => section_query (zfill 3 digits)
      | None => if is_definition_query query then definition_path else general query
      end
  end.


(** ** SQL fragments used by the lookups *)

(** [column = value]: a NULL column never compares equal. *)
Definition column_eqb (column : option string) (value : string) : bool :=
  match column with
  | Some x => String.eqb x value
  | None => false
  end.

Definition document_type_eq_dec (a b : document_type_enum) : {a = b} + {a <> b}.
Proof. decide equality. Defined.

Definition document_type_eqb (a b : document_type_enum) : bool :=
  if document_type_eq_dec a b then true else false.

(** [s LIKE pattern], with the wildcards [%] and [_] and the default
    escape character, the backslash. *)
Fixpoint like (pattern s : string) {struct pattern} : bool :=
  match pattern with
  | EmptyString =>
      match s with EmptyString => true | String _ _ => false end
  | String p pattern' =>
      if Ascii.eqb p "%"%char then
        (fix any (s : string) : bool :=
           like pattern' s
           || match s with
              | EmptyString => false
              | String _ s' => any s'
              end) s
      else if Ascii.eqb p "_"%char then
        match s with
        | String _ s' => like pattern' s'
        | EmptyString => false
        end
      else if Ascii.eqb p "\"%char then
        match pattern', s with
        | String q pattern'', String c s' => Ascii.eqb q c && like pattern'' s'
        | _, _ => false
        end
      else
        match s with
        | String c s' => Ascii.eqb p c && like pattern' s'
        | EmptyString => false
        end
  end.

(** A character that LIKE reads as itself. *)
Definition plain_char (c : ascii) : bool :=
  negb (Ascii.eqb c "%"%char || Ascii.eqb c "_"%char || Ascii.eqb c "\"%char).

(** [ORDER BY]: a stable insertion sort on a "comes no later than" test. *)
Fixpoint insert_sorted {A : Type} (le : A -> A -> bool) (x : A) (l : list A)
  : list A :=
  match l with
  | [] => [x]
  | y :: l' => if le x y then x :: y :: l' else y :: insert_sorted le x l'
  end.

Definition order_by {A : Type} (le : A -> A -> bool) (l : list A) : list A :=
  fold_right (insert_sorted le) [] l.

(** Ascending order puts NULL last. *)
Definition compare_nulls_last {A : Type} (cmp : A -> A -> comparison)
  (x y : option A) : comparison :=
  match x, y with
  | Some a, Some b => cmp a b
  | Some _, None => Lt
  | None, Some _ => Gt
  | None, None => Eq
  end.

Definition find_content (db : database) (id : string) : option chunks_content_row :=
  find (fun cc => String.eqb (cc_chunk_id cc) id) (chunks_content db).

Definition find_rule (db : database) (id : string) : option chunk_retrieval_rules_row :=
  find (fun r => String.eqb (crr_chunk_id r) id) (chunk_retrieval_rules db).

Definition find_policy (db : database) (id : string) : option chunk_refusal_policy_row :=
  find (fun r => String.eqb (crp_chunk_id r) id) (chunk_refusal_policy db).

Definition find_lifecycle (db : database) (id : string) : option chunk_lifecycle_row :=
  find (fun r => String.eqb (cl_chunk_id r) id) (chunk_lifecycle db).

Definition find_embedding (db : database) (id : string) : option chunk_embeddings_row :=
  find (fun r => String.eqb (ce_chunk_id r) id) (chunk_embeddings db).

(** ** Direct lookup *)

(** [CASE WHEN ci.chunk_role = 'parent' THEN 0 ELSE 1 END] *)
Definition role_rank (ci : chunks_identity_row) : nat :=
  if chunk_role_eqb (chunk_role ci) parent then 0 else 1.

(** [ORDER BY CASE ... END, ci.chunk_id] *)
Definition section_order (a b : chunks_identity_row) : bool :=
  Nat.ltb (role_rank a) (role_rank b)
  || (Nat.eqb (role_rank a) (role_rank b) && String.leb (chunk_id a) (chunk_id b)).

(** Step 6b:
    [SELECT ci.chunk_id FROM chunks_identity ci WHERE ci.section = %s
     ORDER BY CASE WHEN ci.chunk_role = 'parent' THEN 0 ELSE 1 END,
     ci.chunk_id LIMIT %s], run with [(section_num, top_k)]. *)
Definition section_rows (db : database) (section_num : string)
  : list chunks_identity_row :=
  order_by section_order
    (filter (fun ci => column_eqb (section ci) section_num) (chunks_identity db)).

Definition direct_section_lookup (db : database) (section_num : string)
  (top_k : nat) : list string :=
  map chunk_id (firstn top_k (section_rows db section_num)).

(** [LOWER(cc.text) LIKE %s] with the parameter
    [f'%{term.lower()}%']. *)
Definition text_matches (term : string) (cc : chunks_content_row) : bool :=
  match text cc with
  | Some t => like ("%" ++ lower term ++ "%") (lower t)
  | None => false
  end.

(** Step 5b, as the flow document records it:
    [SELECT ci.chunk_id FROM chunks_identity ci
     JOIN chunks_content cc ON ci.chunk_id = cc.chunk_id
     WHERE ci.section = '002' AND ci.document_type = 'act'
     AND LOWER(cc.text) LIKE %s LIMIT 5]. *)
Definition definition_row (db : database) (term : string)
  (ci : chunks_identity_row) : bool :=
  column_eqb (section ci) "002"
  && document_type_eqb (document_type ci) act
  && match find_content db (chunk_id ci) with
     | Some cc => text_matches term cc
     | None => false
     end.

Definition direct_definition_lookup (db : database) (term : string)
  : list string :=
  map chunk_id (firstn 5 (filter (definition_row db term) (chunks_identity db))).

(** [ORDER BY chunk_role = 'parent' DESC]: a row for which the test is
    true comes no later than a row for which it is false. *)
Definition parent_first (a b : chunks_identity_row) : bool :=
  chunk_role_eqb (chunk_role a) parent
  || negb (chunk_role_eqb (chunk_role b) parent).

(** The query of step 5b as the notes on the governance-grade
    improvements record it: the same rows, with
    [ORDER BY chunk_role = 'parent' DESC] before [LIMIT 5]. The order among
    the parents and among the children is the database's; here it is the
    order of the scan. *)
Definition direct_definition_lookup_parent_first (db : database) (term : string)
  : list string :=
  map chunk_id
    (firstn 5 (order_by parent_first
                 (filter (definition_row db term) (chunks_identity db)))).

(** The two records of the definition lookup. *)
Definition definition_lookups : list (database -> string -> list string) :=
  [direct_definition_lookup; direct_definition_lookup_parent_first].

(** ** Chunk details *)

(** One row of the retrieval query of [get_chunk_details]. *)
Record chunk_detail := {
  cd_chunk_id : string;
  cd_parent_chunk_id : option string;
  cd_section : option string;
  cd_document_type : document_type_enum;
  cd_chunk_role : chunk_role_enum;
  cd_authority_level : authority_level_enum;
  cd_binding : bool;
  cd_text : option string;
  cd_title : option string;
  cd_compliance_area : option string;
  cd_citation : option string;
  cd_priority : option retrieval_priority_enum
}.

Definition priority_compare (a b : retrieval_priority_enum) : comparison :=
  Nat.compare (priority_number a) (priority_number b).

(** The rank of a priority in ascending order, NULL last. *)
Definition priority_rank (p : option retrieval_priority_enum) : nat :=
  match p with
  | Some p => priority_number p
  | None => 5
  end.

(** "Comes no later than" for sections in ascending order, NULL last. *)
Definition section_le (x y : option string) : bool :=
  match compare_nulls_last String.compare x y with
  | Gt => false
  | _ => true
  end.

(** [ORDER BY crr.priority, ci.section] *)
Definition detail_order (a b : chunk_detail) : bool :=
  match compare_nulls_last priority_compare (cd_priority a) (cd_priority b) with
  | Lt => true
  | Gt => false
  | Eq =>
      match compare_nulls_last String.compare (cd_section a) (cd_section b) with
      | Gt => false
      | _ => true
      end
  end.

(** [chunks_identity ci JOIN chunks_content cc ... LEFT JOIN
    chunk_retrieval_rules crr ...]. *)
Definition join_detail (db : database) (ci : chunks_identity_row)
  : option chunk_detail :=
  match find_content db (chunk_id ci) with
  | None => None
  | Some cc =>
      Some {| cd_chunk_id := chunk_id ci;
              cd_parent_chunk_id := parent_chunk_id ci;
              cd_section := section ci;
              cd_document_type := document_type ci;
              cd_chunk_role := chunk_role ci;
              cd_authority_level := authority_level ci;
              cd_binding := binding ci;
              cd_text := text cc;
              cd_title := title cc;
              cd_compliance_area := compliance_area cc;
              cd_citation := citation cc;
              cd_priority := option_map priority (find_rule db (chunk_id ci)) |}
  end.

Fixpoint filter_map {A B : Type} (f : A -> option B) (l : list A) : list B :=
  match l with
  | [] => []
  | x :: l' =>
      match f x with
      | Some y => y :: filter_map f l'
      | None => filter_map f l'
      end
  end.

(** [get_chunk_details(chunk_ids)]: the retrieval query with
    [WHERE ci.chunk_id = ANY(%s) ORDER BY crr.priority, ci.section]. *)
Definition get_chunk_details (db : database) (chunk_ids : list string)
  : list chunk_detail :=
  order_by detail_order
    (filter_map (join_detail db)
       (filter (fun ci => existsb (String.eqb (chunk_id ci)) chunk_ids)
          (chunks_identity db))).


(** ** Outcomes of Python code *)

Inductive failure :=
| IndexError                  (* a list index out of range *)
| TypeError                   (* [None] is not subscriptable *)
| answer_generation_failed.   (* the LLM call did not succeed *)

Inductive outcome (A : Type) :=
| Returned (a : A)
| Raised (e : failure).

Arguments Returned {A} a.
Arguments Raised {A} e.

Definition bind {A B : Type} (m : outcome A) (f : A -> outcome B) : outcome B :=
  match m with
  | Returned a => f a
  | Raised e => Raised e
  end.

Notation "x <- m ;; k" := (bind m (fun x => k))
  (at level 61, m at next level, right associativity).

Fixpoint map_outcome {A B : Type} (f : A -> outcome B) (l : list A)
  : outcome (list B) :=
  match l with
  | [] => Returned []
  | x :: l' =>
      y <- f x ;;
      ys <- map_outcome f l' ;;
      Returned (y :: ys)
  end.

(** ** The external services *)

Record services := {
  (** Ollama [/api/embeddings]; [None] when the call fails or times out. *)
  embed : string -> option (list Q);
  (** FAISS [index.search(query_embedding, top_k)]: positions in the index
      with their raw distances, nearest first. *)
  index_search : list Q -> nat -> list (Z * Q);
  (** Ollama [/api/generate]; [None] unless the status code is 200. *)
  generate : string -> option string
}.

(** ** Vector search ([search_vectors]) *)

Record vector_result := {
  vr_chunk_id : string;
  vr_similarity_score : Q
}.

(** [l[i]] for a Python list: a negative index counts from the end. *)
Definition py_index {A : Type} (l : list A) (i : Z) : option A :=
  let n := Z.of_nat (List.length l) in
  if (0 <=? i)%Z then nth_error l (Z.to_nat i)
  else if (- n <=? i)%Z then nth_error l (Z.to_nat (n + i))
  else None.

(** [1 - (distance / 2)] *)
Definition similarity_of_distance (distance : Q) : Q := 1 - distance / 2.

(** Step 7a.3: the comprehension over the hits of the index; [metadata] is
    the list loaded from [vector_store/metadata.json], one chunk id per
    position of the index. *)
Definition map_to_chunk_ids (metadata : list string) (hits : list (Z * Q))
  : outcome (list vector_result) :=
  map_outcome
    (fun hit =>
       match py_index metadata (fst hit) with
       | Some id =>
           Returned {| vr_chunk_id := id;
                       vr_similarity_score := similarity_of_distance (snd hit) |}
       | None => Raised IndexError
       end) hits.

(** Modelled from the spec: what [search_vectors] does when the embedding
    call fails or times out, which the repository does not record: the
    engine returns an empty result set and raises nothing. *)
Definition embedding_unavailable : outcome (list vector_result) := Returned [].

(** [search_vectors(query, top_k)]: embed the query, search the index, map
    the positions to chunk ids. *)
Definition search_vectors (sv : services) (metadata : list string)
  (query : string) (top_k : nat) : outcome (list vector_result) :=
  match embed sv query with
  | None => embedding_unavailable
  | Some query_embedding =>
      map_to_chunk_ids metadata (index_search sv query_embedding top_k)
  end.

(** *** What the index holds ([build_vector_database]) *)

(** The rows that [build_faiss_index.py] fetches to embed:
    [WHERE ci.chunk_role = 'child' AND cc.text IS NOT NULL
     AND LENGTH(cc.text) > 50
     AND (ce.embedded_at IS NULL OR ce.enabled = FALSE)],
    over [chunks_identity JOIN chunks_content LEFT JOIN chunk_embeddings]. *)
Definition unembedded_child (db : database) (ci : chunks_identity_row) : bool :=
  chunk_role_eqb (chunk_role ci) child
  && match find_content db (chunk_id ci) with
     | Some cc =>
         match text cc with
         | Some t => Nat.ltb 50 (length t)
         | None => false
         end
     | None => false
     end
  && match find_embedding db (chunk_id ci) with
     | Some ce => is_null (embedded_at ce) || negb (enabled ce)
     | None => true
     end.

(** The chunk ids appended to the metadata of the index by one run. *)
Definition build_vector_database (db : database) (metadata : list string)
  : list string :=
  metadata ++ map chunk_id (filter (unembedded_child db) (chunks_identity db)).

(** ** Answer generation ([generate_answer]) *)

(** ["\n\n---\n\n"] *)
Definition context_separator : string :=
  newline ++ newline ++ "---" ++ newline ++ newline.

(** [citation = f"Section {section}"] *)
Definition citation_of (chunk : chunk_detail) : string :=
  "Section " ++ py_str (cd_section chunk).

(** [f"[{doc_type}] {citation}: {title}\n{text}"] with
    [doc_type = chunk['document_type'].upper()]. *)
Definition context_part (chunk : chunk_detail) : string :=
  "[" ++ upper (document_type_name (cd_document_type chunk)) ++ "] "
  ++ citation_of chunk ++ ": " ++ py_str (cd_title chunk)
  ++ newline ++ py_str (cd_text chunk).

(** [context = "\n\n---\n\n".join(context_parts)[:8000]]; the budget was
    8000 characters and is 6000 since the performance optimisation. *)
Definition build_context (budget : nat) (context_chunks : list chunk_detail)
  : string :=
  take budget (join context_separator (map context_part context_chunks)).

Definition CONTEXT_SIZE : nat := 6000.
Definition CONTEXT_SIZE_before : nat := 8000.

(** The governance-grade prompt of step 9, an f-string around [{query}]
    and [{context}]. *)
Definition prompt_rules : string :=
  "You are a LEGAL COMPLIANCE ASSISTANT for the Companies Act, 2013 (India)."
  ++ newline ++ newline
  ++ "CRITICAL RULES - FOLLOW STRICTLY:" ++ newline
  ++ "1. ONLY use information from the SOURCE DOCUMENTS below" ++ newline
  ++ "2. NEVER add information not present in the sources" ++ newline
  ++ "3. CITE the exact section number from the sources" ++ newline
  ++ "4. If the question asks for a DEFINITION, provide ONLY the statutory definition"
  ++ newline
  ++ "5. DO NOT mix definitions with procedures, forms, or rules unless asked"
  ++ newline
  ++ "6. If sources don't contain the answer, say "
  ++ String dquote "The provided sources do not contain information about [topic]"
  ++ String dquote EmptyString ++ newline ++ newline
  ++ "USER QUESTION:" ++ newline.

Definition prompt_structure : string :=
  "ANSWER STRUCTURE:" ++ newline ++ newline
  ++ "**[Main Answer Title]**" ++ newline ++ newline
  ++ "[Provide the direct answer from the sources - NO elaboration beyond what's written]"
  ++ newline ++ newline
  ++ "**Legal Reference:**" ++ newline
  ++ "- Section [X]: [Exact provision or summary from source]" ++ newline ++ newline
  ++ "**Scope Notes:**" ++ newline
  ++ "[ONLY if relevant - mention what this section does NOT cover]"
  ++ newline ++ newline
  ++ "FORMATTING RULES:" ++ newline
  ++ "- Use **bold** for section numbers and key terms" ++ newline
  ++ "- Use bullet points for lists" ++ newline
  ++ "- Keep paragraphs short (2-3 sentences max)" ++ newline
  ++ "- DO NOT quote entire sections verbatim" ++ newline
  ++ "- DO NOT add procedural details unless the question asks for them"
  ++ newline ++ newline
  ++ "VALIDATION CHECKLIST (verify before responding):" ++ newline
  ++ "✓ Every fact is from the source documents" ++ newline
  ++ "✓ Section numbers match the sources exactly" ++ newline
  ++ "✓ No information added from general knowledge" ++ newline
  ++ "✓ Answer scope matches question scope (definition ≠ procedure)"
  ++ newline ++ newline
  ++ "WELL-FORMATTED MARKDOWN ANSWER:".

Definition build_prompt (query context : string) : string :=
  prompt_rules ++ query ++ newline ++ newline
  ++ "SOURCE DOCUMENTS:" ++ newline ++ context ++ newline ++ newline
  ++ prompt_structure.

Record answer_result := {
  ar_answer : string;
  ar_citations : list string
}.

(** Modelled from the spec: what [generate_answer] does when the LLM call
    times out or its status code is not 200, which the repository does not
    record: it fails with [answer_generation_failed] and returns no text. *)
Definition llm_unavailable : outcome answer_result :=
  Raised answer_generation_failed.

(** [generate_answer(query, context_chunks)]: the context, the prompt, one
    call of the LLM. *)
Definition generate_answer (sv : services) (budget : nat) (query : string)
  (context_chunks : list chunk_detail) : outcome answer_result :=
  let citations := map citation_of context_chunks in
  let context := build_context budget context_chunks in
  match generate sv (build_prompt query context) with
  | Some answer_text =>
      Returned {| ar_answer := answer_text; ar_citations := citations |}
  | None => llm_unavailable
  end.

(** ** The response of [query] *)

Inductive source_type_tag := direct_lookup | supplementary.

Record chunk_view := {
  cv_chunk_id : string;
  cv_section : option string;
  cv_document_type : document_type_enum;
  cv_text : string;
  cv_title : option string;
  cv_compliance_area : option string;
  cv_priority : option retrieval_priority_enum;
  cv_authority_level : authority_level_enum;
  cv_citation : option string;
  cv_similarity_score : Q;
  cv_source_type : option source_type_tag
}.

(** [score_map = {r['chunk_id']: r['similarity_score'] for r in
    vector_results}]: a later entry for a key replaces an earlier one. *)
Definition score_map := list (string * Q).

Fixpoint score_map_set (m : score_map) (key : string) (v : Q) : score_map :=
  match m with
  | [] => [(key, v)]
  | (k, w) :: m' =>
      if String.eqb k key then (k, v) :: m' else (k, w) :: score_map_set m' key v
  end.

Definition make_score_map (vector_results : list vector_result) : score_map :=
  fold_left (fun m r => score_map_set m (vr_chunk_id r) (vr_similarity_score r))
    vector_results [].

(** [score_map.get(key, default)] *)
Definition score_map_get (m : score_map) (key : string) (default : Q) : Q :=
  match find (fun kv => String.eqb (fst kv) key) m with
  | Some kv => snd kv
  | None => default
  end.

(** One entry of ['retrieved_chunks'] (step 12):
    ['text': chunk['text'][:500] + '...'] and
    ['similarity_score': score_map.get(chunk['chunk_id'], 1.0)]. *)
Definition format_chunk (scores : score_map) (source : option source_type_tag)
  (chunk : chunk_detail) : outcome chunk_view :=
  match cd_text chunk with
  | None => Raised TypeError
  | Some t =>
      Returned {| cv_chunk_id := cd_chunk_id chunk;
                  cv_section := cd_section chunk;
                  cv_document_type := cd_document_type chunk;
                  cv_text := take 500 t ++ "...";
                  cv_title := cd_title chunk;
                  cv_compliance_area := cd_compliance_area chunk;
                  cv_priority := cd_priority chunk;
                  cv_authority_level := cd_authority_level chunk;
                  cv_citation := cd_citation chunk;
                  cv_similarity_score := score_map_get scores (cd_chunk_id chunk) 1;
                  cv_source_type := source |}
  end.

Record response := {
  answer : string;
  citations : list string;
  retrieved_chunks : list chunk_view;
  direct_lookup_count : nat;
  supplementary_count : nat
}.

(** ** The [query] method of [retrieval_service_faiss.py] *)

(** The chunk ids that the direct lookup of an intent gives; the general
    strategy has none. *)
Definition direct_lookup_ids (db : database) (i : intent) (top_k : nat)
  : list string :=
  match i with
  | definition term => direct_definition_lookup db term
  | section_query section_num => direct_section_lookup db section_num top_k
  | general _ => []
  end.

(** The three paths of [query]. The entry of a retrieved chunk is the one
    of step 12 on every path. The notes on the section query flow, which
    record the marks of the source and the two counts, elide the chunk data
    of the section path: it is taken to be the same entry, with the score
    map of the vector search of that path. *)
Definition query (sv : services) (db : database) (metadata : list string)
  (budget : nat) (user_query : string) (top_k : nat) : outcome response :=
  match classify user_query with
  | definition term =>
      (* Path A: section 002 only, no vector search *)
      let definition_chunks := direct_definition_lookup db term in
      let chunk_details := get_chunk_details db definition_chunks in
      answer_result <- generate_answer sv budget user_query chunk_details ;;
      direct_chunks <- map_outcome (format_chunk [] (Some direct_lookup)) chunk_details ;;
      Returned {| answer := ar_answer answer_result;
                  citations := ar_citations answer_result;
                  retrieved_chunks := direct_chunks;
                  direct_lookup_count := List.length direct_chunks;
                  supplementary_count := 0 |}
  | section_query section_num =>
      (* Path B: the answer from the direct lookup, generated once; the
         vector search only adds supplementary chunks to the payload *)
      let chunk_ids := direct_section_lookup db section_num top_k in
      let chunk_details := get_chunk_details db chunk_ids in
      answer_result <- generate_answer sv budget user_query chunk_details ;;
      vector_results <- search_vectors sv metadata user_query top_k ;;
      let scores := make_score_map vector_results in
      let vector_details :=
        get_chunk_details db (map vr_chunk_id vector_results) in
      direct_chunks <- map_outcome (format_chunk scores (Some direct_lookup)) chunk_details ;;
      supplementary_chunks <-
        map_outcome (format_chunk scores (Some supplementary)) vector_details ;;
      Returned {| answer := ar_answer answer_result;
                  citations := ar_citations answer_result;
                  retrieved_chunks := direct_chunks ++ supplementary_chunks;
                  direct_lookup_count := List.length direct_chunks;
                  supplementary_count := List.length supplementary_chunks |}
  | general _ =>
      (* Path C: vector search only *)
      vector_results <- search_vectors sv metadata user_query top_k ;;
      let scores := make_score_map vector_results in
      let chunk_details :=
        get_chunk_details db (map vr_chunk_id vector_results) in
      answer_result <- generate_answer sv budget user_query chunk_details ;;
      chunks <- map_outcome (format_chunk scores None) chunk_details ;;
      Returned {| answer := ar_answer answer_result;
                  citations := ar_citations answer_result;
                  retrieved_chunks := chunks;
                  direct_lookup_count := 0;
                  supplementary_count := 0 |}
  end.

(** The authoritative evidence of a query: the details of the chunks that
    its direct lookup gives. *)
Definition evidence_set (db : database) (user_query : string) (top_k : nat)
  : list chunk_detail :=
  get_chunk_details db (direct_lookup_ids db (classify user_query) top_k).

(** ** Refusal policy *)

Inductive refusal_reason := insufficient_authoritative_source.

Inductive decision :=
| proceed (evidence_set : list string)
| refuse (reason : refusal_reason).

Definition relationship_eq_dec (a b : relationship_type_enum) : {a = b} + {a <> b}.
Proof. decide equality. Defined.

Definition priority_of (db : database) (id : string) : option nat :=
  option_map (fun r => priority_number (priority r)) (find_rule db id).

(** The chunk of the evidence set with the largest priority number, the
    first of them when several share it; chunks without a retrieval rule
    are passed over. *)
Fixpoint lowest_priority_chunk (db : database) (evidence_set : list string)
  : option (string * nat) :=
  match evidence_set with
  | [] => None
  | id :: rest =>
      match priority_of db id, lowest_priority_chunk db rest with
      | None, r => r
      | Some p, None => Some (id, p)
      | Some p, Some (id', p') =>
          if Nat.ltb p p' then Some (id', p') else Some (id, p)
      end
  end.

(** An [implements] or [clarifies] edge from one chunk to another. *)
Definition resolves_to (db : database) (from to : string) : bool :=
  existsb (fun e =>
             String.eqb (from_chunk_id e) from
             && String.eqb (to_chunk_id e) to
             && (if relationship_eq_dec (relationship e) implements then true
                 else if relationship_eq_dec (relationship e) clarifies then true
                 else false))
    (chunk_relationships db).

Definition has_higher_authority (db : database) (evidence_set : list string)
  (id : string) (p : nat) : bool :=
  existsb (fun other =>
             match priority_of db other with
             | Some q => Nat.ltb q p && resolves_to db id other
             | None => false
             end) evidence_set.

(** Modelled from the spec: [_check_refusal_policies] of
    [retrieval_service_v2.py] is not among the repository's sources, which
    give only its outline (priority 2: must have the parent Act; priority
    4: refuse standalone; if the parent is missing: refuse). The decision
    is taken on the lowest-priority chunk of the evidence set: priority 1
    always proceeds; priorities 2 and 3 need a chunk of higher authority
    that an [implements] or [clarifies] edge resolves to, and refuse
    without one when [refuse_if_parent_missing] is set; priority 4 never
    stands alone. *)
Definition check_refusal_policies (db : database) (evidence_set : list string)
  : decision :=
  match lowest_priority_chunk db evidence_set with
  | None => proceed evidence_set
  | Some (id, p) =>
      if Nat.eqb p 1 then proceed evidence_set
      else if has_higher_authority db evidence_set id p then proceed evidence_set
      else if Nat.eqb p 4 then refuse insufficient_authoritative_source
      else
        match find_policy db id with
        | Some policy =>
            if refuse_if_parent_missing policy
            then refuse insufficient_authoritative_source
            else proceed evidence_set
        | None => proceed evidence_set
        end
  end.


(** ** A small knowledge base *)

Definition identity_row (id : string) (role : chunk_role_enum)
  (parent_id : option string) (dt : document_type_enum)
  (level : authority_level_enum) (is_binding : bool) (sec : option string)
  : chunks_identity_row :=
  {| chunk_id := id; chunk_role := role; parent_chunk_id := parent_id;
     document_type := dt; authority_level := level; binding := is_binding;
     act_name := Some "Companies Act 2013"; section := sec;
     sub_section := None |}.

Definition content_row (id : string) (ttl : string) (txt : string)
  : chunks_content_row :=
  {| cc_chunk_id := id; title := Some ttl; compliance_area := None;
     text := Some txt; summary := None; citation := None |}.

Definition act_s017_parent : chunks_identity_row :=
  identity_row "ca2013_act_s017_p001" parent None act statutory true (Some "017").

Definition act_s017_child : chunks_identity_row :=
  identity_row "ca2013_act_s017_c01" child (Some "ca2013_act_s017_p001")
    act statutory true (Some "017").

Definition memorandum_text (n : string) : string :=
  "(" ++ n ++ ") Memorandum means the memorandum of association of a company".

(** Section 002 (definitions) with a parent and five children, section 017
    with the Act, one child and a circular still in DRAFT, and a textbook
    chunk that no relationship ties to the Act. *)
Definition example_db : database :=
  {| chunks_identity :=
       [ identity_row "ca2013_act_s002_c01" child (Some "ca2013_act_s002_p001")
           act statutory true (Some "002");
         identity_row "ca2013_act_s002_p001" parent None
           act statutory true (Some "002");
         identity_row "ca2013_act_s002_c02" child (Some "ca2013_act_s002_p001")
           act statutory true (Some "002");
         identity_row "ca2013_act_s002_c03" child (Some "ca2013_act_s002_p001")
           act statutory true (Some "002");
         identity_row "ca2013_act_s002_c04" child (Some "ca2013_act_s002_p001")
           act statutory true (Some "002");
         identity_row "ca2013_act_s002_c05" child (Some "ca2013_act_s002_p001")
           act statutory true (Some "002");
         act_s017_child;
         act_s017_parent;
         identity_row "circular_2014_s017_p001" parent None
           circular interpretive false (Some "017");
         identity_row "textbook_ch3_c01" child (Some "textbook_ch3_p001")
           textbook commentary_level false None;
         identity_row "textbook_ch3_p001" parent None
           textbook commentary_level false None ];
     chunks_content :=
       [ content_row "ca2013_act_s002_c01" "Definitions" (memorandum_text "56");
         content_row "ca2013_act_s002_p001" "Definitions" (memorandum_text "56");
         content_row "ca2013_act_s002_c02" "Definitions" (memorandum_text "56a");
         content_row "ca2013_act_s002_c03" "Definitions" (memorandum_text "56b");
         content_row "ca2013_act_s002_c04" "Definitions" (memorandum_text "56c");
         content_row "ca2013_act_s002_c05" "Definitions" (memorandum_text "56d");
         content_row "ca2013_act_s017_c01" "Service of documents"
           "A document may be served on a company by sending it to the registered office";
         content_row "ca2013_act_s017_p001" "Service of documents"
           "A document may be served on a company by sending it to the registered office";
         content_row "circular_2014_s017_p001" "Draft circular"
           "Clarification on service of documents, not yet approved";
         content_row "textbook_ch3_c01" "Incorporation"
           "To register a company, file the incorporation form with the Registrar";
         content_row "textbook_ch3_p001" "Incorporation"
           "To register a company, file the incorporation form with the Registrar" ];
     chunk_relationships :=
       [ {| from_chunk_id := "ca2013_act_s017_c01"; relationship := part_of;
            to_chunk_id := "ca2013_act_s017_p001" |};
         {| from_chunk_id := "textbook_ch3_c01"; relationship := part_of;
            to_chunk_id := "textbook_ch3_p001" |} ];
     chunk_retrieval_rules :=
       [ {| crr_chunk_id := "ca2013_act_s017_p001"; priority := P1;
            requires_parent_law := false; allowed_query_types := [] |};
         {| crr_chunk_id := "ca2013_act_s017_c01"; priority := P1;
            requires_parent_law := false; allowed_query_types := [] |};
         {| crr_chunk_id := "circular_2014_s017_p001"; priority := P2;
            requires_parent_law := true; allowed_query_types := [] |};
         {| crr_chunk_id := "textbook_ch3_c01"; priority := P4;
            requires_parent_law := true; allowed_query_types := [] |} ];
     chunk_refusal_policy :=
       [ {| crp_chunk_id := "ca2013_act_s017_p001"; can_answer_standalone := true;
            must_reference_parent_law := false; refuse_if_parent_missing := false |};
         {| crp_chunk_id := "textbook_ch3_c01"; can_answer_standalone := false;
            must_reference_parent_law := true; refuse_if_parent_missing := true |} ];
     chunk_lifecycle :=
       [ {| cl_chunk_id := "ca2013_act_s002_c01"; status := DRAFT |};
         {| cl_chunk_id := "ca2013_act_s002_p001"; status := ACTIVE |};
         {| cl_chunk_id := "ca2013_act_s017_c01"; status := ACTIVE |};
         {| cl_chunk_id := "ca2013_act_s017_p001"; status := ACTIVE |};
         {| cl_chunk_id := "circular_2014_s017_p001"; status := DRAFT |};
         {| cl_chunk_id := "textbook_ch3_c01"; status := ACTIVE |} ];
     chunk_embeddings := [] |}.

(** Services that answer: the embedding call succeeds, the index returns
    its first vector at distance 1/2, the LLM returns a fixed text. *)
Definition example_services : services :=
  {| embed := fun _ => Some [1%Q; 0%Q];
     index_search := fun _ _ => [(0%Z, (1 # 2)%Q)];
     generate := fun _ => Some "**Answer** as generated by the model" |}.

(** The same with the embedding service down. *)
Definition embedding_down : services :=
  {| embed := fun _ => None;
     index_search := index_search example_services;
     generate := generate example_services |}.

(** An index whose nearest vector lies at distance 3 from the query. *)
Definition far_services : services :=
  {| embed := fun _ => Some [1%Q; 0%Q];
     index_search := fun _ _ => [(0%Z, 3%Q)];
     generate := generate example_services |}.

(** One chunk whose text has 9000 characters. *)
Definition long_db : database :=
  {| chunks_identity :=
       [ identity_row "ca2013_act_s135_p001" parent None
           act statutory true (Some "135") ];
     chunks_content :=
       [ content_row "ca2013_act_s135_p001" "Corporate Social Responsibility"
           (replicate 9000 "x"%char) ];
     chunk_relationships := [];
     chunk_retrieval_rules :=
       [ {| crr_chunk_id := "ca2013_act_s135_p001"; priority := P1;
            requires_parent_law := false; allowed_query_types := [] |} ];
     chunk_refusal_policy := [];
     chunk_lifecycle :=
       [ {| cl_chunk_id := "ca2013_act_s135_p001"; status := ACTIVE |} ];
     chunk_embeddings := [] |}.

(** ** The shape of an extracted term *)

(** A character that the term group [( \w+ (?: \s+ \w+ )* )] can hold. *)
Definition term_char (c : ascii) : bool :=
  in_class class_word c || in_class class_space c.

Definition first_char (s : string) : option ascii :=
  match s with
  | String c _ => Some c
  | EmptyString => None
  end.

Fixpoint last_char (s : string) : option ascii :=
  match s with
  | String c EmptyString => Some c
  | String _ s' => last_char s'
  | EmptyString => None
  end.

(** A character that LIKE does not read as itself only when it is the
    one-character wildcard. *)
Definition no_percent_no_escape (c : ascii) : bool :=
  negb (Ascii.eqb c "%"%char || Ascii.eqb c "\"%char).

(** ** Three-valued logic of SQL conditions *)

(** A condition is TRUE, FALSE or NULL (unknown); [None] is NULL. *)
Definition sql_bool := option bool.

(** [a = b]: NULL when either side is NULL. *)
Definition sql_eq (a b : option string) : sql_bool :=
  match a, b with
  | Some x, Some y => Some (String.eqb x y)
  | _, _ => None
  end.

(** [p OR q] *)
Definition sql_or (p q : sql_bool) : sql_bool :=
  match p, q with
  | Some true, _ => Some true
  | _, Some true => Some true
  | Some false, Some false => Some false
  | _, _ => None
  end.

(** [x IN (v1, ..., vn)] is [x = v1 OR ... OR x = vn]. *)
Definition sql_in (x : option string) (values : list (option string)) : sql_bool :=
  fold_right (fun v rest => sql_or (sql_eq x v) rest) (Some false) values.

(** A CHECK constraint rejects a row only when its condition is FALSE. *)
Definition check_satisfied (condition : sql_bool) : bool :=
  match condition with
  | Some false => false
  | _ => true
  end.

(** [copyright_status TEXT CHECK (copyright_status IN
    ('copyrighted', 'public_domain', NULL))] of [chunk_administrative]. *)
Definition copyright_status_check (copyright_status : option string) : sql_bool :=
  sql_in copyright_status [Some "copyrighted"; Some "public_domain"; None].

(* ------------------------------------------------------------------ *)
(** ** The Next.js front end: JavaScript values

    A JavaScript string is a [string] (its characters are the code units
    below 128); a value that may be [null] or [undefined] is an [option].
    Numbers that the routes compute with are integers or NaN: the model is
    exact for integers below 2^53 in magnitude. *)

(** A missing or empty string is falsy. *)
Definition truthy (v : option string) : bool :=
  match v with
  | Some s => negb (String.eqb s EmptyString)
  | None => false
  end.

(** [v || fallback] *)
Definition or_default (v : option string) (fallback : string) : string :=
  match v with
  | Some s => if String.eqb s EmptyString then fallback else s
  | None => fallback
  end.

(** [String(n)] for a non-negative integer. *)
Definition String_of_nat (n : nat) : string :=
  NilEmpty.string_of_uint (Nat.to_uint n).

(** [s.padStart(targetLength, c)] with a pad string of one character. *)
Definition padStart (targetLength : nat) (c : ascii) (s : string) : string :=
  (replicate (targetLength - length s) c ++ s)%string.

(** White space and line terminators. *)
Definition js_space (c : ascii) : bool :=
  let n := N_of_ascii c in ((n =? 32) || ((9 <=? n) && (n <=? 13)))%N.

Fixpoint trim_start (s : string) : string :=
  match s with
  | String c s' => if js_space c then trim_start s' else s
  | EmptyString => EmptyString
  end.

Inductive js_number :=
| NaN
| Num (z : Z).

(** The value of a character as a digit in the radix, if it is one. *)
Definition digit_value (radix : Z) (c : ascii) : option Z :=
  let n := Z.of_N (N_of_ascii c) in
  let v :=
    if is_digit c then Some (n - 48)%Z
    else if is_lower c then Some (n - 97 + 10)%Z
    else if is_upper c then Some (n - 65 + 10)%Z
    else None in
  match v with
  | Some d => if (d <? radix)%Z then Some d else None
  | None => None
  end.

(** The longest prefix of digits, as a number; [acc] is [None] until a
    digit has been read. *)
Fixpoint parse_digits (radix : Z) (s : string) (acc : option Z) : option Z :=
  match s with
  | String c s' =>
      match digit_value radix c with
      | Some d =>
          parse_digits radix s'
            (Some (match acc with
                   | Some a => a * radix + d
                   | None => d
                   end)%Z)
      | None => acc
      end
  | EmptyString => acc
  end.

(** [parseInt(s)] without a radix: leading white space, a sign, the
    prefix [0x] or [0X] for radix 16, then digits up to the first
    character that is none; NaN when there is no digit. *)
Definition parseInt (s : string) : js_number :=
  let s := trim_start s in
  let '(sign, s) :=
    match s with
    | String c s' =>
        if Ascii.eqb c "-"%char then ((-1)%Z, s')
        else if Ascii.eqb c "+"%char then (1%Z, s')
        else (1%Z, s)
    | EmptyString => (1%Z, s)
    end in
  let '(radix, s) :=
    if (prefix "0x" s || prefix "0X" s)%bool then (16%Z, drop 2 s)
    else (10%Z, s) in
  match parse_digits radix s None with
  | Some z => Num (sign * z)
  | None => NaN
  end.

Definition js_sub (a b : js_number) : js_number :=
  match a, b with
  | Num x, Num y => Num (x - y)
  | _, _ => NaN
  end.

Definition js_mul (a b : js_number) : js_number :=
  match a, b with
  | Num x, Num y => Num (x * y)
  | _, _ => NaN
  end.

Definition js_add (a b : js_number) : js_number :=
  match a, b with
  | Num x, Num y => Num (x + y)
  | _, _ => NaN
  end.

(** A number in a JSON body: NaN and the infinities are written [null]. *)
Definition json_number (n : js_number) : option Z :=
  match n with
  | Num z => Some z
  | NaN => None
  end.

(** [Math.ceil(total / limit)] in a JSON body: a division by zero gives
    NaN or an infinity. *)
Definition json_ceil_div (total : Z) (limit : js_number) : option Z :=
  match limit with
  | NaN => None
  | Num l => if (l =? 0)%Z then None else Some (- ((- total) / l))%Z
  end.

(** The relative index of [Array.prototype.slice]: NaN counts as 0, a
    negative index counts from the end, and both are clamped to the
    array. *)
Definition relative_index (len : Z) (i : js_number) : Z :=
  match i with
  | NaN => 0%Z
  | Num z => if (z <? 0)%Z then Z.max (len + z) 0 else Z.min z len
  end.

(** [l.slice(start, end)] *)
Definition slice {A : Type} (l : list A) (start end_ : js_number) : list A :=
  let len := Z.of_nat (List.length l) in
  let k := relative_index len start in
  let final := relative_index len end_ in
  firstn (Z.to_nat (final - k)) (skipn (Z.to_nat k) l).

(** [list.includes(x)] *)
Definition includes (l : list string) (x : string) : bool :=
  existsb (String.eqb x) l.

(** The properties that every object inherits from [Object.prototype];
    read through an object that does not define them, each is truthy. *)
Definition Object_prototype_properties : list string :=
  ["constructor"; "__defineGetter__"; "__defineSetter__"; "hasOwnProperty";
   "__lookupGetter__"; "__lookupSetter__"; "isPrototypeOf";
   "propertyIsEnumerable"; "toString"; "valueOf"; "__proto__";
   "toLocaleString"].

(** ** The audit log route ([GET /api/admin/audit]) *)

Module AuditRoute.

Record AuditLogEntry := {
  id : string;
  action : string;
  documentId : string;
  documentType : string;
  performedBy : string;
  performedAt : string;
  details : string;
  status : string
}.

Definition auditLogs : list AuditLogEntry :=
  [ {| id := "audit-001"; action := "INGEST"; documentId := "DOC-2026-001";
       documentType := "notification"; performedBy := "admin@pragya.in";
       performedAt := "2026-02-01T10:30:00Z";
       details := "New notification ingested for Section 134";
       status := "SUCCESS" |};
    {| id := "audit-002"; action := "UPDATE"; documentId := "DOC-2026-002";
       documentType := "circular"; performedBy := "admin@pragya.in";
       performedAt := "2026-02-01T09:15:00Z";
       details := "Updated metadata for circular on Annual Returns";
       status := "SUCCESS" |};
    {| id := "audit-003"; action := "INGEST"; documentId := "DOC-2026-003";
       documentType := "rule"; performedBy := "admin@pragya.in";
       performedAt := "2026-01-31T16:45:00Z";
       details := "Attempted to ingest new rule - embedding failed";
       status := "FAILED" |};
    {| id := "audit-004"; action := "CREATE"; documentId := "DOC-2026-004";
       documentType := "qa"; performedBy := "content@pragya.in";
       performedAt := "2026-01-31T14:20:00Z";
       details := "Created new Q&A entry for Director obligations";
       status := "SUCCESS" |};
    {| id := "audit-005"; action := "DELETE"; documentId := "DOC-2026-005";
       documentType := "commentary"; performedBy := "admin@pragya.in";
       performedAt := "2026-01-30T11:00:00Z";
       details := "Removed outdated commentary on Section 185";
       status := "SUCCESS" |};
    {| id := "audit-006"; action := "INGEST"; documentId := "DOC-2026-006";
       documentType := "order"; performedBy := "admin@pragya.in";
       performedAt := "2026-01-30T10:00:00Z";
       details := "Processing order document - awaiting embedding";
       status := "PENDING" |} ].

Record pagination_info := {
  page : option Z;
  limit : option Z;
  total : nat;
  totalPages : option Z
}.

Record response := {
  data : list AuditLogEntry;
  pagination : pagination_info
}.

(** [if (param && param !== 'all')] *)
Definition selects (param : option string) : option string :=
  match param with
  | Some value =>
      if negb (String.eqb value EmptyString) && negb (String.eqb value "all")
      then Some value else None
  | None => None
  end.

(** The three filters of [GET], in the order of the source. *)
Definition filter_logs (logs : list AuditLogEntry)
  (action_param status_param search_param : option string)
  : list AuditLogEntry :=
  let filteredLogs := logs in
  let filteredLogs :=
    match selects action_param with
    | Some value => filter (fun log => String.eqb (action log) value) filteredLogs
    | None => filteredLogs
    end in
  let filteredLogs :=
    match selects status_param with
    | Some value => filter (fun log => String.eqb (status log) value) filteredLogs
    | None => filteredLogs
    end in
  match search_param with
  | Some search =>
      if String.eqb search EmptyString then filteredLogs
      else
        let searchLower := lower search in
        filter (fun log =>
                  contains searchLower (lower (documentId log))
                  || contains searchLower (lower (details log))
                  || contains searchLower (lower (performedBy log)))
          filteredLogs
  | None => filteredLogs
  end.

(** [GET], over the logs that the module holds. *)
Definition GET (logs : list AuditLogEntry)
  (action_param status_param search_param page_param limit_param : option string)
  : response :=
  let page := parseInt (or_default page_param "1") in
  let limit := parseInt (or_default limit_param "10") in
  let filteredLogs := filter_logs logs action_param status_param search_param in
  let total := List.length filteredLogs in
  let startIndex := js_mul (js_sub page (Num 1)) limit in
  let paginatedLogs := slice filteredLogs startIndex (js_add startIndex limit) in
  {| data := paginatedLogs;
     pagination :=
       {| page := json_number page;
          limit := json_number limit;
          total := total;
          totalPages := json_ceil_div (Z.of_nat total) limit |} |}.

End AuditRoute.

(** ** The notifications route ([/api/admin/notifications]) *)

Module NotificationsRoute.

Record SystemNotification := {
  id : string;
  type : string;
  title : string;
  message : string;
  timestamp : string;
  read : bool
}.

(** The store the module starts with. *)
Definition notifications : list SystemNotification :=
  [ {| id := "notif-001"; type := "SUCCESS"; title := "Ingestion Complete";
       message := "Successfully ingested 15 documents from batch upload. All embeddings generated.";
       timestamp := "2026-02-01T10:30:00Z"; read := false |};
    {| id := "notif-002"; type := "WARNING"; title := "Embedding Queue Backlog";
       message := "There are 42 documents pending embedding generation. Consider scaling up workers.";
       timestamp := "2026-02-01T09:15:00Z"; read := false |};
    {| id := "notif-003"; type := "ERROR"; title := "Database Connection Issue";
       message := "Intermittent connection failures detected with PostgreSQL. Last failure: 2 hours ago.";
       timestamp := "2026-02-01T08:00:00Z"; read := false |};
    {| id := "notif-004"; type := "INFO"; title := "System Maintenance Scheduled";
       message := "Scheduled maintenance window: Feb 5, 2026, 02:00-04:00 IST. Services may be unavailable.";
       timestamp := "2026-01-31T16:45:00Z"; read := true |};
    {| id := "notif-005"; type := "SUCCESS"; title := "New Section Added";
       message := "Section 43 folder structure created successfully with all subfolders.";
       timestamp := "2026-01-31T14:20:00Z"; read := true |};
    {| id := "notif-006"; type := "INFO"; title := "API Usage Report";
       message := "Weekly API usage report is ready. Total queries: 1,247. Average latency: 822ms.";
       timestamp := "2026-01-30T11:00:00Z"; read := true |} ].

Record get_response := {
  data : list SystemNotification;
  unreadCount : nat;
  total : nat
}.

Definition GET (store : list SystemNotification) (filter_param : option string)
  : get_response :=
  let filter_value := or_default filter_param "all" in
  let filteredNotifications :=
    if String.eqb filter_value "unread"
    then filter (fun n => negb (read n)) store
    else store in
  let unreadCount := List.length (filter (fun n => negb (read n)) store) in
  {| data := filteredNotifications;
     unreadCount := unreadCount;
     total := List.length store |}.

(** [{ ...n, read: true }] *)
Definition mark_read (n : SystemNotification) : SystemNotification :=
  {| id := id n; type := type n; title := title n; message := message n;
     timestamp := timestamp n; read := true |}.

Inductive write_response :=
| success (message : string)          (* status 200 *)
| bad_request (error : string).       (* status 400 *)

(** [PATCH] with the body [{ id, action }]; it returns the response and
    the store as it leaves it. *)
Definition PATCH (store : list SystemNotification) (id_field action_field : option string)
  : write_response * list SystemNotification :=
  match action_field, id_field with
  | Some action_value, Some id_value =>
      if String.eqb action_value "markAsRead"
         && negb (String.eqb id_value EmptyString)
      then (success "Notification marked as read",
            map (fun n => if String.eqb (id n) id_value then mark_read n else n) store)
      else if String.eqb action_value "markAllAsRead"
      then (success "All notifications marked as read", map mark_read store)
      else (bad_request "Invalid action", store)
  | Some action_value, None =>
      if String.eqb action_value "markAllAsRead"
      then (success "All notifications marked as read", map mark_read store)
      else (bad_request "Invalid action", store)
  | None, _ => (bad_request "Invalid action", store)
  end.

(** [DELETE] with the query parameter [id]. *)
Definition DELETE (store : list SystemNotification) (id_param : option string)
  : write_response * list SystemNotification :=
  match id_param with
  | Some id_value =>
      if String.eqb id_value EmptyString then (bad_request "ID required", store)
      else (success "Notification deleted",
            filter (fun n => negb (String.eqb (id n) id_value)) store)
  | None => (bad_request "ID required", store)
  end.

(** The requests of the route, and the store after one of them. *)
Inductive request :=
| GET_request (filter_param : option string)
| PATCH_request (id_field action_field : option string)
| DELETE_request (id_param : option string).

Definition handle (store : list SystemNotification) (r : request)
  : list SystemNotification :=
  match r with
  | GET_request _ => store
  | PATCH_request id_field action_field => snd (PATCH store id_field action_field)
  | DELETE_request id_param => snd (DELETE store id_param)
  end.

End NotificationsRoute.

(** ** Shared admin types ([types/admin.ts]) *)

Definition BINDING_DOCUMENT_TYPES : list string :=
  ["act"; "rule"; "notification"; "form"; "schedule"; "return"; "circular";
   "order"; "regulation"; "register"].

Definition NON_BINDING_DOCUMENT_TYPES : list string :=
  ["sop"; "guideline"; "practice_note"; "commentary"; "textbook"; "qa_book";
   "qa"; "other"].

(** [Array.from({ length: 470 }, (_, i) => String(i + 1).padStart(3, '0'))] *)
Definition COMPANIES_ACT_SECTIONS : list string :=
  map (fun i => padStart 3 "0"%char (String_of_nat (i + 1))) (seq 0 470).

(** ** The ingestion form ([IngestionForm]) and its submission *)

Module IngestionForm.

(** A value of the form state: [Partial<IngestionFormData>] holds strings,
    the flag [isBinding], the uploaded file, or nothing. *)
Inductive form_value :=
| undefined
| str (s : string)
| flag (b : bool)
| file (name : string).

Definition truthy_value (v : form_value) : bool :=
  match v with
  | undefined => false
  | str s => negb (String.eqb s EmptyString)
  | flag b => b
  | file _ => true
  end.

(** The form state, an object: the entry of a field that comes first is
    its value. *)
Definition form_state := list (string * form_value).

Definition get (formData : form_state) (field : string) : form_value :=
  match find (fun entry => String.eqb (fst entry) field) formData with
  | Some entry => snd entry
  | None => undefined
  end.

(** [{ ...prev, [field]: value }] *)
Definition set (prev : form_state) (field : string) (value : form_value)
  : form_state :=
  (field, value) :: prev.

Record document_type_option := {
  value : string;
  label : string;
  binding : bool
}.

Definition ALL_DOCUMENT_TYPES : list document_type_option :=
  [ {| value := "act"; label := "Act"; binding := true |};
    {| value := "rule"; label := "Rule"; binding := true |};
    {| value := "regulation"; label := "Regulation"; binding := true |};
    {| value := "order"; label := "Order"; binding := true |};
    {| value := "notification"; label := "Notification"; binding := true |};
    {| value := "circular"; label := "Circular"; binding := true |};
    {| value := "sop"; label := "SOP"; binding := false |};
    {| value := "form"; label := "Form"; binding := true |};
    {| value := "guideline"; label := "Guideline"; binding := false |};
    {| value := "practice_note"; label := "Practice Note"; binding := false |};
    {| value := "commentary"; label := "Commentary"; binding := false |};
    {| value := "textbook"; label := "Textbook"; binding := false |};
    {| value := "qa_book"; label := "Q&A Book"; binding := false |};
    {| value := "schedule"; label := "Schedule"; binding := true |};
    {| value := "register"; label := "Register"; binding := true |};
    {| value := "return"; label := "Return"; binding := true |};
    {| value := "qa"; label := "Q&A"; binding := false |};
    {| value := "other"; label := "Other"; binding := false |} ].

(** The state the form starts with; [today] is the date of the day. *)
Definition initial_state (today : string) : form_state :=
  [ ("documentType", undefined);
    ("isBinding", flag true);
    ("inputType", str "pdf");
    ("dateIssued", str today);
    ("documentLanguage", str "English") ].

(** [ALL_DOCUMENT_TYPES.find(d => d.value === v)] *)
Definition find_document_type (v : form_value) : option document_type_option :=
  match v with
  | str s => find (fun d => String.eqb (value d) s) ALL_DOCUMENT_TYPES
  | _ => None
  end.

(** [handleChange(field, value)]: the new form state. *)
Definition handleChange (prev : form_state) (field : string) (v : form_value)
  : form_state :=
  let updated := set prev field v in
  if String.eqb field "documentType" then
    match find_document_type v with
    | Some docType =>
        let updated := set updated "isBinding" (flag (binding docType)) in
        if negb (binding docType) then set updated "section" undefined
        else updated
    | None => updated
    end
  else updated.

(** [BINDING_DOCUMENT_TYPES.includes(formData.documentType)] *)
Definition is_binding_type (v : form_value) : bool :=
  match v with
  | str s => includes BINDING_DOCUMENT_TYPES s
  | _ => false
  end.

Definition requiresSection (formData : form_state) : bool :=
  truthy_value (get formData "isBinding")
  && is_binding_type (get formData "documentType").

(** [s.trim()] *)
Fixpoint trim_end (s : string) : string :=
  match s with
  | String c s' =>
      match trim_end s' with
      | EmptyString => if js_space c then EmptyString else String c EmptyString
      | rest => String c rest
      end
  | EmptyString => EmptyString
  end.

Definition trim (s : string) : string := trim_end (trim_start s).

(** [!formData.textContent?.trim()] *)
Definition no_text (v : form_value) : bool :=
  match v with
  | str s => String.eqb (trim s) EmptyString
  | _ => negb (truthy_value v)
  end.

(** [validateForm()]: the keys of [newErrors], in the order they are
    set; the form is valid when there is none. *)
Definition validation_errors (formData : form_state) : list string :=
  (if negb (truthy_value (get formData "documentType")) then ["documentType"] else [])
  ++ (if requiresSection formData && negb (truthy_value (get formData "section"))
      then ["section"] else [])
  ++ (if negb (truthy_value (get formData "dateIssued")) then ["dateIssued"] else [])
  ++ (if negb (truthy_value (get formData "complianceArea"))
      then ["complianceArea"] else [])
  ++ (if negb (truthy_value (get formData "documentLanguage"))
      then ["documentLanguage"] else [])
  ++ (match get formData "inputType" with
      | str t =>
          if String.eqb t "pdf" && negb (truthy_value (get formData "pdfFile"))
          then ["pdfFile"] else []
      | _ => []
      end)
  ++ (match get formData "inputType" with
      | str t =>
          if String.eqb t "text" && no_text (get formData "textContent")
          then ["textContent"] else []
      | _ => []
      end).

Definition validateForm (formData : form_state) : bool :=
  match validation_errors formData with
  | [] => true
  | _ :: _ => false
  end.

(** The sections that the select of the form offers:
    [COMPANIES_ACT_SECTIONS.slice(0, 100)]. *)
Definition section_options : list string :=
  slice COMPANIES_ACT_SECTIONS (Num 0) (Num 100).

(** The label of an option: [Section {parseInt(section)}]. *)
Definition section_label (section : string) : option Z :=
  json_number (parseInt section).

(** *** [handleIngestionSubmit] of the admin page *)

(** An entry of a [FormData]: a string, or a file. *)
Inductive form_entry :=
| text_entry (s : string)
| file_entry (name : string).

(** What [FormData.append(name, v)] stores for a value of the form. *)
Definition append_value (v : form_value) : form_entry :=
  match v with
  | undefined => text_entry "undefined"
  | str s => text_entry s
  | flag true => text_entry "true"
  | flag false => text_entry "false"
  | file name => file_entry name
  end.

Definition append_always (data : form_state) (field : string)
  : list (string * form_entry) :=
  [(field, append_value (get data field))].

Definition append_if_set (data : form_state) (field : string)
  : list (string * form_entry) :=
  if truthy_value (get data field)
  then [(field, append_value (get data field))] else [].

(** The entries of the [FormData] that [handleIngestionSubmit] posts to
    [/api/admin/ingest]. *)
Definition submitted_entries (data : form_state) : list (string * form_entry) :=
  append_always data "documentType"
  ++ append_always data "isBinding"
  ++ append_always data "inputType"
  ++ append_always data "dateIssued"
  ++ append_if_set data "section"
  ++ append_if_set data "effectiveDateFrom"
  ++ append_if_set data "effectiveDateTo"
  ++ append_if_set data "complianceArea"
  ++ append_if_set data "documentLanguage"
  ++ append_if_set data "notificationNumber"
  ++ append_if_set data "issuedBy"
  ++ (match get data "inputType" with
      | str t =>
          if String.eqb t "pdf" && truthy_value (get data "pdfFile")
          then [("pdfFile", append_value (get data "pdfFile"))]
          else if String.eqb t "text" && truthy_value (get data "textContent")
          then [("textContent", append_value (get data "textContent"))]
          else []
      | _ => []
      end).

End IngestionForm.

(** ** The ingestion route kept in memory ([/api/admin/ingest]) *)

Module IngestRoute.

(** [IngestionRequest]: the fields have the types of the interface; a
    field that the body leaves out is [None] ([false] for the flag). *)
Record IngestionRequest := {
  documentType : option string;
  isBinding : bool;
  section : option string;
  inputType : option string;
  textContent : option string;
  title : option string;
  dateIssued : option string;
  effectiveDateFrom : option string;
  effectiveDateTo : option string;
  complianceArea : option string;
  documentLanguage : option string;
  notificationNumber : option string;
  issuedBy : option string
}.

Inductive job_status := pending | processing | completed | failed.

Record job := {
  id : string;
  status : job_status;
  data : IngestionRequest;
  createdAt : string;
  completedAt : option string;
  storagePath : string;
  fileName : option string;
  hasFile : bool
}.

(** A request: its [content-type] header, the entries of its form data
    when it has some, and its body read as JSON when it is JSON. *)
Record request := {
  content_type : option string;
  formData : list (string * IngestionForm.form_entry);
  json : option IngestionRequest
}.

(** What the handler reads from its surroundings: [Date.now()] and
    [Math.random().toString(36).substr(2, 9)] for the job id,
    [new Date().toISOString()], and [JSON.parse] ([None] when it throws
    or gives [null]). *)
Record environment := {
  Date_now : string;
  random_suffix : string;
  toISOString : string;
  JSON_parse : string -> option IngestionRequest
}.

Inductive response :=
| queued (jobId : string) (path : string)     (* status 200 *)
| rejected (error : string)                   (* status 400 *)
| failed_to_process.                          (* status 500 *)

(** [formData.get(name)] *)
Definition formData_get (entries : list (string * IngestionForm.form_entry))
  (name : string) : option IngestionForm.form_entry :=
  option_map snd (find (fun entry => String.eqb (fst entry) name) entries).

Definition requiredFields : list (string * (IngestionRequest -> option string)) :=
  [ ("documentType", documentType);
    ("dateIssued", dateIssued);
    ("complianceArea", complianceArea);
    ("documentLanguage", documentLanguage) ].

Definition bindingTypes : list string :=
  ["act"; "rule"; "notification"; "circular"; "order"; "form"; "schedule";
   "register"; "return"].

(** The first required field that is missing or empty. *)
Definition missing_field (ingestionData : IngestionRequest) : option string :=
  option_map fst
    (find (fun field => negb (truthy (snd field ingestionData))) requiredFields).

Definition storage_path (ingestionData : IngestionRequest) : string :=
  let documentType := or_default (documentType ingestionData) EmptyString in
  if isBinding ingestionData && truthy (section ingestionData) then
    let sectionPadded :=
      padStart 3 "0"%char (or_default (section ingestionData) EmptyString) in
    ("raw/companies_act/section_" ++ sectionPadded ++ "/" ++ documentType ++ "s")%string
  else
    let typeFolder :=
      if String.eqb documentType "qa" || String.eqb documentType "qa_book"
      then "qa"
      else if String.eqb documentType "textbook"
              || String.eqb documentType "commentary"
      then "textbooks"
      else "other" in
    ("raw/non-binding/" ++ typeFolder)%string.

(** The part of [POST] after the body has been read. *)
Definition enqueue (env : environment) (ingestionQueue : list job)
  (ingestionData : IngestionRequest) (fileName : option string) (hasFile : bool)
  : response * list job :=
  match missing_field ingestionData with
  | Some field => (rejected (field ++ " is required")%string, ingestionQueue)
  | None =>
      if isBinding ingestionData && negb (truthy (section ingestionData))
         && includes bindingTypes
              (or_default (documentType ingestionData) EmptyString)
      then (rejected "Section is required for binding documents", ingestionQueue)
      else
        let jobId := ("ING-" ++ Date_now env ++ "-" ++ random_suffix env)%string in
        let path := storage_path ingestionData in
        let new_job :=
          {| id := jobId; status := pending; data := ingestionData;
             createdAt := toISOString env; completedAt := None;
             storagePath := path; fileName := fileName; hasFile := hasFile |} in
        (queued jobId path, ingestionQueue ++ [new_job])
  end.

(** [POST]: the response and the queue as the handler leaves it. *)
Definition POST (env : environment) (ingestionQueue : list job) (req : request)
  : response * list job :=
  match content_type req with
  | Some contentType =>
      if contains "multipart/form-data" contentType then
        match formData_get (formData req) "metadata" with
        | Some (IngestionForm.text_entry metadata) =>
            if String.eqb metadata EmptyString
            then (rejected "Metadata is required", ingestionQueue)
            else
              match JSON_parse env metadata with
              | Some ingestionData =>
                  match formData_get (formData req) "file" with
                  | Some (IngestionForm.file_entry name) =>
                      enqueue env ingestionQueue ingestionData (Some name) true
                  | Some (IngestionForm.text_entry s) =>
                      (* a string has no [arrayBuffer] *)
                      if String.eqb s EmptyString
                      then enqueue env ingestionQueue ingestionData None false
                      else (failed_to_process, ingestionQueue)
                  | None => enqueue env ingestionQueue ingestionData None false
                  end
              | None => (failed_to_process, ingestionQueue)
              end
        | Some (IngestionForm.file_entry _) =>
            (* [JSON.parse] of a file throws *)
            (failed_to_process, ingestionQueue)
        | None => (rejected "Metadata is required", ingestionQueue)
        end
      else
        match json req with
        | Some ingestionData => enqueue env ingestionQueue ingestionData None false
        | None => (failed_to_process, ingestionQueue)
        end
  | None =>
      match json req with
      | Some ingestionData => enqueue env ingestionQueue ingestionData None false
      | None => (failed_to_process, ingestionQueue)
      end
  end.

(** The timer that [POST] sets: after three seconds the first job with
    the id is marked as completed. *)
Fixpoint complete_job (ingestionQueue : list job) (jobId : string) (now : string)
  : list job :=
  match ingestionQueue with
  | [] => []
  | j :: rest =>
      if String.eqb (id j) jobId
      then {| id := id j; status := completed; data := data j;
              createdAt := createdAt j; completedAt := Some now;
              storagePath := storagePath j; fileName := fileName j;
              hasFile := hasFile j |} :: rest
      else j :: complete_job rest jobId now
  end.

Inductive get_response :=
| one_job (j : job)                    (* status 200 *)
| job_not_found                        (* status 404 *)
| all_jobs (jobs : list job) (total : nat).

Definition GET (ingestionQueue : list job) (jobId_param : option string)
  : get_response :=
  if truthy jobId_param then
    match find (fun j => String.eqb (id j) (or_default jobId_param EmptyString))
            ingestionQueue with
    | Some j => one_job j
    | None => job_not_found
    end
  else all_jobs ingestionQueue (List.length ingestionQueue).

(** The request that [fetch(url, { method: 'POST', body: formData })]
    sends: the browser sets the content type with a boundary of its
    choice. *)
Definition multipart_request (boundary : string)
  (entries : list (string * IngestionForm.form_entry)) : request :=
  {| content_type := Some ("multipart/form-data; boundary=" ++ boundary)%string;
     formData := entries;
     json := None |}.

End IngestRoute.

(** Example data for the route: the surroundings of one call, and two
    requests for binding documents, a circular on section 17 and a
    regulation without a section. *)
Definition example_environment : IngestRoute.environment :=
  {| IngestRoute.Date_now := "1769942400000";
     IngestRoute.random_suffix := "k3j9x0a1b";
     IngestRoute.toISOString := "2026-02-01T10:40:00.000Z";
     IngestRoute.JSON_parse := fun _ => None |}.

Definition circular_request : IngestRoute.IngestionRequest :=
  {| IngestRoute.documentType := Some "circular";
     IngestRoute.isBinding := true;
     IngestRoute.section := Some "17";
     IngestRoute.inputType := Some "text";
     IngestRoute.textContent := Some "General Circular on service of documents";
     IngestRoute.title := None;
     IngestRoute.dateIssued := Some "2026-02-01";
     IngestRoute.effectiveDateFrom := None;
     IngestRoute.effectiveDateTo := None;
     IngestRoute.complianceArea := Some "Annual Filings";
     IngestRoute.documentLanguage := Some "English";
     IngestRoute.notificationNumber := None;
     IngestRoute.issuedBy := None |}.

Definition regulation_request : IngestRoute.IngestionRequest :=
  {| IngestRoute.documentType := Some "regulation";
     IngestRoute.isBinding := true;
     IngestRoute.section := None;
     IngestRoute.inputType := Some "text";
     IngestRoute.textContent := Some "Listing obligations and disclosure requirements";
     IngestRoute.title := None;
     IngestRoute.dateIssued := Some "2026-02-01";
     IngestRoute.effectiveDateFrom := None;
     IngestRoute.effectiveDateTo := None;
     IngestRoute.complianceArea := Some "Corporate Governance";
     IngestRoute.documentLanguage := Some "English";
     IngestRoute.notificationNumber := None;
     IngestRoute.issuedBy := None |}.

(** ** The result list of the user page ([SectionResults], [UserPage]) *)

Module SectionResults.

(** An optional number of a JSON body. *)
Inductive optional_number :=
| js_undefined
| js_null
| js_num (q : Q).

Record chunk := {
  chunk_id : string;
  section : option string;
  document_type : string;
  text : string;
  title : option string;
  compliance_area : option string;
  priority : optional_number;
  authority_level : option string;
  citation : option string;
  similarity_score : optional_number
}.

(** [a !== b] *)
Definition strict_neq (a b : optional_number) : bool :=
  match a, b with
  | js_undefined, js_undefined => false
  | js_null, js_null => false
  | js_num x, js_num y => negb (Qeq_bool x y)
  | _, _ => true
  end.

(** [v || fallback]: zero is falsy. *)
Definition number_or (v : optional_number) (fallback : Q) : Q :=
  match v with
  | js_num q => if Qeq_bool q 0 then fallback else q
  | _ => fallback
  end.

(** The comparator handed to [sort]. *)
Definition compare_chunks (a b : chunk) : Q :=
  if strict_neq (priority a) (priority b)
  then (number_or (priority a) 999 - number_or (priority b) 999)%Q
  else (number_or (similarity_score b) 0 - number_or (similarity_score a) 0)%Q.

(** [[...chunks].sort(compare)]: the sort is stable, and for a comparator
    that orders the chunks consistently its result is the one of a stable
    insertion sort. *)
Definition sortedChunks (chunks : list chunk) : list chunk :=
  order_by (fun a b => Qle_bool (compare_chunks a b) 0) chunks.

(** The own properties of the accumulator, in the order they were
    created. *)
Definition groups := list (string * list chunk).

(** [if (!acc[section]) acc[section] = []; acc[section].push(chunk)] for
    a key that [acc] does not inherit. *)
Fixpoint push_chunk (acc : groups) (key : string) (c : chunk) : groups :=
  match acc with
  | [] => [(key, [c])]
  | (k, cs) :: rest =>
      if String.eqb k key then (k, cs ++ [c]) :: rest
      else (k, cs) :: push_chunk rest key c
  end.

(** [chunk.section || 'Unknown'] *)
Definition section_key (c : chunk) : string :=
  or_default (section c) "Unknown".

(** One step of the [reduce]; [None] when it throws: for an inherited
    key [acc[section]] is truthy and has no [push]. *)
Definition group_step (acc : option groups) (c : chunk) : option groups :=
  match acc with
  | Some acc =>
      if includes Object_prototype_properties (section_key c) then None
      else Some (push_chunk acc (section_key c) c)
  | None => None
  end.

Definition groupedSections (sections : list chunk) : option groups :=
  fold_left group_step sections (Some []).

(** An array index: the canonical decimal form of an integer below
    2^32 - 1. *)
Definition is_array_index (key : string) : bool :=
  forallb_chars is_digit key
  && match key with
     | String c rest =>
         negb (Ascii.eqb c "0"%char) || String.eqb rest EmptyString
     | EmptyString => false
     end
  && match parse_digits 10 key None with
     | Some n => (n <? 4294967295)%Z
     | None => false
     end.

Definition index_le (a b : string * list chunk) : bool :=
  match parse_digits 10 (fst a) None, parse_digits 10 (fst b) None with
  | Some x, Some y => (x <=? y)%Z
  | _, _ => true
  end.

(** [Object.entries(o)]: the array indices in ascending order, then the
    other keys in the order they were created. *)
Definition Object_entries (o : groups) : groups :=
  order_by index_le (filter (fun entry => is_array_index (fst entry)) o)
  ++ filter (fun entry => negb (is_array_index (fst entry))) o.

(** [(chunk.priority || 999) <= 2] *)
Definition isHighPriority (c : chunk) : bool :=
  Qle_bool (number_or (priority c) 999) 2.

(** One rendered group: the section number of the header, the title the
    header shows, and the chunks in the order they are shown. *)
Record rendered_group := {
  sectionNumber : string;
  header_title : option string;
  shown : list chunk
}.

(** [sortedChunks[0]?.title && ...]: the title of the first chunk, when
    it is not empty. *)
Definition first_title (sorted : list chunk) : option string :=
  match sorted with
  | c :: _ => if truthy (title c) then title c else None
  | [] => None
  end.

Definition render_group (entry : string * list chunk) : rendered_group :=
  let sorted := sortedChunks (snd entry) in
  {| sectionNumber := fst entry;
     header_title := first_title sorted;
     shown := sorted |}.

(** The component: the groups in the order they are rendered, or [None]
    when rendering throws. *)
Definition render (sections : list chunk) : option (list rendered_group) :=
  option_map (fun o => map render_group (Object_entries o))
    (groupedSections sections).

End SectionResults.

(** The keys of a list in the order in which they first occur: the first
    key, then the first occurrences of the other keys in the rest. *)
Fixpoint first_occurrences (keys : list string) : list string :=
  match keys with
  | [] => []
  | k :: rest =>
      k :: filter (fun k' => negb (String.eqb k k')) (first_occurrences rest)
  end.

Module UserPage.

(** The test that decides between the heading with the result list and
    the notice that nothing was found. *)
Definition shows_sources {A : Type}
  (retrieved_sections retrieved_chunks : option (list A)) : bool :=
  match retrieved_sections with
  | Some l => Nat.ltb 0 (List.length l)
  | None => false
  end
  || match retrieved_chunks with
     | Some l => Nat.ltb 0 (List.length l)
     | None => false
     end.

(** [result.retrieved_sections || result.retrieved_chunks || []]: an
    array is truthy, also when it is empty. *)
Definition sections_shown {A : Type}
  (retrieved_sections retrieved_chunks : option (list A)) : list A :=
  match retrieved_sections with
  | Some l => l
  | None =>
      match retrieved_chunks with
      | Some l => l
      | None => []
      end
  end.

End UserPage.

(** Example data for the result list: a chunk of a response, by its id,
    section, priority and similarity score. *)
Definition result_chunk (id : string) (sec : option string)
  (p s : SectionResults.optional_number) : SectionResults.chunk :=
  {| SectionResults.chunk_id := id;
     SectionResults.section := sec;
     SectionResults.document_type := "act";
     SectionResults.text := "A document may be served on a company...";
     SectionResults.title := Some "Service of documents";
     SectionResults.compliance_area := None;
     SectionResults.priority := p;
     SectionResults.authority_level := Some "statutory";
     SectionResults.citation := None;
     SectionResults.similarity_score := s |}.

(** ** The settings route ([/api/admin/settings]) *)

Module SettingsRoute.

(** A JSON value. *)
#[local] Unset Elimination Schemes.
Inductive json :=
| JNull
| JBool (b : bool)
| JNum (q : Q)
| JStr (s : string)
| JArr (items : list json)
| JObj (entries : list (string * json)).
#[local] Set Elimination Schemes.

(** An object: its own properties, each key once. *)
Definition object := list (string * json).

Definition js_truthy (v : json) : bool :=
  match v with
  | JNull => false
  | JBool b => b
  | JNum q => negb (Qeq_bool q 0)
  | JStr s => negb (String.eqb s EmptyString)
  | JArr _ => true
  | JObj _ => true
  end.

(** [o[key]] for an own property. *)
Definition get_own (o : object) (key : string) : option json :=
  option_map snd (find (fun entry => String.eqb (fst entry) key) o).

(** [o[key] = v]: an own property keeps its place, a new one is added
    at the end. *)
Fixpoint set_own (o : object) (key : string) (v : json) : object :=
  match o with
  | [] => [(key, v)]
  | (k, w) :: rest =>
      if String.eqb k key then (k, v) :: rest else (k, w) :: set_own rest key v
  end.

(** The own enumerable properties that [...v] copies: those of an
    object, the elements of an array and the characters of a string
    under their positions, and nothing of a number or a boolean. *)
Definition spread (v : json) : object :=
  match v with
  | JObj entries => entries
  | JArr items =>
      map (fun p => (String_of_nat (fst p), snd p))
        (combine (seq 0 (List.length items)) items)
  | JStr s =>
      map (fun p => (String_of_nat (fst p), JStr (String (snd p) EmptyString)))
        (combine (seq 0 (length s)) (list_ascii_of_string s))
  | _ => []
  end.

(** [{ ...a, ...b }] *)
Definition assign (a b : object) : object :=
  fold_left (fun acc entry => set_own acc (fst entry) (snd entry)) b a.

(** The settings: the six sections the module starts with, each an
    object, and the own properties that a [PATCH] has since put over
    inherited ones. *)
Record settings_store := {
  general : object;
  database : object;
  api : object;
  notifications : object;
  security : object;
  appearance : object;
  shadowing : list (string * object)
}.

Definition mask : string := "••••••••••••••••".

Definition settings : settings_store :=
  {| general :=
       [ ("systemName", JStr "Pragya - Company Law CompanyGPT");
         ("defaultLanguage", JStr "English");
         ("autoEmbedding", JBool true);
         ("maintenanceMode", JBool false) ];
     database :=
       [ ("host", JStr "localhost");
         ("port", JNum 5432);
         ("name", JStr "pragya_governance");
         ("status", JStr "connected") ];
     api :=
       [ ("openaiKey", JStr "sk-••••••••••••••••••••••••••••••••");
         ("cohereKey", JStr "••••••••••••••••••••••••••••••••");
         ("apiLogging", JBool true) ];
     notifications :=
       [ ("emailEnabled", JBool true);
         ("emailRecipients", JArr [JStr "admin@pragya.in"]);
         ("slackEnabled", JBool false);
         ("slackWebhook", JStr EmptyString) ];
     security :=
       [ ("twoFactorEnabled", JBool false);
         ("sessionTimeout", JNum 3600);
         ("maxLoginAttempts", JNum 5) ];
     appearance :=
       [ ("darkMode", JBool false);
         ("compactMode", JBool false) ];
     shadowing := [] |}.

(** What [settings[section]] reads. *)
Inductive property :=
| own (o : object)
| inherited
| missing.

Definition get_section (s : settings_store) (section : string) : property :=
  if String.eqb section "general" then own (general s)
  else if String.eqb section "database" then own (database s)
  else if String.eqb section "api" then own (api s)
  else if String.eqb section "notifications" then own (notifications s)
  else if String.eqb section "security" then own (security s)
  else if String.eqb section "appearance" then own (appearance s)
  else
    match find (fun entry => String.eqb (fst entry) section) (shadowing s) with
    | Some entry => own (snd entry)
    | None =>
        if includes Object_prototype_properties section then inherited
        else missing
    end.

(** [{ ...settings, [section]: o }] *)
Definition set_section (s : settings_store) (section : string) (o : object)
  : settings_store :=
  let with_shadowing sh :=
    {| general := general s; database := database s; api := api s;
       notifications := notifications s; security := security s;
       appearance := appearance s; shadowing := sh |} in
  if String.eqb section "general" then
    {| general := o; database := database s; api := api s;
       notifications := notifications s; security := security s;
       appearance := appearance s; shadowing := shadowing s |}
  else if String.eqb section "database" then
    {| general := general s; database := o; api := api s;
       notifications := notifications s; security := security s;
       appearance := appearance s; shadowing := shadowing s |}
  else if String.eqb section "api" then
    {| general := general s; database := database s; api := o;
       notifications := notifications s; security := security s;
       appearance := appearance s; shadowing := shadowing s |}
  else if String.eqb section "notifications" then
    {| general := general s; database := database s; api := api s;
       notifications := o; security := security s;
       appearance := appearance s; shadowing := shadowing s |}
  else if String.eqb section "security" then
    {| general := general s; database := database s; api := api s;
       notifications := notifications s; security := o;
       appearance := appearance s; shadowing := shadowing s |}
  else if String.eqb section "appearance" then
    {| general := general s; database := database s; api := api s;
       notifications := notifications s; security := security s;
       appearance := o; shadowing := shadowing s |}
  else
    with_shadowing
      ((fix put (sh : list (string * object)) : list (string * object) :=
          match sh with
          | [] => [(section, o)]
          | (k, w) :: rest =>
              if String.eqb k section then (k, o) :: rest
              else (k, w) :: put rest
          end) (shadowing s)).

(** [key ? mask : ''] *)
Definition masked_key (key : option json) : json :=
  match key with
  | Some v => if js_truthy v then JStr mask else JStr EmptyString
  | None => JStr EmptyString
  end.

(** The settings with the two keys of the section [api] replaced. *)
Definition maskedSettings (s : settings_store) : settings_store :=
  {| general := general s; database := database s;
     api :=
       set_own
         (set_own (api s) "openaiKey" (masked_key (get_own (api s) "openaiKey")))
         "cohereKey" (masked_key (get_own (api s) "cohereKey"));
     notifications := notifications s; security := security s;
     appearance := appearance s; shadowing := shadowing s |}.

Inductive get_response :=
| section_data (data : property)
| all_settings (data : settings_store).

Definition GET (s : settings_store) (section_param : option string)
  : get_response :=
  match section_param with
  | Some section =>
      if String.eqb section EmptyString then all_settings (maskedSettings s)
      else
        match get_section s section with
        | missing => all_settings (maskedSettings s)
        | value => section_data value
        end
  | None => all_settings (maskedSettings s)
  end.

Inductive patch_response :=
| updated (data : object)               (* status 200 *)
| bad_request (error : string).         (* status 400 *)

(** [PATCH] with the body [{ section, updates }]: the response and the
    settings as the handler leaves them. *)
Definition PATCH (s : settings_store) (section_field : option string)
  (updates_field : option json) : patch_response * settings_store :=
  match section_field, updates_field with
  | Some section, Some updates =>
      if String.eqb section EmptyString || negb (js_truthy updates)
      then (bad_request "Section and updates are required", s)
      else
        match get_section s section with
        | missing => (bad_request "Invalid section", s)
        | own o =>
            let o' := assign o (spread updates) in
            (updated o', set_section s section o')
        | inherited =>
            let o' := assign [] (spread updates) in
            (updated o', set_section s section o')
        end
  | _, _ => (bad_request "Section and updates are required", s)
  end.

End SettingsRoute.

(* ================================================================== *)
(** * Part II. Theorems *)
(* ================================================================== *)

(** ** Text *)

Lemma append_empty_r (s : string) : (s ++ "")%string = s.
Proof. induction s; simpl; congruence. Qed.

Lemma length_append (a b : string) :
  length (a ++ b) = length a + length b.
Proof. induction a; simpl; congruence. Qed.

Lemma length_take (n : nat) (s : string) :
  length (take n s) = Nat.min n (length s).
Proof.
  revert s; induction n as [| n IH]; intros [| c s]; simpl; auto.
Qed.

Lemma take_drop (n : nat) (s : string) : (take n s ++ drop n s)%string = s.
Proof.
  revert s; induction n as [| n IH]; intros [| c s]; simpl; auto.
  now rewrite IH.
Qed.

Lemma take_append (a b : string) : take (length a) (a ++ b) = a.
Proof. induction a; simpl; [destruct b|]; congruence. Qed.

Lemma take_append_le (n : nat) (a b : string) :
  length a <= n -> exists rest, take n (a ++ b) = (a ++ rest)%string.
Proof.
  revert n; induction a as [| c a IH]; intros n H; simpl in *.
  - now exists (take n b).
  - destruct n as [| n]; [lia|]. destruct (IH n) as [rest Hr]; [lia|].
    exists rest. simpl. now rewrite Hr.
Qed.

Lemma take_append_ge (n : nat) (a b : string) :
  n <= length a -> take n (a ++ b) = take n a.
Proof.
  revert n; induction a as [| c a IH]; intros n H; simpl in *.
  - replace n with 0 by lia. now destruct b.
  - destruct n as [| n]; simpl; [reflexivity|]. f_equal. apply IH. lia.
Qed.

Lemma drop_append (a b : string) : drop (length a) (a ++ b) = b.
Proof. induction a; simpl; [destruct b|]; congruence. Qed.

Lemma prefix_append (t s : string) :
  prefix t s = true <-> exists rest, s = (t ++ rest)%string.
Proof.
  revert s; induction t as [| c t IH]; intros s; simpl.
  - destruct s; split; eauto.
  - destruct s as [| d s]; simpl.
    + split; [discriminate | intros [rest H]; discriminate].
    + destruct (ascii_dec c d) as [-> | Hne].
      * rewrite IH. split; intros [rest H]; exists rest; congruence.
      * split; [discriminate | intros [rest H]; congruence].
Qed.

Lemma length_replicate (n : nat) (c : ascii) : length (replicate n c) = n.
Proof. induction n; simpl; congruence. Qed.

(** [zfill] never shortens: the result has the width asked for, or the
    length of the text when that is larger. *)
Lemma length_zfill (width : nat) (s : string) :
  length (zfill width s) = Nat.max width (length s).
Proof.
  unfold zfill. destruct s as [| c s]; simpl.
  - rewrite length_replicate. lia.
  - destruct (_ || _)%bool; simpl; rewrite length_append, length_replicate; simpl; lia.
Qed.

Lemma zfill_digits (width : nat) (s : string) :
  forallb_chars is_digit s = true ->
  zfill width s = (replicate (width - length s) "0"%char ++ s)%string.
Proof.
  unfold zfill. destruct s as [| c s]; simpl.
  - intros _. now rewrite append_empty_r.
  - intros H. apply andb_true_iff in H as [Hc _].
    destruct (Ascii.eqb_spec c "+"%char) as [-> | _]; [discriminate|].
    destruct (Ascii.eqb_spec c "-"%char) as [-> | _]; [discriminate|].
    reflexivity.
Qed.

(** ** The identity invariant *)

Lemma parent_child_consistency_iff r :
  parent_child_consistency r = true <->
  ((chunk_role r = parent <-> parent_chunk_id r = None) /\
   (chunk_role r = child <-> parent_chunk_id r <> None)).
Proof.
  unfold parent_child_consistency.
  destruct (chunk_role r), (parent_chunk_id r); simpl; split;
    try (intros _; repeat split; congruence);
    try discriminate;
    intros [[H1 H2] [H3 H4]]; try reflexivity; exfalso.
  - specialize (H1 eq_refl). discriminate.
  - exact (H3 eq_refl eq_refl).
Qed.

Lemma apply_write_preserves t op t' :
  identity_invariant t -> apply_write t op = inr t' -> identity_invariant t'.
Proof.
  unfold identity_invariant. intros Hinv.
  destruct op as [r | id r | id]; simpl.
  - destruct (parent_child_consistency r) eqn:Hc; simpl; [|discriminate].
    destruct (has_chunk t (chunk_id r)); [discriminate|].
    destruct (references_ok (t ++ [r]) r); simpl; [|discriminate].
    intros [= <-]. apply Forall_app. split; auto.
  - destruct (has_chunk t id); simpl; [|intros [= <-]; exact Hinv].
    destruct (parent_child_consistency r) eqn:Hc; simpl; [|discriminate].
    destruct (has_chunk (remove_chunk t id) (chunk_id r)); [discriminate|].
    destruct (forallb _ _); simpl; [|discriminate].
    intros [= <-]. unfold replace_chunk.
    apply Forall_map. eapply Forall_impl; [|exact Hinv].
    intros a Ha. simpl. destruct (chunk_id a =? id); assumption.
  - destruct (forallb _ _); simpl; [|discriminate].
    intros [= <-]. unfold remove_chunk.
    rewrite Forall_forall in *. intros x Hx. apply filter_In in Hx.
    apply Hinv, Hx.
Qed.

(** C9. Every row of a [chunks_identity] table produced by any sequence of
    INSERT, UPDATE and DELETE statements has role parent exactly when its
    [parent_chunk_id] is null and role child exactly when it is not null:
    the invariant holds of the empty table and every write that succeeds
    preserves it. *)
Theorem identity_invariant_reachable :
  forall t, reachable t ->
    forall r, In r t ->
      (chunk_role r = parent <-> parent_chunk_id r = None) /\
      (chunk_role r = child <-> parent_chunk_id r <> None).
Proof.
  intros t Hr.
  assert (Hinv : identity_invariant t).
  { induction Hr as [| t op t' _ IH Hw].
    - constructor.
    - eapply apply_write_preserves; eauto. }
  intros r Hin. apply parent_child_consistency_iff.
  unfold identity_invariant in Hinv. rewrite Forall_forall in Hinv. auto.
Qed.



Lemma identity_invariant_reachable_witness :
  (chunk_role act_s017_child = parent <-> parent_chunk_id act_s017_child = None)
  /\ (chunk_role act_s017_child = child
      <-> parent_chunk_id act_s017_child <> None).
Proof.
  apply (identity_invariant_reachable [act_s017_parent; act_s017_child]).
  - apply (reachable_write [act_s017_parent] (Insert act_s017_child));
      [| reflexivity].
    apply (reachable_write [] (Insert act_s017_parent)); [| reflexivity].
    apply reachable_empty.
  - right. left. reflexivity.
Defined.

(** ** The matcher finds matches *)

Lemma star_loop_sound r body k :
  (forall s caps k' res, body s caps k' = Some res ->
     exists s' caps', matches r s caps s' caps' /\ k' s' caps' = Some res) ->
  forall fuel s caps res,
    star_loop body k fuel s caps = Some res ->
    exists s' caps', matches (Star r) s caps s' caps' /\ k s' caps' = Some res.
Proof.
  intros Hbody. induction fuel as [| fuel IH]; intros s caps res; simpl.
  - intros H. exists s, caps. split; [apply matches_star_nil | exact H].
  - destruct (body s caps _) as [res0 |] eqn:Hb.
    + intros [= <-]. apply Hbody in Hb as (s1 & caps1 & Hm & Hk).
      destruct (Nat.ltb _ _); [| discriminate].
      apply IH in Hk as (s2 & caps2 & Hstar & Hk).
      exists s2, caps2. split; [eapply matches_star_cons; eassumption | exact Hk].
    + intros H. exists s, caps. split; [apply matches_star_nil | exact H].
Qed.

Lemma match_here_sound r :
  forall s caps k res,
    match_here r s caps k = Some res ->
    exists s' caps', matches r s caps s' caps' /\ k s' caps' = Some res.
Proof.
  induction r as [t | c | set | r1 IH1 r2 IH2 | r1 IH1 r2 IH2 | r IH | r IH
                 | n r IH | n]; intros s caps k res; simpl.
  - destruct (prefix t s) eqn:Hp; [| discriminate].
    apply prefix_append in Hp as [rest ->]. rewrite drop_append.
    intros H. exists rest, caps. split; [constructor | exact H].
  - destruct s as [| a s]; [discriminate|].
    destruct (in_class c a) eqn:Hc; [| discriminate].
    intros H. exists s, caps. split; [now constructor | exact H].
  - destruct s as [| a s]; [discriminate|].
    destruct (mem_char a set) eqn:Hc; [| discriminate].
    intros H. exists s, caps. split; [now constructor | exact H].
  - intros H. apply IH1 in H as (s1 & caps1 & Hm1 & H).
    apply IH2 in H as (s2 & caps2 & Hm2 & H).
    exists s2, caps2. split; [econstructor; eassumption | exact H].
  - destruct (match_here r1 s caps k) as [res1 |] eqn:H1.
    + intros [= <-]. apply IH1 in H1 as (s' & caps' & Hm & H).
      exists s', caps'. split; [now apply matches_alt_l | exact H].
    + intros H. apply IH2 in H as (s' & caps' & Hm & H).
      exists s', caps'. split; [now apply matches_alt_r | exact H].
  - destruct (match_here r s caps k) as [res1 |] eqn:H1.
    + intros [= <-]. apply IH in H1 as (s' & caps' & Hm & H).
      exists s', caps'. split; [now apply matches_opt_some | exact H].
    + intros H. exists s, caps. split; [apply matches_opt_none | exact H].
  - apply star_loop_sound. intros s0 caps0 k' res0. apply IH.
  - intros H. apply IH in H as (s' & caps' & Hm & H).
    eexists _, _. split; [constructor; eassumption | exact H].
  - destruct (lookup_group n caps) as [t |] eqn:Hl; [| discriminate].
    destruct (prefix t s) eqn:Hp; [| discriminate].
    apply prefix_append in Hp as [rest ->]. rewrite drop_append.
    intros H. exists rest, caps. split; [now constructor | exact H].
Qed.

(** The matcher depends on its continuation only through the values the
    continuation takes. *)
Lemma star_loop_ext body k1 k2 :
  (forall s caps ka kb, (forall s' caps', ka s' caps' = kb s' caps') ->
     body s caps ka = body s caps kb) ->
  (forall s caps, k1 s caps = k2 s caps) ->
  forall fuel s caps, star_loop body k1 fuel s caps = star_loop body k2 fuel s caps.
Proof.
  intros Hbody Hk. induction fuel as [| fuel IH]; intros s caps; simpl.
  - apply Hk.
  - rewrite Hk.
    rewrite (Hbody s caps _
               (fun s' caps' =>
                  if Nat.ltb (length s') (length s)
                  then star_loop body k2 fuel s' caps' else None)).
    + reflexivity.
    + intros s' caps'. now rewrite IH.
Qed.

Lemma match_here_ext r :
  forall s caps k1 k2,
    (forall s' caps', k1 s' caps' = k2 s' caps') ->
    match_here r s caps k1 = match_here r s caps k2.
Proof.
  induction r as [t | c | set | r1 IH1 r2 IH2 | r1 IH1 r2 IH2 | r IH | r IH
                 | n r IH | n]; intros s caps k1 k2 Hk; simpl.
  - now rewrite Hk.
  - destruct s; [reflexivity|]. now rewrite Hk.
  - destruct s; [reflexivity|]. now rewrite Hk.
  - apply IH1. intros s' caps'. now apply IH2.
  - now rewrite (IH1 s caps k1 k2 Hk), (IH2 s caps k1 k2 Hk).
  - now rewrite (IH s caps k1 k2 Hk), Hk.
  - apply star_loop_ext; [| exact Hk]. intros s0 caps0 ka kb. apply IH.
  - apply IH. intros s' caps'. apply Hk.
  - destruct (lookup_group n caps); [| reflexivity]. now rewrite Hk.
Qed.

Lemma match_here_no_continuation r :
  forall s caps, match_here r s caps (fun _ _ => None) = None.
Proof.
  induction r as [t | c | set | r1 IH1 r2 IH2 | r1 IH1 r2 IH2 | r IH | r IH
                 | n r IH | n]; intros s caps; simpl.
  - now destruct (prefix t s).
  - destruct s; [reflexivity|]. now destruct (in_class c a).
  - destruct s; [reflexivity|]. now destruct (mem_char a set).
  - rewrite (match_here_ext r1 s caps _ (fun _ _ => None)); [apply IH1|].
    intros s' caps'. apply IH2.
  - now rewrite IH1, IH2.
  - now rewrite IH.
  - generalize (length s) at 1. intros fuel. revert s caps.
    induction fuel as [| fuel IHf]; intros s caps; simpl; [reflexivity|].
    rewrite (match_here_ext r s caps _ (fun _ _ => None)); [now rewrite IH|].
    intros s' caps'. rewrite IHf. now destruct (Nat.ltb _ _).
  - apply IH.
  - destruct (lookup_group n caps); [| reflexivity]. now destruct (prefix _ _).
Qed.

Lemma star_loop_step body k fuel s caps :
  star_loop body k (S fuel) s caps
  = match body s caps
            (fun s' caps' =>
               if Nat.ltb (length s') (length s)
               then star_loop body k fuel s' caps' else None) with
    | Some res => Some res
    | None => k s caps
    end.
Proof. reflexivity. Qed.

(** The bound on the iterations of [r*] is never what stops the loop: with
    more fuel than the length of the input the result is the same. *)
Lemma star_loop_enough_fuel r k :
  forall fuel s caps,
    length s <= fuel ->
    star_loop (match_here r) k (S fuel) s caps
    = star_loop (match_here r) k fuel s caps.
Proof.
  induction fuel as [| fuel IH]; intros s caps Hlen.
  - destruct s; [| simpl in Hlen; lia].
    rewrite star_loop_step.
    rewrite (match_here_ext r "" caps _ (fun _ _ => None)).
    + now rewrite match_here_no_continuation.
    + intros s' caps'. now destruct (Nat.ltb_spec (length s') (length "")).
  - rewrite (star_loop_step _ _ (S fuel)), (star_loop_step _ _ fuel).
    rewrite (match_here_ext r s caps
               (fun s' caps' =>
                  if Nat.ltb (length s') (length s)
                  then star_loop (match_here r) k (S fuel) s' caps' else None)
               (fun s' caps' =>
                  if Nat.ltb (length s') (length s)
                  then star_loop (match_here r) k fuel s' caps' else None)).
    + reflexivity.
    + intros s' caps'.
      destruct (Nat.ltb_spec (length s') (length s)); [| reflexivity].
      apply IH. lia.
Qed.

Lemma search_sound r s caps :
  search r s = Some caps ->
  exists before s0 s', s = (before ++ s0)%string /\ matches r s0 [] s' caps.
Proof.
  induction s as [| a s IH]; simpl.
  - destruct (match_here r "" [] _) eqn:H; [| discriminate].
    intros [= <-]. apply match_here_sound in H as (s' & caps' & Hm & [= <-]).
    exists "", "", s'. now split.
  - destruct (match_here r (String a s) [] _) eqn:H.
    + intros [= <-]. apply match_here_sound in H as (s' & caps' & Hm & [= <-]).
      exists "", (String a s), s'. now split.
    + intros H'. apply IH in H' as (before & s0 & s' & -> & Hm).
      exists (String a before), s0, s'. now split.
Qed.

(** A run of characters of one class captures nothing and consumes only
    characters of that class. *)
Lemma matches_star_class c s caps s' caps' :
  matches (Star (Class c)) s caps s' caps' ->
  caps' = caps /\
  exists w, s = (w ++ s')%string /\ forallb_chars (in_class c) w = true.
Proof.
  intros H. remember (Star (Class c)) as r eqn:Hr.
  induction H; try discriminate.
  - split; [reflexivity | now exists ""].
  - injection Hr as ->. specialize (IHmatches2 eq_refl).
    destruct IHmatches2 as [-> (w & -> & Hw)].
    inversion H; subst. split; [reflexivity|].
    exists (String a w). split; [reflexivity|]. simpl.
    match goal with Hc : in_class _ _ = true |- _ => now rewrite Hc end.
Qed.

Lemma matches_plus_class c s caps s' caps' :
  matches (Plus (Class c)) s caps s' caps' ->
  caps' = caps /\
  exists w, s = (w ++ s')%string /\ w <> "" /\
            forallb_chars (in_class c) w = true.
Proof.
  unfold Plus. intros H. inversion H; subst.
  match goal with Hc : matches (Class _) _ _ _ _ |- _ => inversion Hc; subst end.
  match goal with Hs : matches (Star _) _ _ _ _ |- _ =>
    apply matches_star_class in Hs as [-> (w & -> & Hw)] end.
  split; [reflexivity|]. exists (String a w). repeat split; try discriminate.
  simpl.
  match goal with Hc : in_class _ _ = true |- _ => now rewrite Hc end.
Qed.


(** ** The classifier *)


(** The first pattern that matches gives the term. *)
Lemma first_match_spec patterns s term :
  first_match patterns s = Some term <->
  exists earlier p later,
    patterns = earlier ++ p :: later /\
    Forall (fun p' => search_group p' 2 s = None) earlier /\
    search_group p 2 s = Some term.
Proof.
  induction patterns as [| p0 rest IH]; simpl.
  - split; [discriminate|]. intros (earlier & p & later & H & _).
    destruct earlier; discriminate.
  - destruct (search_group p0 2 s) as [t0 |] eqn:H0.
    + split.
      * intros [= <-]. exists [], p0, rest. repeat split; auto.
      * intros (earlier & p & later & Heq & Hnone & Hp).
        destruct earlier as [| e earlier]; simpl in Heq; injection Heq as -> ->.
        -- congruence.
        -- inversion Hnone; congruence.
    + rewrite IH. split.
      * intros (earlier & p & later & -> & Hnone & Hp).
        exists (p0 :: earlier), p, later. repeat split; auto.
      * intros (earlier & p & later & Heq & Hnone & Hp).
        destruct earlier as [| e earlier]; simpl in Heq; injection Heq as -> ->.
        -- congruence.
        -- inversion Hnone; subst. exists earlier, p, later. repeat split; auto.
Qed.


Lemma classify_as_decision_tree query :
  classify query = classify_as definition_before_section term_patterns lower query.
Proof. reflexivity. Qed.

Lemma classify_as_section_first query :
  classify_section_first query
  = classify_as definition_and_not_section term_patterns lower query.
Proof. reflexivity. Qed.






(** With the branch condition [is_definition_query and not section_match]
    a section number wins over the definition keywords. *)
Remark classify_section_first_prefers_section query digits :
  section_match query = Some digits ->
  classify_section_first query = section_query (zfill 3 digits).
Proof. unfold classify_section_first. now intros ->. Qed.

Example classify_both_patterns :
  classify "what is the definition of section 2?" = definition "section 2"
  /\ classify_section_first "what is the definition of section 2?"
     = section_query "002".
Proof. split; reflexivity. Qed.

(** The query that the demonstration script of the repository shows as a
    section query has a keyword and a section number: it is a section
    query under the recorded condition, and under the decision tree it
    takes the definition path, where no pattern matches. *)
Example classify_section_149 :
  classify_as definition_and_not_section term_patterns_governance lower
    "What does Section 149 say about director appointments?"
  = section_query "149"
  /\ classify_as definition_before_section term_patterns_governance lower
       "What does Section 149 say about director appointments?"
     = general "What does Section 149 say about director appointments?".
Proof. split; reflexivity. Qed.

(** ** ORDER BY and LIMIT *)

Lemma In_firstn {A : Type} (n : nat) (l : list A) (x : A) :
  In x (firstn n l) -> In x l.
Proof.
  revert l; induction n as [| n IH]; intros [| y l]; simpl; try tauto.
  intros [H | H]; auto.
Qed.

Section OrderBy.

Context {A : Type} (le : A -> A -> bool).

Lemma insert_sorted_perm x l : Permutation (insert_sorted le x l) (x :: l).
Proof.
  induction l as [| y l IH]; simpl; [reflexivity|].
  destruct (le x y); [reflexivity|].
  rewrite IH. apply perm_swap.
Qed.

Lemma order_by_perm l : Permutation (order_by le l) l.
Proof.
  induction l as [| x l IH]; simpl; [reflexivity|].
  rewrite insert_sorted_perm. now constructor.
Qed.

Lemma order_by_In x l : In x (order_by le l) <-> In x l.
Proof.
  split; apply Permutation_in; [| symmetry]; apply order_by_perm.
Qed.

Hypothesis le_total : forall a b, le a b = false -> le b a = true.

Lemma insert_sorted_hd x y l :
  HdRel (fun a b => le a b = true) y l -> le y x = true ->
  HdRel (fun a b => le a b = true) y (insert_sorted le x l).
Proof.
  intros Hhd Hyx. destruct l as [| z l]; simpl.
  - now constructor.
  - destruct (le x z); constructor; auto. now inversion Hhd.
Qed.

Lemma insert_sorted_sorted x l :
  Sorted (fun a b => le a b = true) l ->
  Sorted (fun a b => le a b = true) (insert_sorted le x l).
Proof.
  induction 1 as [| y l Hs IH Hhd]; simpl.
  - repeat constructor.
  - destruct (le x y) eqn:Hxy.
    + constructor; [now constructor | now constructor].
    + constructor; [exact IH|].
      apply insert_sorted_hd; [exact Hhd | now apply le_total].
Qed.

Lemma order_by_sorted l : Sorted (fun a b => le a b = true) (order_by le l).
Proof.
  induction l as [| x l IH]; simpl; [constructor|].
  now apply insert_sorted_sorted.
Qed.

Lemma StronglySorted_firstn n l :
  StronglySorted (fun a b => le a b = true) l ->
  StronglySorted (fun a b => le a b = true) (firstn n l).
Proof.
  intros H. revert n. induction H as [| x l Hs IH Hall]; intros [| n]; simpl;
    try constructor; auto.
  rewrite Forall_forall in *. intros y Hy. apply Hall.
  eapply In_firstn; exact Hy.
Qed.

End OrderBy.

Lemma StronglySorted_pair {A : Type} (R : A -> A -> Prop) before a between b after :
  StronglySorted R (before ++ a :: between ++ b :: after) -> R a b.
Proof.
  induction before as [| x before IH]; simpl; intros H.
  - apply StronglySorted_inv in H as [_ Hall]. rewrite Forall_forall in Hall.
    apply Hall, in_or_app. right. now left.
  - apply IH. now apply StronglySorted_inv in H.
Qed.


(** ** Direct lookup by section *)

Lemma string_leb_trans a b c :
  String.leb a b = true -> String.leb b c = true -> String.leb a c = true.
Proof.
  unfold String.leb.
  destruct (String.compare a b) eqn:Hab; try discriminate;
    destruct (String.compare b c) eqn:Hbc; try discriminate; intros _ _.
  - apply String.compare_eq_iff in Hab as ->. now rewrite Hbc.
  - apply String.compare_eq_iff in Hab as ->. now rewrite Hbc.
  - apply String.compare_eq_iff in Hbc as <-. now rewrite Hab.
  - apply String_as_OT.cmp_lt in Hab, Hbc.
    pose proof (String_as_OT.lt_trans _ _ _ Hab Hbc) as Hac.
    apply String_as_OT.cmp_lt in Hac. unfold String_as_OT.cmp in Hac.
    now rewrite Hac.
Qed.

Lemma section_order_total a b :
  section_order a b = false -> section_order b a = true.
Proof.
  unfold section_order. intros H.
  apply orb_false_iff in H as [Hlt H]. apply Nat.ltb_ge in Hlt.
  destruct (Nat.eqb_spec (role_rank a) (role_rank b)) as [Heq | Hne]; simpl in H.
  - rewrite Heq, Nat.eqb_refl, Nat.ltb_irrefl. simpl.
    destruct (String.leb_total (chunk_id a) (chunk_id b)); congruence.
  - apply orb_true_iff. left. apply Nat.ltb_lt. lia.
Qed.

Lemma section_order_trans a b c :
  section_order a b = true -> section_order b c = true ->
  section_order a c = true.
Proof.
  unfold section_order. intros Hab Hbc.
  apply orb_true_iff in Hab, Hbc. apply orb_true_iff.
  destruct Hab as [Hab | Hab], Hbc as [Hbc | Hbc];
    rewrite ?Nat.ltb_lt, ?andb_true_iff, ?Nat.eqb_eq in *.
  - left. lia.
  - left. lia.
  - left. lia.
  - right. destruct Hab as [-> Hab], Hbc as [-> Hbc]. split; [reflexivity|].
    eapply string_leb_trans; eassumption.
Qed.

Lemma section_order_parent_first a b :
  section_order a b = true -> chunk_role b = parent -> chunk_role a = parent.
Proof.
  unfold section_order, role_rank.
  destruct (chunk_role a), (chunk_role b); simpl; congruence.
Qed.

Lemma section_rows_sorted db section_num :
  StronglySorted (fun a b => section_order a b = true)
    (section_rows db section_num).
Proof.
  apply Sorted_StronglySorted.
  - intros a b c. apply section_order_trans.
  - apply order_by_sorted, section_order_total.
Qed.

(** What the section lookup does guarantee: the rows are rows of the table
    whose [section] is the key, at most [top_k] of them, those that come
    first when parents are put before children and each group is ordered
    by [chunk_id]. *)
Lemma direct_section_lookup_rows db section_num top_k :
  exists rows,
    direct_section_lookup db section_num top_k = map chunk_id rows
    /\ List.length rows <= top_k
    /\ (forall ci, In ci rows ->
          In ci (chunks_identity db) /\ section ci = Some section_num)
    /\ StronglySorted (fun a b => section_order a b = true) rows
    /\ (forall before a between b after,
          rows = before ++ a :: between ++ b :: after ->
          (chunk_role b = parent -> chunk_role a = parent)
          /\ (chunk_role a = chunk_role b ->
              String.leb (chunk_id a) (chunk_id b) = true)).
Proof.
  exists (firstn top_k (section_rows db section_num)).
  assert (Hsorted : StronglySorted (fun a b => section_order a b = true)
                      (firstn top_k (section_rows db section_num))).
  { apply StronglySorted_firstn, section_rows_sorted. }
  repeat split.
  - apply firstn_le_length.
  - apply In_firstn in H. unfold section_rows in H.
    apply order_by_In, filter_In in H. apply H.
  - apply In_firstn in H. unfold section_rows in H.
    apply order_by_In, filter_In in H as [_ H].
    unfold column_eqb in H. destruct (section ci); [| discriminate].
    apply String.eqb_eq in H. now subst.
  - exact Hsorted.
  - rewrite H in Hsorted. clear H. induction before as [| x before IH]; simpl in *.
    + apply StronglySorted_inv in Hsorted as [_ Hall].
      rewrite Forall_forall in Hall.
      apply (section_order_parent_first a b), Hall, in_or_app. right. now left.
    + apply IH. now apply StronglySorted_inv in Hsorted.
  - rewrite H in Hsorted. clear H. intros Hrole.
    induction before as [| x before IH]; simpl in *.
    + apply StronglySorted_inv in Hsorted as [_ Hall].
      rewrite Forall_forall in Hall.
      assert (Hab : section_order a b = true).
      { apply Hall, in_or_app. right. now left. }
      unfold section_order, role_rank in Hab. rewrite Hrole in Hab.
      rewrite Nat.ltb_irrefl, Nat.eqb_refl in Hab. exact Hab.
    + apply IH. now apply StronglySorted_inv in Hsorted.
Qed.

(** The lookup does not read [chunk_lifecycle]: whatever the table holds,
    the result is the same. *)
Lemma direct_section_lookup_ignores_lifecycle db lifecycle section_num top_k :
  direct_section_lookup
    {| chunks_identity := chunks_identity db;
       chunks_content := chunks_content db;
       chunk_relationships := chunk_relationships db;
       chunk_retrieval_rules := chunk_retrieval_rules db;
       chunk_refusal_policy := chunk_refusal_policy db;
       chunk_lifecycle := lifecycle;
       chunk_embeddings := chunk_embeddings db |} section_num top_k
  = direct_section_lookup db section_num top_k.
Proof. reflexivity. Qed.

(** C4, where the lookup departs from it. The query [section 17] is a
    section query with key 017, and the lookup returns the circular of
    section 017 whose lifecycle status is DRAFT, between the parent and
    the child of the Act. *)
Theorem direct_section_lookup_returns_draft :
  classify "section 17" = section_query "017"
  /\ direct_section_lookup example_db "017" 15
     = ["ca2013_act_s017_p001"; "circular_2014_s017_p001"; "ca2013_act_s017_c01"]
  /\ option_map status (find_lifecycle example_db "circular_2014_s017_p001")
     = Some DRAFT.
Proof. repeat split. Qed.

(** ** Direct lookup of a definition *)

Lemma like_percent s : like "%" s = true.
Proof. induction s as [| c s IH]; simpl; [reflexivity | exact IH]. Qed.

Lemma like_plain_prefix p s :
  forallb_chars plain_char p = true ->
  like (p ++ "%") s = prefix p s.
Proof.
  revert s; induction p as [| c p IH]; intros s Hp.
  - simpl append. rewrite like_percent. now destruct s.
  - simpl in Hp. apply andb_true_iff in Hp as [Hc Hp].
    unfold plain_char in Hc. apply negb_true_iff in Hc.
    apply orb_false_iff in Hc as [Hc Hc3]. apply orb_false_iff in Hc as [Hc1 Hc2].
    simpl. rewrite Hc1, Hc2, Hc3.
    destruct s as [| d s]; [reflexivity|].
    rewrite (IH s Hp).
    destruct (ascii_dec c d) as [-> | Hne].
    + rewrite Ascii.eqb_refl. simpl. destruct (ascii_dec d d); congruence.
    + apply Ascii.eqb_neq in Hne. rewrite Hne. simpl.
      destruct (ascii_dec c d); [| reflexivity]. subst.
      now rewrite Ascii.eqb_refl in Hne.
Qed.

(** Without wildcards in the term, [LIKE '%term%'] is the substring test. *)
Lemma like_contains p s :
  forallb_chars plain_char p = true ->
  like ("%" ++ p ++ "%") s = contains p s.
Proof.
  intros Hp. simpl append. cbn [like]. rewrite Ascii.eqb_refl.
  induction s as [| c s IH].
  - cbn [contains]. rewrite (like_plain_prefix p "" Hp). now rewrite orb_false_r.
  - cbn [contains]. rewrite (like_plain_prefix p _ Hp). now rewrite IH.
Qed.





Lemma definition_row_spec db term ci :
  definition_row db term ci = true ->
  exists cc t,
    section ci = Some "002" /\ document_type ci = act
    /\ find_content db (chunk_id ci) = Some cc /\ text cc = Some t
    /\ like ("%" ++ lower term ++ "%") (lower t) = true
    /\ (forallb_chars plain_char (lower term) = true ->
        contains (lower term) (lower t) = true).
Proof.
  intros Hrow. unfold definition_row in Hrow.
  apply andb_true_iff in Hrow as [Hrow Htext].
  apply andb_true_iff in Hrow as [Hsec Hdt].
  destruct (find_content db (chunk_id ci)) as [cc |] eqn:Hcc; [| discriminate].
  unfold text_matches in Htext.
  destruct (text cc) as [t |] eqn:Ht; [| discriminate].
  exists cc, t. repeat split; auto.
  - unfold column_eqb in Hsec. destruct (section ci); [| discriminate].
    apply String.eqb_eq in Hsec. now subst.
  - unfold document_type_eqb in Hdt.
    now destruct (document_type_eq_dec (document_type ci) act).
  - intros Hplain. now rewrite <- (like_contains _ _ Hplain).
Qed.

(** Both records of the lookup return the ids of five matching rows, or
    of all of them. *)
Lemma definition_lookups_rows db term lookup :
  In lookup definition_lookups ->
  exists rows,
    lookup db term = map chunk_id (firstn 5 rows)
    /\ Permutation rows (filter (definition_row db term) (chunks_identity db)).
Proof.
  intros [<- | [<- | []]].
  - eexists. split; [reflexivity | apply Permutation_refl].
  - eexists. split; [reflexivity | apply order_by_perm].
Qed.




(** ** Outcomes *)

Lemma bind_returned {A B : Type} (m : outcome A) (f : A -> outcome B) b :
  bind m f = Returned b -> exists a, m = Returned a /\ f a = Returned b.
Proof. destruct m as [a | e]; simpl; [eauto | discriminate]. Qed.

Lemma map_outcome_Forall2 {A B : Type} (f : A -> outcome B) l ys :
  map_outcome f l = Returned ys ->
  Forall2 (fun x y => f x = Returned y) l ys.
Proof.
  revert ys; induction l as [| x l IH]; simpl; intros ys H.
  - injection H as <-. constructor.
  - apply bind_returned in H as (y & Hy & H).
    apply bind_returned in H as (ys' & Hys & H).
    injection H as <-. constructor; auto.
Qed.

(** ** Vector search *)

Lemma similarity_range (d : Q) :
  (0 <= similarity_of_distance d /\ similarity_of_distance d <= 1)%Q
  <-> (0 <= d /\ d <= 2)%Q.
Proof.
  unfold similarity_of_distance, Qdiv. change (/ 2)%Q with (1 # 2)%Q.
  split; intros [H1 H2]; split; lra.
Qed.

Lemma py_index_In {A : Type} (l : list A) (i : Z) (x : A) :
  py_index l i = Some x -> In x l.
Proof.
  unfold py_index.
  destruct (0 <=? i)%Z; [apply nth_error_In|].
  destruct (_ <=? i)%Z; [apply nth_error_In | discriminate].
Qed.

Lemma map_to_chunk_ids_spec metadata hits results :
  map_to_chunk_ids metadata hits = Returned results ->
  Forall2 (fun hit r =>
             py_index metadata (fst hit) = Some (vr_chunk_id r)
             /\ vr_similarity_score r = similarity_of_distance (snd hit))
    hits results.
Proof.
  intros H. apply map_outcome_Forall2 in H.
  induction H as [| hit r hits results Hr _ IH]; constructor; auto.
  destruct (py_index metadata (fst hit)); [| discriminate].
  injection Hr as <-. now split.
Qed.

Lemma unembedded_child_spec db ci :
  unembedded_child db ci = true ->
  chunk_role ci = child
  /\ exists cc t, find_content db (chunk_id ci) = Some cc
                  /\ text cc = Some t /\ 50 < length t.
Proof.
  unfold unembedded_child. intros H.
  apply andb_true_iff in H as [H _]. apply andb_true_iff in H as [Hrole Htext].
  split; [now destruct (chunk_role ci)|].
  destruct (find_content db (chunk_id ci)) as [cc |]; [| discriminate].
  destruct (text cc) as [t |] eqn:Ht; [| discriminate].
  exists cc, t. repeat split; auto. now apply Nat.ltb_lt.
Qed.

(** C6 as stated fails: a hit at raw distance 3 gets the score -1/2. *)
Lemma similarity_score_below_zero :
  exists r,
    search_vectors far_services ["textbook_ch3_c01"] "What are CSR penalties?" 15
    = Returned [r]
    /\ ~ (0 <= vr_similarity_score r)%Q.
Proof.
  eexists. split; [reflexivity|]. simpl. intros H. apply H. reflexivity.
Qed.

(** C6, as the engine has it. The results of a search are, hit by hit of
    the index, the chunk id at the hit's position in the metadata with the
    score 1 - distance / 2, and that score lies in [0,1] exactly when the
    raw distance lies in [0,2]. When the metadata of the index comes from
    a run of [build_vector_database] on an empty index, every result is a
    child chunk of the database with a text of more than 50 characters. *)
Theorem search_vectors_spec sv metadata query top_k results :
  search_vectors sv metadata query top_k = Returned results ->
  ((embed sv query = None /\ results = [])
   \/ exists query_embedding,
        embed sv query = Some query_embedding
        /\ Forall2 (fun hit r =>
                      py_index metadata (fst hit) = Some (vr_chunk_id r)
                      /\ vr_similarity_score r = similarity_of_distance (snd hit))
             (index_search sv query_embedding top_k) results)
  /\ (forall d : Q,
        (0 <= similarity_of_distance d /\ similarity_of_distance d <= 1)%Q
        <-> (0 <= d /\ d <= 2)%Q)
  /\ (forall db, metadata = build_vector_database db [] ->
        forall r, In r results ->
          exists ci, In ci (chunks_identity db)
                     /\ chunk_id ci = vr_chunk_id r
                     /\ chunk_role ci = child
                     /\ exists cc t, find_content db (chunk_id ci) = Some cc
                                     /\ text cc = Some t /\ 50 < length t).
Proof.
  unfold search_vectors. intros H.
  assert (Hres :
    (embed sv query = None /\ results = [])
    \/ exists query_embedding,
         embed sv query = Some query_embedding
         /\ Forall2 (fun hit r =>
                       py_index metadata (fst hit) = Some (vr_chunk_id r)
                       /\ vr_similarity_score r = similarity_of_distance (snd hit))
              (index_search sv query_embedding top_k) results).
  { destruct (embed sv query) as [v |].
    - right. exists v. split; [reflexivity|]. now apply map_to_chunk_ids_spec.
    - left. injection H as <-. now split. }
  split; [exact Hres|]. split; [apply similarity_range|].
  intros db -> r Hr.
  assert (Hin : In (vr_chunk_id r) (build_vector_database db [])).
  { destruct Hres as [[_ ->] | (v & _ & Hall)]; [contradiction|].
    clear H. induction Hall as [| hit r' hits results [Hidx _] _ IH].
    - contradiction.
    - destruct Hr as [-> | Hr]; [| now apply IH].
      eapply py_index_In; eassumption. }
  unfold build_vector_database in Hin. simpl in Hin.
  apply in_map_iff in Hin as (ci & Hid & Hci).
  apply filter_In in Hci as [Hci Hchild].
  apply unembedded_child_spec in Hchild as [Hrole Htext].
  exists ci. repeat split; auto.
Qed.

Lemma search_vectors_spec_witness :
  (0 <= similarity_of_distance (1 # 2) /\ similarity_of_distance (1 # 2) <= 1)%Q
  <-> (0 <= 1 # 2 /\ 1 # 2 <= 2)%Q.
Proof.
  exact (proj1 (proj2 (search_vectors_spec example_services ["textbook_ch3_c01"]
                         "How to register a company?" 15 _ eq_refl)) (1 # 2)%Q).
Defined.

(** ** The response payload *)

Lemma format_chunk_returned scores tag chunk view :
  format_chunk scores tag chunk = Returned view ->
  exists t, cd_text chunk = Some t
            /\ cv_chunk_id view = cd_chunk_id chunk
            /\ cv_text view = (take 500 t ++ "...")%string
            /\ cv_similarity_score view = score_map_get scores (cd_chunk_id chunk) 1
            /\ cv_source_type view = tag.
Proof.
  unfold format_chunk. destruct (cd_text chunk) as [t |]; [| discriminate].
  intros [= <-]. exists t. repeat split.
Qed.

Lemma format_chunks_returned scores tag details views :
  map_outcome (format_chunk scores tag) details = Returned views ->
  map cv_chunk_id views = map cd_chunk_id details
  /\ Forall (fun v => cv_source_type v = tag) views
  /\ List.length views = List.length details.
Proof.
  intros H. apply map_outcome_Forall2 in H.
  induction H as [| c v details views Hv _ (IH1 & IH2 & IH3)]; simpl.
  - repeat split. constructor.
  - apply format_chunk_returned in Hv as (t & _ & Hid & _ & _ & Htag).
    repeat split; [congruence | now constructor | congruence].
Qed.

Lemma format_chunks_total scores tag details :
  Forall (fun c => cd_text c <> None) details ->
  exists views, map_outcome (format_chunk scores tag) details = Returned views.
Proof.
  induction 1 as [| c details Hc _ [views IH]]; simpl.
  - now exists [].
  - unfold format_chunk at 1. destruct (cd_text c) as [t |]; [| contradiction].
    simpl. rewrite IH. simpl. eauto.
Qed.

Lemma filter_none {A : Type} (l : list A) : filter (fun _ => false) l = [].
Proof. induction l; simpl; auto. Qed.

Lemma get_chunk_details_nil db : get_chunk_details db [] = [].
Proof. unfold get_chunk_details. simpl. now rewrite filter_none. Qed.

(** ** Failure of the embedding call *)

(** C8. When the embedding call fails, [search_vectors] returns an empty
    result set and raises nothing; and [query] then answers from the
    direct lookup alone: whenever the LLM answers the prompt built from the
    authoritative evidence, the query returns that answer with exactly the
    chunks of the direct lookup and no supplementary chunk, and not an
    error. For a general query the evidence is empty. *)
Theorem embedding_failure_absorbed sv db metadata budget user_query top_k :
  embed sv user_query = None ->
  search_vectors sv metadata user_query top_k = Returned []
  /\ forall answer_text,
       generate sv (build_prompt user_query
                      (build_context budget (evidence_set db user_query top_k)))
       = Some answer_text ->
       Forall (fun c => cd_text c <> None) (evidence_set db user_query top_k) ->
       exists r,
         query sv db metadata budget user_query top_k = Returned r
         /\ answer r = answer_text
         /\ map cv_chunk_id (retrieved_chunks r)
            = map cd_chunk_id (evidence_set db user_query top_k)
         /\ supplementary_count r = 0.
Proof.
  intros Hembed.
  assert (Hsv : search_vectors sv metadata user_query top_k = Returned []).
  { unfold search_vectors. now rewrite Hembed. }
  split; [exact Hsv|].
  intros answer_text Hllm Htexts. unfold query, evidence_set in *.
  destruct (classify user_query) as [term | section_num | q]; simpl in *.
  - unfold generate_answer. rewrite Hllm. simpl.
    destruct (format_chunks_total [] (Some direct_lookup) _ Htexts) as [views Hv].
    rewrite Hv. simpl. eexists. repeat split.
    simpl. apply (format_chunks_returned _ _ _ _ Hv).
  - unfold generate_answer. rewrite Hllm. simpl. rewrite Hsv. simpl.
    rewrite get_chunk_details_nil. simpl.
    destruct (format_chunks_total [] (Some direct_lookup) _ Htexts) as [views Hv].
    change (make_score_map []) with (@nil (string * Q)).
    rewrite Hv. simpl. eexists. repeat split.
    simpl. rewrite app_nil_r. apply (format_chunks_returned _ _ _ _ Hv).
  - rewrite Hsv. simpl. rewrite get_chunk_details_nil in *.
    unfold generate_answer. rewrite Hllm. simpl. eexists. repeat split.
Qed.

Lemma embedding_failure_absorbed_witness :
  exists r,
    query embedding_down example_db ["textbook_ch3_c01"] CONTEXT_SIZE
      "section 17" 15 = Returned r
    /\ answer r = "**Answer** as generated by the model"
    /\ map cv_chunk_id (retrieved_chunks r)
       = map cd_chunk_id (evidence_set example_db "section 17" 15)
    /\ supplementary_count r = 0.
Proof.
  apply (proj2 (embedding_failure_absorbed embedding_down example_db
                  ["textbook_ch3_c01"] CONTEXT_SIZE "section 17" 15 eq_refl)
           "**Answer** as generated by the model" eq_refl).
  vm_compute. repeat constructor; discriminate.
Defined.

(** ** One generation, from the direct lookup *)





(** ** The chunks of the payload *)

Lemma Forall2_In_r {A B : Type} (P : A -> B -> Prop) l l' y :
  Forall2 P l l' -> In y l' -> exists x, In x l /\ P x y.
Proof.
  induction 1 as [| x y' l l' Hxy _ IH]; simpl; [contradiction|].
  intros [-> | Hy]; [eauto|]. destruct (IH Hy) as (x' & Hx' & Hp). eauto.
Qed.











(** ** The context of the answer *)

Lemma priority_compare_rank x y :
  compare_nulls_last priority_compare x y
  = Nat.compare (priority_rank x) (priority_rank y).
Proof. destruct x as [[] |], y as [[] |]; reflexivity. Qed.

Lemma detail_order_iff a b :
  detail_order a b = true <->
  priority_rank (cd_priority a) < priority_rank (cd_priority b)
  \/ (priority_rank (cd_priority a) = priority_rank (cd_priority b)
      /\ section_le (cd_section a) (cd_section b) = true).
Proof.
  unfold detail_order, section_le. rewrite priority_compare_rank.
  destruct (Nat.compare_spec (priority_rank (cd_priority a))
              (priority_rank (cd_priority b))) as [Heq | Hlt | Hgt].
  - split; [intros H; right; split; [exact Heq | exact H]|].
    intros [Hlt | [_ H]]; [lia | exact H].
  - split; [now left | reflexivity].
  - split; [discriminate|]. intros [Hlt | [Heq _]]; lia.
Qed.

Lemma section_le_total x y : section_le x y = false -> section_le y x = true.
Proof.
  unfold section_le. destruct x as [a |], y as [b |]; simpl; try reflexivity;
    try discriminate.
  rewrite (String.compare_antisym b a). now destruct (String.compare a b).
Qed.

Lemma section_le_trans x y z :
  section_le x y = true -> section_le y z = true -> section_le x z = true.
Proof.
  unfold section_le.
  destruct x as [a |], y as [b |], z as [c |]; simpl; try reflexivity;
    try discriminate.
  apply string_leb_trans.
Qed.

Lemma detail_order_total a b :
  detail_order a b = false -> detail_order b a = true.
Proof.
  intros H. apply detail_order_iff.
  destruct (Nat.lt_trichotomy (priority_rank (cd_priority a))
              (priority_rank (cd_priority b))) as [Hlt | [Heq | Hgt]].
  - assert (detail_order a b = true) by (apply detail_order_iff; now left).
    congruence.
  - right. split; [now symmetry|]. apply section_le_total.
    destruct (section_le (cd_section a) (cd_section b)) eqn:Hs; [| reflexivity].
    assert (detail_order a b = true) by (apply detail_order_iff; now right).
    congruence.
  - now left.
Qed.

Lemma detail_order_trans a b c :
  detail_order a b = true -> detail_order b c = true -> detail_order a c = true.
Proof.
  rewrite !detail_order_iff.
  intros [Hab | [Hab Hsab]] [Hbc | [Hbc Hsbc]]; try (left; lia).
  right. split; [lia|]. eapply section_le_trans; eassumption.
Qed.

Lemma get_chunk_details_sorted db chunk_ids :
  StronglySorted (fun a b => detail_order a b = true)
    (get_chunk_details db chunk_ids).
Proof.
  apply Sorted_StronglySorted.
  - intros a b c. apply detail_order_trans.
  - apply order_by_sorted, detail_order_total.
Qed.

Lemma join_cons sep x xs :
  exists tail, join sep (x :: xs) = (x ++ tail)%string.
Proof.
  unfold join. destruct xs as [| y ys]; simpl.
  - exists "". now rewrite append_empty_r.
  - eauto.
Qed.

(** C7 as stated fails: the only chunk of the evidence, hence the
    top-ranked one, has a block longer than the budget, and the context
    is the first 8000 characters of that block: the chunk is cut. *)
Lemma build_context_cuts_top_chunk :
  exists top,
    get_chunk_details long_db ["ca2013_act_s135_p001"] = [top]
    /\ build_context CONTEXT_SIZE_before [top]
       = take CONTEXT_SIZE_before (context_part top)
    /\ ~ exists rest,
           build_context CONTEXT_SIZE_before [top]
           = (context_part top ++ rest)%string.
Proof.
  eexists. split; [reflexivity|]. split.
  - reflexivity.
  - intros [rest H]. apply (f_equal length) in H.
    unfold build_context in H. rewrite length_append, length_take in H.
    match type of H with
    | Nat.min _ (length ?j) = length ?b + _ =>
        assert (Hlong : CONTEXT_SIZE_before < length b)
          by (apply Nat.ltb_lt; vm_compute; reflexivity);
        pose proof (Nat.le_min_l CONTEXT_SIZE_before (length j))
    end.
    lia.
Qed.

(** C7, as the synthesizer has it. The chunks come from
    [get_chunk_details] in ascending order of priority and then of
    section, NULL last. Each gives one block, the upper-cased document
    type in brackets, the section, the title, a line break and the text.
    The context is the first [budget] characters of the blocks joined by
    the separator: it is cut at the budget wherever that falls, so what is
    dropped is the end of the joined text; the block of the top-ranked
    chunk is whole in the context when it fits the budget and is cut
    otherwise. The context goes into the prompt of the one LLM call. *)
Theorem build_context_spec sv db chunk_ids budget user_query :
  let chunks := get_chunk_details db chunk_ids in
  let joined := join context_separator (map context_part chunks) in
  (forall before a between b after,
      chunks = before ++ a :: between ++ b :: after ->
      priority_rank (cd_priority a) <= priority_rank (cd_priority b)
      /\ (priority_rank (cd_priority a) = priority_rank (cd_priority b) ->
          section_le (cd_section a) (cd_section b) = true))
  /\ (forall c,
        context_part c
        = ("[" ++ upper (document_type_name (cd_document_type c)) ++ "] Section "
           ++ py_str (cd_section c) ++ ": " ++ py_str (cd_title c)
           ++ newline ++ py_str (cd_text c))%string)
  /\ build_context budget chunks = take budget joined
  /\ length (build_context budget chunks) = Nat.min budget (length joined)
  /\ (exists dropped, joined = (build_context budget chunks ++ dropped)%string)
  /\ (forall top others, chunks = top :: others ->
        (length (context_part top) <= budget ->
         exists rest, build_context budget chunks
                      = (context_part top ++ rest)%string)
        /\ (budget <= length (context_part top) ->
            build_context budget chunks = take budget (context_part top)))
  /\ generate_answer sv budget user_query chunks
     = match generate sv (build_prompt user_query (build_context budget chunks)) with
       | Some answer_text =>
           Returned {| ar_answer := answer_text;
                       ar_citations := map citation_of chunks |}
       | None => Raised answer_generation_failed
       end.
Proof.
  cbv zeta.
  assert (Hpair : forall before a between b after,
             get_chunk_details db chunk_ids = before ++ a :: between ++ b :: after ->
             detail_order a b = true).
  { intros before a between b after H.
    pose proof (get_chunk_details_sorted db chunk_ids) as Hs. rewrite H in Hs.
    now apply StronglySorted_pair in Hs. }
  split; [| split; [| split; [| split; [| split; [| split]]]]].
  - intros before a between b after H.
    apply Hpair, detail_order_iff in H. split; [lia|].
    intros Heq. destruct H as [Hlt | [_ Hs]]; [lia | exact Hs].
  - intros c. reflexivity.
  - reflexivity.
  - unfold build_context. apply length_take.
  - exists (drop budget (join context_separator
                           (map context_part (get_chunk_details db chunk_ids)))).
    unfold build_context. now rewrite take_drop.
  - intros top others H. unfold build_context. rewrite H. simpl map.
    destruct (join_cons context_separator (context_part top)
                (map context_part others)) as [tail ->].
    split; intros Hlen; [now apply take_append_le | now apply take_append_ge].
  - reflexivity.
Qed.

Lemma build_context_spec_witness :
  exists top,
    get_chunk_details example_db ["ca2013_act_s017_p001"] = [top]
    /\ exists rest,
         build_context CONTEXT_SIZE
           (get_chunk_details example_db ["ca2013_act_s017_p001"])
         = (context_part top ++ rest)%string.
Proof.
  eexists. split; [reflexivity|].
  refine (proj1 (proj1 (proj2 (proj2 (proj2 (proj2 (proj2
            (build_context_spec example_services example_db
               ["ca2013_act_s017_p001"] CONTEXT_SIZE "section 17"))))))
            _ [] eq_refl) _).
  apply Nat.leb_le. vm_compute. reflexivity.
Defined.

(** ** Refusal *)

(** The refusal policy, as modelled, refuses in the case the governance
    rules name: the lowest-priority chunk of the evidence has priority 2
    or lower in authority, its policy says to refuse when the parent is
    missing, and no chunk of the evidence with a strictly higher priority
    is one that an [implements] or [clarifies] edge of it resolves to. *)
Lemma check_refusal_policies_refuses db evidence id p policy :
  lowest_priority_chunk db evidence = Some (id, p) ->
  2 <= p ->
  find_policy db id = Some policy ->
  refuse_if_parent_missing policy = true ->
  (forall other q, In other evidence -> priority_of db other = Some q ->
                   q < p -> resolves_to db id other = false) ->
  check_refusal_policies db evidence = refuse insufficient_authoritative_source.
Proof.
  intros Hlow Hp Hpol Hrefuse Hnone. unfold check_refusal_policies.
  rewrite Hlow.
  destruct (Nat.eqb_spec p 1) as [-> | _]; [lia|].
  assert (Hha : has_higher_authority db evidence id p = false).
  { unfold has_higher_authority. apply not_true_iff_false. intros H.
    apply existsb_exists in H as (other & Hin & H).
    destruct (priority_of db other) as [q |] eqn:Hq; [| discriminate].
    apply andb_true_iff in H as [Hlt Hres]. apply Nat.ltb_lt in Hlt.
    rewrite (Hnone other q Hin Hq Hlt) in Hres. discriminate. }
  rewrite Hha, Hpol, Hrefuse. now destruct (Nat.eqb p 4).
Qed.

(** [query] reads neither the refusal policies nor the relationships. *)
Lemma query_ignores_refusal_policy sv db policies edges metadata budget
  user_query top_k :
  query sv
    {| chunks_identity := chunks_identity db;
       chunks_content := chunks_content db;
       chunk_relationships := edges;
       chunk_retrieval_rules := chunk_retrieval_rules db;
       chunk_refusal_policy := policies;
       chunk_lifecycle := chunk_lifecycle db;
       chunk_embeddings := chunk_embeddings db |}
    metadata budget user_query top_k
  = query sv db metadata budget user_query top_k.
Proof. reflexivity. Qed.

(** C1, where [query] departs from it. The general query below retrieves
    one chunk, a textbook chunk of priority 4 whose policy says to refuse
    when the parent law is missing and that no edge ties to a chunk of
    higher authority; the refusal policy refuses this evidence with
    [insufficient_authoritative_source]; [query] returns a synthesized
    answer. *)
Theorem query_answers_without_refusal_check :
  classify "How to register a company?" = general "How to register a company?"
  /\ (exists r,
        query example_services example_db ["textbook_ch3_c01"] CONTEXT_SIZE
          "How to register a company?" 15 = Returned r
        /\ answer r = "**Answer** as generated by the model"
        /\ map cv_chunk_id (retrieved_chunks r) = ["textbook_ch3_c01"]
        /\ map cv_priority (retrieved_chunks r) = [Some P4])
  /\ option_map refuse_if_parent_missing
       (find_policy example_db "textbook_ch3_c01") = Some true
  /\ check_refusal_policies example_db ["textbook_ch3_c01"]
     = refuse insufficient_authoritative_source.
Proof.
  split; [reflexivity|]. split; [| split; reflexivity].
  eexists. split; [reflexivity|]. repeat split.
Qed.

(* ================================================================== *)
(** * Part III. Further properties of the code *)
(* ================================================================== *)

(** ** Keys of [chunks_identity] *)

Lemma has_chunk_In t id :
  has_chunk t id = true <-> In id (map chunk_id t).
Proof.
  unfold has_chunk. rewrite existsb_exists, in_map_iff. split.
  - intros (r & Hin & Heq). apply String.eqb_eq in Heq. eauto.
  - intros (r & Heq & Hin). exists r. split; [exact Hin|].
    now apply String.eqb_eq.
Qed.

Lemma NoDup_map_filter {A B : Type} (f : A -> B) (p : A -> bool) l :
  NoDup (map f l) -> NoDup (map f (filter p l)).
Proof.
  induction l as [| x l IH]; simpl; intros H; [constructor|].
  inversion H as [| ? ? Hnot Hnd]; subst.
  destruct (p x); simpl; [| now apply IH].
  constructor; [| now apply IH].
  intros Hin. apply Hnot. apply in_map_iff in Hin as (y & Hy & Hin).
  apply filter_In in Hin as [Hin _]. apply in_map_iff. eauto.
Qed.

Lemma replace_chunk_keys t id r :
  NoDup (map chunk_id t) ->
  ~ In (chunk_id r) (map chunk_id (remove_chunk t id)) ->
  NoDup (map chunk_id (replace_chunk t id r)).
Proof.
  unfold replace_chunk, remove_chunk.
  induction t as [| x t IH]; simpl; intros Hnd Hfresh; [constructor|].
  inversion Hnd as [| ? ? Hnot Hnd']; subst.
  destruct (String.eqb_spec (chunk_id x) id) as [Heq | Hne]; simpl in *.
  - (* [x] is the row replaced; no other row carries [id] *)
    assert (Hsame : map (fun r0 => if String.eqb (chunk_id r0) id then r else r0) t = t).
    { rewrite <- (map_id t) at 2. apply map_ext_in. intros y Hy.
      destruct (String.eqb_spec (chunk_id y) id) as [Hy' | _]; [| reflexivity].
      exfalso. apply Hnot. rewrite Heq, <- Hy'. now apply in_map. }
    assert (Hkeep : filter (fun r0 => negb (String.eqb (chunk_id r0) id)) t = t).
    { apply forallb_filter_id. apply forallb_forall. intros y Hy.
      destruct (String.eqb_spec (chunk_id y) id) as [Hy' | _]; [| reflexivity].
      exfalso. apply Hnot. rewrite Heq, <- Hy'. now apply in_map. }
    rewrite Hsame. rewrite Hkeep in Hfresh. now constructor.
  - constructor.
    + intros Hin. apply in_map_iff in Hin as (y & Hy & Hin).
      apply in_map_iff in Hin as (z & Hz & Hin).
      destruct (String.eqb_spec (chunk_id z) id) as [Hz' | Hz'].
      * subst y. apply Hfresh. left. now symmetry.
      * subst y. apply Hnot. rewrite <- Hy. now apply in_map.
    + apply IH; [exact Hnd'|]. intros Hin. apply Hfresh. now right.
Qed.

(** X1. The primary key holds in every table that INSERT, UPDATE and
    DELETE statements can produce: no two rows of [chunks_identity] share
    a [chunk_id]. *)
Theorem chunk_id_unique t :
  reachable t -> NoDup (map chunk_id t).
Proof.
  induction 1 as [| t op t' _ IH Hw]; [constructor|].
  destruct op as [r | id r | id]; simpl in Hw.
  - destruct (parent_child_consistency r); simpl in Hw; [| discriminate].
    destruct (has_chunk t (chunk_id r)) eqn:Hhas; [discriminate|].
    destruct (references_ok (t ++ [r]) r); simpl in Hw; [| discriminate].
    injection Hw as <-. rewrite map_app. simpl.
    apply NoDup_app; [exact IH | repeat constructor; intros [] |].
    intros x Hx [<- | []]. apply has_chunk_In in Hx. congruence.
  - destruct (has_chunk t id); simpl in Hw; [| now injection Hw as <-].
    destruct (parent_child_consistency r); simpl in Hw; [| discriminate].
    destruct (has_chunk (remove_chunk t id) (chunk_id r)) eqn:Hhas; [discriminate|].
    destruct (forallb _ _); simpl in Hw; [| discriminate].
    injection Hw as <-. apply replace_chunk_keys; [exact IH|].
    intros Hin. apply has_chunk_In in Hin. congruence.
  - destruct (forallb _ _); simpl in Hw; [| discriminate].
    injection Hw as <-. now apply NoDup_map_filter.
Qed.

Lemma chunk_id_unique_witness :
  NoDup (map chunk_id [act_s017_parent; act_s017_child]).
Proof.
  apply chunk_id_unique.
  apply (reachable_write [act_s017_parent] (Insert act_s017_child));
    [| reflexivity].
  apply (reachable_write [] (Insert act_s017_parent)); [| reflexivity].
  apply reachable_empty.
Defined.

(** The foreign key, row by row. *)
Lemma references_ok_spec t r :
  references_ok t r = true <->
  forall p, parent_chunk_id r = Some p -> In p (map chunk_id t).
Proof.
  unfold references_ok. destruct (parent_chunk_id r) as [q |].
  - rewrite has_chunk_In. split; [now intros H p [= <-] | auto].
  - split; [discriminate | reflexivity].
Qed.

(** X2. Referential integrity holds in every table that the writes can
    produce: the [parent_chunk_id] of every row, when not null, is the
    [chunk_id] of a row of the table. *)
Theorem parent_chunk_exists t :
  reachable t ->
  forall r p, In r t -> parent_chunk_id r = Some p ->
    exists r', In r' t /\ chunk_id r' = p.
Proof.
  intros Hr.
  assert (Hall : Forall (fun r => references_ok t r = true) t).
  { induction Hr as [| t op t' _ IH Hw]; [constructor|].
    destruct op as [r | id r | id]; simpl in Hw.
    - destruct (parent_child_consistency r); simpl in Hw; [| discriminate].
      destruct (has_chunk t (chunk_id r)); [discriminate|].
      destruct (references_ok (t ++ [r]) r) eqn:Href; simpl in Hw; [| discriminate].
      injection Hw as <-. apply Forall_app. split; [| now repeat constructor].
      eapply Forall_impl; [| exact IH]. intros a Ha. simpl in Ha.
      apply references_ok_spec. intros p Hp. rewrite map_app.
      apply in_or_app. left. now apply (proj1 (references_ok_spec t a) Ha).
    - destruct (has_chunk t id); simpl in Hw; [| now injection Hw as <-].
      destruct (parent_child_consistency r); simpl in Hw; [| discriminate].
      destruct (has_chunk (remove_chunk t id) (chunk_id r)); [discriminate|].
      destruct (forallb _ _) eqn:Hfk; simpl in Hw; [| discriminate].
      injection Hw as <-. apply Forall_forall. now apply forallb_forall.
    - destruct (forallb _ _) eqn:Hfk; simpl in Hw; [| discriminate].
      injection Hw as <-. apply Forall_forall. now apply forallb_forall. }
  intros r p Hin Hp. rewrite Forall_forall in Hall.
  pose proof (proj1 (references_ok_spec t r) (Hall r Hin) p Hp) as Hq.
  apply in_map_iff in Hq as (r' & Heq & Hin'). eauto.
Qed.

Lemma parent_chunk_exists_witness :
  exists r', In r' [act_s017_parent; act_s017_child]
             /\ chunk_id r' = "ca2013_act_s017_p001".
Proof.
  apply (parent_chunk_exists [act_s017_parent; act_s017_child])
    with (r := act_s017_child).
  - apply (reachable_write [act_s017_parent] (Insert act_s017_child));
      [| reflexivity].
    apply (reachable_write [] (Insert act_s017_parent)); [| reflexivity].
    apply reachable_empty.
  - right. left. reflexivity.
  - reflexivity.
Defined.

(** X3. A chunk that another chunk names as its parent cannot be deleted:
    the statement fails with a foreign-key violation and the table stays
    as it is. *)
Theorem delete_referenced_chunk_refused t id r :
  In r t -> chunk_id r <> id -> parent_chunk_id r = Some id ->
  apply_write t (Delete id) = inl foreign_key_violation.
Proof.
  intros Hin Hne Hp. simpl.
  assert (Hfk : forallb (references_ok (remove_chunk t id)) (remove_chunk t id)
                = false).
  { apply not_true_iff_false. intros H.
    assert (Hr : In r (remove_chunk t id)).
    { apply filter_In. split; [exact Hin|].
      apply negb_true_iff. now apply String.eqb_neq. }
    pose proof (proj1 (forallb_forall _ _) H r Hr) as Href.
    pose proof (proj1 (references_ok_spec _ _) Href id Hp) as Hid.
    apply in_map_iff in Hid as (x & Hx & Hxin).
    apply filter_In in Hxin as [_ Hxne].
    apply negb_true_iff, String.eqb_neq in Hxne. contradiction. }
  now rewrite Hfk.
Qed.

Lemma delete_referenced_chunk_refused_witness :
  apply_write [act_s017_parent; act_s017_child] (Delete "ca2013_act_s017_p001")
  = inl foreign_key_violation.
Proof.
  apply (delete_referenced_chunk_refused _ _ act_s017_child).
  - right. left. reflexivity.
  - discriminate.
  - reflexivity.
Defined.

(** X4. The constraints do not make the lineage a two-level tree: a child
    row whose parent is the row itself, under a fresh id, is accepted by
    INSERT into any table. *)
Theorem self_parent_accepted t r :
  chunk_role r = child ->
  parent_chunk_id r = Some (chunk_id r) ->
  has_chunk t (chunk_id r) = false ->
  apply_write t (Insert r) = inr (t ++ [r]).
Proof.
  intros Hrole Hp Hfresh. simpl.
  unfold parent_child_consistency. rewrite Hrole, Hp, Hfresh. simpl.
  assert (Href : references_ok (t ++ [r]) r = true).
  { apply references_ok_spec. intros p. rewrite Hp. intros [= <-].
    rewrite map_app. apply in_or_app. right. now left. }
  now rewrite Href.
Qed.

Lemma self_parent_accepted_witness :
  apply_write [act_s017_parent]
    (Insert (identity_row "loop_c01" child (Some "loop_c01") act statutory true None))
  = inr [act_s017_parent;
         identity_row "loop_c01" child (Some "loop_c01") act statutory true None].
Proof.
  apply (self_parent_accepted [act_s017_parent]
           (identity_row "loop_c01" child (Some "loop_c01") act statutory true None));
    reflexivity.
Defined.

(** ** The CHECK constraint on [copyright_status] *)

(** X5. The CHECK constraint of [chunk_administrative.copyright_status]
    rejects no value: because NULL is in the list of the IN condition, the
    condition is TRUE for the two listed words and for NULL, and NULL
    (never FALSE) for every other text, and a CHECK whose condition is NULL
    is satisfied. Without the NULL in the list the constraint would accept
    exactly the two words and a NULL column. *)
Theorem copyright_status_check_accepts_all (copyright_status : option string) :
  check_satisfied (copyright_status_check copyright_status) = true
  /\ (copyright_status_check copyright_status = Some true <->
      copyright_status = Some "copyrighted"
      \/ copyright_status = Some "public_domain")
  /\ (check_satisfied
        (sql_in copyright_status [Some "copyrighted"; Some "public_domain"])
      = true <->
      copyright_status = None
      \/ copyright_status = Some "copyrighted"
      \/ copyright_status = Some "public_domain").
Proof.
  unfold copyright_status_check, sql_in, check_satisfied. simpl.
  destruct copyright_status as [v |]; simpl.
  - destruct (String.eqb_spec v "copyrighted") as [-> | H1];
      [simpl; repeat split; auto |].
    destruct (String.eqb_spec v "public_domain") as [-> | H2];
      [simpl; repeat split; auto |].
    simpl. repeat split; try discriminate.
    + intros [[= E] | [= E]]; contradiction.
    + intros [E | [[= E] | [= E]]]; [discriminate | contradiction | contradiction].
  - repeat split; auto; try discriminate.
    intros [E | E]; discriminate.
Qed.

(** ** The term of a definition query *)

Lemma append_assoc (a b c : string) :
  (a ++ (b ++ c))%string = ((a ++ b) ++ c)%string.
Proof. induction a as [| x a IH]; simpl; [reflexivity | now rewrite IH]. Qed.

Lemma forallb_chars_append p a b :
  forallb_chars p (a ++ b) = forallb_chars p a && forallb_chars p b.
Proof.
  induction a as [| c a IH]; simpl; [reflexivity|].
  now rewrite IH, andb_assoc.
Qed.

Lemma forallb_chars_impl (p q : ascii -> bool) s :
  (forall c, p c = true -> q c = true) ->
  forallb_chars p s = true -> forallb_chars q s = true.
Proof.
  intros Hpq. induction s as [| c s IH]; simpl; [reflexivity|].
  intros H. apply andb_true_iff in H as [Hc Hs].
  now rewrite (Hpq c Hc), IH.
Qed.

Lemma last_char_append a b :
  last_char (a ++ b) = match b with
                       | EmptyString => last_char a
                       | String _ _ => last_char b
                       end.
Proof.
  induction a as [| c a IH].
  - simpl. now destruct b.
  - change (String c a ++ b)%string with (String c (a ++ b)).
    cbn [last_char]. rewrite IH.
    destruct a as [| d a]; destruct b as [| e b]; reflexivity.
Qed.

Lemma last_char_forallb p s :
  s <> EmptyString -> forallb_chars p s = true ->
  exists c, last_char s = Some c /\ p c = true.
Proof.
  induction s as [| c s IH]; [congruence|]. intros _ H. simpl in H.
  apply andb_true_iff in H as [Hc Hs].
  destruct s as [| d s]; [now exists c|].
  destruct IH as (e & He & Hpe); [discriminate | exact Hs |].
  exists e. now split.
Qed.

Lemma first_char_forallb p s :
  s <> EmptyString -> forallb_chars p s = true ->
  exists c, first_char s = Some c /\ p c = true.
Proof.
  destruct s as [| c s]; [congruence|]. intros _ H. simpl in H.
  apply andb_true_iff in H as [Hc _]. now exists c.
Qed.

(** Whatever a pattern matches is a prefix of its input. *)
Lemma matches_consumes r s caps s' caps' :
  matches r s caps s' caps' -> exists w, s = (w ++ s')%string.
Proof.
  induction 1.
  - now exists t.
  - now exists (String a EmptyString).
  - now exists (String a EmptyString).
  - destruct IHmatches1 as (w1 & ->), IHmatches2 as (w2 & ->).
    exists (w1 ++ w2)%string. now rewrite <- append_assoc.
  - assumption.
  - assumption.
  - assumption.
  - now exists EmptyString.
  - now exists EmptyString.
  - destruct IHmatches1 as (w1 & ->), IHmatches2 as (w2 & ->).
    exists (w1 ++ w2)%string. now rewrite <- append_assoc.
  - assumption.
  - now exists t.
Qed.

(** The repeated part of the term group: runs of white space, each
    followed by a word. *)
Lemma matches_more_words s caps s' caps' :
  matches (Star (Seq spaces word)) s caps s' caps' ->
  caps' = caps /\
  exists w, s = (w ++ s')%string
            /\ forallb_chars term_char w = true
            /\ (w = EmptyString
                \/ exists c, last_char w = Some c /\ in_class class_word c = true).
Proof.
  intros H. remember (Star (Seq spaces word)) as r eqn:Hr.
  induction H; try discriminate.
  - split; [reflexivity|]. exists EmptyString. repeat split. now left.
  - injection Hr as ->. specialize (IHmatches2 eq_refl).
    destruct IHmatches2 as [-> (w3 & -> & Hw3 & Hlast)].
    inversion H; subst.
    match goal with Hsp : matches spaces _ _ _ _ |- _ =>
      apply matches_plus_class in Hsp as [-> (w1 & -> & Hne1 & Hw1)] end.
    match goal with Hwd : matches word _ _ _ _ |- _ =>
      apply matches_plus_class in Hwd as [-> (w2 & -> & Hne2 & Hw2)] end.
    split; [reflexivity|].
    exists (w1 ++ w2 ++ w3)%string. split.
    { now rewrite <- !append_assoc. }
    split.
    { rewrite !forallb_chars_append, Hw3.
      rewrite (forallb_chars_impl (in_class class_space) term_char w1);
        [| intros c Hc; unfold term_char; rewrite Hc; apply orb_true_r | exact Hw1].
      rewrite (forallb_chars_impl (in_class class_word) term_char w2);
        [reflexivity | intros c Hc; unfold term_char; now rewrite Hc | exact Hw2]. }
    right. rewrite last_char_append.
    destruct (w2 ++ w3)%string as [| x y] eqn:E.
    { destruct w2; [congruence | discriminate]. }
    rewrite <- E, last_char_append.
    destruct Hlast as [-> | (c & Hc & Hwc)].
    + now apply last_char_forallb.
    + destruct w3; [discriminate|]. now exists c.
Qed.

(** The term group: a word, then further words after white space. *)
Lemma matches_term_group s caps s' caps' :
  matches (Seq word (Star (Seq spaces word))) s caps s' caps' ->
  caps' = caps /\
  exists w, s = (w ++ s')%string
            /\ forallb_chars term_char w = true
            /\ (exists c, first_char w = Some c /\ in_class class_word c = true)
            /\ (exists c, last_char w = Some c /\ in_class class_word c = true).
Proof.
  intros H. inversion H; subst.
  match goal with Hwd : matches word _ _ _ _ |- _ =>
    apply matches_plus_class in Hwd as [-> (w1 & -> & Hne1 & Hw1)] end.
  match goal with Hst : matches (Star _) _ _ _ _ |- _ =>
    apply matches_more_words in Hst as [-> (w2 & -> & Hw2 & Hlast)] end.
  split; [reflexivity|].
  exists (w1 ++ w2)%string. split; [now rewrite <- append_assoc|].
  split.
  { rewrite forallb_chars_append, Hw2.
    rewrite (forallb_chars_impl (in_class class_word) term_char w1);
      [reflexivity | intros c Hc; unfold term_char; now rewrite Hc | exact Hw1]. }
  split.
  - destruct (first_char_forallb _ _ Hne1 Hw1) as (c & Hc & Hwc).
    exists c. split; [| exact Hwc]. destruct w1; [congruence | exact Hc].
  - rewrite last_char_append.
    destruct Hlast as [-> | (c & Hc & Hwc)].
    + now apply last_char_forallb.
    + destruct w2; [discriminate|]. now exists c.
Qed.

(** The tail of the three term patterns: group 2 holds the term, and
    the term lies in the input. *)
Lemma matches_quoted_term s caps s' caps' :
  matches quoted_term s caps s' caps' ->
  exists w before after,
    lookup_group 2 caps' = Some w
    /\ s = (before ++ w ++ after)%string
    /\ forallb_chars term_char w = true
    /\ (exists c, first_char w = Some c /\ in_class class_word c = true)
    /\ (exists c, last_char w = Some c /\ in_class class_word c = true).
Proof.
  unfold quoted_term. intros H.
  inversion H as [| | | ? ? ? ? s1 caps1 ? ? Hq Hrest | | | | | | | |]; subst.
  apply matches_consumes in Hq as (q & ->).
  inversion Hrest as [| | | ? ? ? ? s2 caps2 ? ? Hterm Hback | | | | | | | |]; subst.
  inversion Hback; subst.
  inversion Hterm as [| | | | | | | | | | ? ? ? ? ? caps3 Hbody |]; subst.
  apply matches_term_group in Hbody as [-> (w & Hw & Hchars & Hfirst & Hlast)].
  match goal with |- context [(?t ++ s')%string] =>
    exists w, q, (t ++ s')%string end.
  rewrite Hw. simpl lookup_group.
  rewrite length_append, Nat.add_sub, take_append.
  repeat split; assumption.
Qed.

Lemma contains_append_l w a s :
  contains w s = true -> contains w (a ++ s) = true.
Proof.
  intros H. induction a as [| c a IH]; [exact H|].
  change (String c a ++ s)%string with (String c (a ++ s)).
  cbn [contains]. rewrite IH. apply orb_true_r.
Qed.

Lemma contains_infix w before after :
  contains w (before ++ w ++ after) = true.
Proof.
  apply contains_append_l.
  assert (H : prefix w (w ++ after) = true) by (apply prefix_append; eauto).
  destruct (w ++ after)%string; cbn [contains]; now rewrite H.
Qed.

Lemma contains_infix_iff w s :
  contains w s = true <-> exists before after, s = (before ++ w ++ after)%string.
Proof.
  split.
  - induction s as [| c s IH]; cbn [contains]; intros H.
    + rewrite orb_false_r in H. apply prefix_append in H as (rest & ->).
      now exists EmptyString, rest.
    + apply orb_true_iff in H as [H | H].
      * apply prefix_append in H as (rest & ->). now exists EmptyString, rest.
      * destruct (IH H) as (before & after & ->).
        now exists (String c before), after.
  - intros (before & after & ->). apply contains_infix.
Qed.

(** Every pattern of either record of [term_patterns] ends in the quoted
    term, and what it matches before leaves the input a suffix. *)
Lemma term_pattern_group_governance p s term :
  In p term_patterns_governance ->
  search_group p 2 s = Some term ->
  contains term s = true
  /\ forallb_chars term_char term = true
  /\ (exists c, first_char term = Some c /\ in_class class_word c = true)
  /\ (exists c, last_char term = Some c /\ in_class class_word c = true).
Proof.
  intros Hp. unfold search_group.
  destruct (search p s) as [caps |] eqn:Hs; [| discriminate].
  apply search_sound in Hs as (before & s0 & s' & -> & Hm).
  assert (Hq : exists a sq capsq, s0 = (a ++ sq)%string
                                  /\ matches quoted_term sq capsq s' caps).
  { unfold term_patterns_governance, term_patterns, meaning_of_pattern in Hp.
    simpl in Hp.
    destruct Hp as [<- | [<- | [<- | [<- | []]]]].
    - inversion Hm as [| | | ? ? ? ? s1 caps1 ? ? H1 R1 | | | | | | | |]; subst.
      apply matches_consumes in H1 as (a1 & ->).
      inversion R1 as [| | | ? ? ? ? s2 caps2 ? ? H2 R2 | | | | | | | |]; subst.
      apply matches_consumes in H2 as (a2 & ->).
      inversion R2 as [| | | ? ? ? ? s3 caps3 ? ? H3 R3 | | | | | | | |]; subst.
      apply matches_consumes in H3 as (a3 & ->).
      inversion R3 as [| | | ? ? ? ? s4 caps4 ? ? H4 R4 | | | | | | | |]; subst.
      apply matches_consumes in H4 as (a4 & ->).
      exists (a1 ++ a2 ++ a3 ++ a4)%string, s4, caps4.
      split; [now rewrite <- !append_assoc | exact R4].
    - inversion Hm as [| | | ? ? ? ? s1 caps1 ? ? H1 R1 | | | | | | | |]; subst.
      apply matches_consumes in H1 as (a1 & ->).
      inversion R1 as [| | | ? ? ? ? s2 caps2 ? ? H2 R2 | | | | | | | |]; subst.
      apply matches_consumes in H2 as (a2 & ->).
      exists (a1 ++ a2)%string, s2, caps2.
      split; [now rewrite <- !append_assoc | exact R2].
    - inversion Hm as [| | | ? ? ? ? s1 caps1 ? ? H1 R1 | | | | | | | |]; subst.
      apply matches_consumes in H1 as (a1 & ->).
      inversion R1 as [| | | ? ? ? ? s2 caps2 ? ? H2 R2 | | | | | | | |]; subst.
      apply matches_consumes in H2 as (a2 & ->).
      inversion R2 as [| | | ? ? ? ? s3 caps3 ? ? H3 R3 | | | | | | | |]; subst.
      apply matches_consumes in H3 as (a3 & ->).
      inversion R3 as [| | | ? ? ? ? s4 caps4 ? ? H4 R4 | | | | | | | |]; subst.
      apply matches_consumes in H4 as (a4 & ->).
      inversion R4 as [| | | ? ? ? ? s5 caps5 ? ? H5 R5 | | | | | | | |]; subst.
      apply matches_consumes in H5 as (a5 & ->).
      exists (a1 ++ a2 ++ a3 ++ a4 ++ a5)%string, s5, caps5.
      split; [now rewrite <- !append_assoc | exact R5].
    - inversion Hm as [| | | ? ? ? ? s1 caps1 ? ? H1 R1 | | | | | | | |]; subst.
      apply matches_consumes in H1 as (a1 & ->).
      inversion R1 as [| | | ? ? ? ? s2 caps2 ? ? H2 R2 | | | | | | | |]; subst.
      apply matches_consumes in H2 as (a2 & ->).
      inversion R2 as [| | | ? ? ? ? s3 caps3 ? ? H3 R3 | | | | | | | |]; subst.
      apply matches_consumes in H3 as (a3 & ->).
      inversion R3 as [| | | ? ? ? ? s4 caps4 ? ? H4 R4 | | | | | | | |]; subst.
      apply matches_consumes in H4 as (a4 & ->).
      exists (a1 ++ a2 ++ a3 ++ a4)%string, s4, caps4.
      split; [now rewrite <- !append_assoc | exact R4]. }
  destruct Hq as (a & sq & capsq & -> & Hquoted).
  apply matches_quoted_term in Hquoted
    as (w & b & after & Hgroup & -> & Hchars & Hfirst & Hlast).
  rewrite Hgroup. intros [= <-].
  split; [| now repeat split].
  apply contains_infix_iff. exists (before ++ a ++ b)%string, after.
  now rewrite <- !append_assoc.
Qed.

(** The same for the three patterns of the flow document. *)
Lemma term_pattern_group p s term :
  In p term_patterns ->
  search_group p 2 s = Some term ->
  contains term s = true
  /\ forallb_chars term_char term = true
  /\ (exists c, first_char term = Some c /\ in_class class_word c = true)
  /\ (exists c, last_char term = Some c /\ in_class class_word c = true).
Proof.
  intros Hp. apply term_pattern_group_governance.
  unfold term_patterns_governance. apply in_or_app. now left.
Qed.

Lemma lower_char_not_upper c : is_upper (lower_char c) = false.
Proof.
  destruct c as [b0 b1 b2 b3 b4 b5 b6 b7].
  destruct b0, b1, b2, b3, b4, b5, b6, b7; reflexivity.
Qed.

Lemma lower_no_upper s :
  forallb_chars (fun c => negb (is_upper c)) (lower s) = true.
Proof.
  induction s as [| c s IH]; [reflexivity|].
  unfold lower in *. simpl. now rewrite lower_char_not_upper, IH.
Qed.

Lemma lower_fixed s :
  forallb_chars (fun c => negb (is_upper c)) s = true -> lower s = s.
Proof.
  induction s as [| c s IH]; [reflexivity|]. simpl. intros H.
  apply andb_true_iff in H as [Hc Hs]. apply negb_true_iff in Hc.
  unfold lower in *. simpl. rewrite (IH Hs). unfold lower_char. now rewrite Hc.
Qed.

Lemma term_char_plain c : term_char c = true -> no_percent_no_escape c = true.
Proof.
  destruct c as [b0 b1 b2 b3 b4 b5 b6 b7].
  destruct b0, b1, b2, b3, b4, b5, b6, b7; (reflexivity || discriminate).
Qed.

(** What [classify] hands to the definition lookup, in one lemma. *)
Lemma classify_definition_term query term :
  classify query = definition term ->
  contains term (lower query) = true
  /\ forallb_chars term_char term = true
  /\ (exists c, first_char term = Some c /\ in_class class_word c = true)
  /\ (exists c, last_char term = Some c /\ in_class class_word c = true).
Proof.
  unfold classify, no_term_found, extract_term.
  destruct (is_definition_query query).
  - destruct (first_match term_patterns (lower query)) as [t |] eqn:Hf;
      [| discriminate].
    intros [= ->].
    apply first_match_spec in Hf as (earlier & p & later & Hl & _ & Hg).
    apply (term_pattern_group p); [| exact Hg].
    rewrite Hl. apply in_or_app. right. now left.
  - destruct (section_match query); discriminate.
Qed.

(** X6. Whatever text the term patterns are searched in, the query or
    its lowered form, the term that any of the four recorded patterns
    extracts as its group 2 is never empty, is made of word characters and
    white space only, begins and ends with a word character (so it
    carries no quote, no [%] and no backslash), and occurs in the text
    searched; it is in lower case when that text is. *)
Theorem definition_term_shape p s term :
  In p term_patterns_governance ->
  search_group p 2 s = Some term ->
  term <> EmptyString
  /\ forallb_chars term_char term = true
  /\ (exists c, first_char term = Some c /\ in_class class_word c = true)
  /\ (exists c, last_char term = Some c /\ in_class class_word c = true)
  /\ forallb_chars no_percent_no_escape term = true
  /\ contains term s = true
  /\ (lower s = s -> lower term = term).
Proof.
  intros Hp H.
  apply (term_pattern_group_governance p) in H as (Hin & Hchars & Hfirst & Hlast);
    [| exact Hp].
  split.
  { destruct Hfirst as (c & Hc & _). destruct term; [discriminate | congruence]. }
  repeat split; try assumption.
  - eapply forallb_chars_impl; [exact term_char_plain | exact Hchars].
  - intros Hlow. apply lower_fixed.
    apply contains_infix_iff in Hin as (before & after & Hq).
    pose proof (lower_no_upper s) as Hl. rewrite Hlow, Hq in Hl.
    rewrite !forallb_chars_append in Hl.
    apply andb_true_iff in Hl as [_ Hl]. now apply andb_true_iff in Hl as [Hl _].
Qed.

Lemma definition_term_shape_witness :
  "memorandum definition" <> EmptyString
  /\ forallb_chars term_char "memorandum definition" = true
  /\ (exists c, first_char "memorandum definition" = Some c
                /\ in_class class_word c = true)
  /\ (exists c, last_char "memorandum definition" = Some c
                /\ in_class class_word c = true)
  /\ forallb_chars no_percent_no_escape "memorandum definition" = true
  /\ contains "memorandum definition" "what is memorandum definition?" = true
  /\ (lower "what is memorandum definition?" = "what is memorandum definition?" ->
      lower "memorandum definition" = "memorandum definition").
Proof.
  apply (definition_term_shape
           (Seq (Lit "what")
              (Seq spaces
                 (Seq (Lit "is")
                    (Seq spaces
                       (Seq (Opt (Alt (Seq (Lit "a") spaces) (Seq (Lit "an") spaces)))
                          quoted_term)))))
           "what is memorandum definition?").
  - right. right. left. reflexivity.
  - vm_compute. reflexivity.
Defined.

(** ** The definition lookup misses no chunk *)

Lemma like_prefix_complete p s :
  forallb_chars no_percent_no_escape p = true ->
  prefix p s = true -> like (p ++ "%") s = true.
Proof.
  revert s; induction p as [| c p IH]; intros s Hp Hpre.
  - simpl append. apply like_percent.
  - simpl in Hp. apply andb_true_iff in Hp as [Hc Hp].
    unfold no_percent_no_escape in Hc. apply negb_true_iff in Hc.
    apply orb_false_iff in Hc as [Hc1 Hc2].
    destruct s as [| d s]; [discriminate|]. simpl in Hpre.
    destruct (ascii_dec c d) as [-> | Hne]; [| discriminate].
    simpl. rewrite Hc1, Hc2, Ascii.eqb_refl. simpl.
    rewrite (IH s Hp Hpre). now destruct (Ascii.eqb d "_"%char).
Qed.

Lemma like_contains_complete p s :
  forallb_chars no_percent_no_escape p = true ->
  contains p s = true -> like ("%" ++ p ++ "%") s = true.
Proof.
  intros Hp. simpl append. cbn [like]. rewrite Ascii.eqb_refl.
  induction s as [| c s IH]; cbn [contains]; intros H.
  - rewrite orb_false_r in H. now rewrite (like_prefix_complete p _ Hp H).
  - apply orb_true_iff in H as [H | H].
    + now rewrite (like_prefix_complete p _ Hp H).
    + rewrite (IH H). apply orb_true_r.
Qed.

Lemma In_firstn_all {A : Type} (n : nat) (l : list A) (x : A) :
  List.length l <= n -> In x l -> In x (firstn n l).
Proof. intros Hlen Hin. now rewrite firstn_all2. Qed.

(** X7. The definition lookup has no false negative on the terms of the
    classifier: for a query classified as a definition query, every Act
    chunk of section 002 whose lowered text contains the term satisfies
    the WHERE clause (the term holds no [%] and no backslash, and an
    underscore in it matches itself), and is returned when the clause is
    satisfied by at most five rows. *)
Theorem definition_lookup_complete db query term ci cc t :
  classify query = definition term ->
  In ci (chunks_identity db) ->
  section ci = Some "002" ->
  document_type ci = act ->
  find_content db (chunk_id ci) = Some cc ->
  text cc = Some t ->
  contains term (lower t) = true ->
  definition_row db term ci = true
  /\ (List.length (filter (definition_row db term) (chunks_identity db)) <= 5 ->
      In (chunk_id ci) (direct_definition_lookup db term)).
Proof.
  intros Hcl Hin Hsec Hdt Hcc Ht Hsub.
  apply classify_definition_term in Hcl as (Hq & Hchars & _ & _).
  assert (Hlow : lower term = term).
  { apply lower_fixed.
    apply contains_infix_iff in Hq as (before & after & Hq).
    pose proof (lower_no_upper query) as Hl. rewrite Hq in Hl.
    rewrite !forallb_chars_append in Hl.
    apply andb_true_iff in Hl as [_ Hl]. now apply andb_true_iff in Hl as [Hl _]. }
  assert (Hrow : definition_row db term ci = true).
  { unfold definition_row, column_eqb, document_type_eqb, text_matches.
    rewrite Hsec, Hdt, Hcc, Ht, Hlow. simpl.
    destruct (document_type_eq_dec act act); [| congruence]. simpl.
    apply like_contains_complete; [| exact Hsub].
    eapply forallb_chars_impl; [exact term_char_plain | exact Hchars]. }
  split; [exact Hrow|]. intros Hlen.
  unfold direct_definition_lookup. apply in_map.
  apply In_firstn_all; [exact Hlen|]. apply filter_In. now split.
Qed.

Lemma definition_lookup_complete_witness :
  definition_row example_db "memorandum"
    (identity_row "ca2013_act_s002_p001" parent None act statutory true
       (Some "002")) = true
  /\ (List.length (filter (definition_row example_db "memorandum")
                     (chunks_identity example_db)) <= 5 ->
      In "ca2013_act_s002_p001" (direct_definition_lookup example_db "memorandum")).
Proof.
  apply (definition_lookup_complete example_db
           "What is the definition of memorandum?" "memorandum"
           (identity_row "ca2013_act_s002_p001" parent None act statutory true
              (Some "002"))
           (content_row "ca2013_act_s002_p001" "Definitions" (memorandum_text "56"))
           (memorandum_text "56")).
  - vm_compute. reflexivity.
  - right. left. reflexivity.
  - reflexivity.
  - reflexivity.
  - reflexivity.
  - reflexivity.
  - vm_compute. reflexivity.
Defined.

(** ** Chunk details depend on the set of ids only *)

Lemma existsb_eqb_In (x : string) (ids : list string) :
  existsb (String.eqb x) ids = true <-> In x ids.
Proof.
  rewrite existsb_exists. split.
  - intros (y & Hy & E). apply String.eqb_eq in E. now subst.
  - intros H. exists x. split; [exact H | apply String.eqb_refl].
Qed.

Lemma filter_map_In {A B : Type} (f : A -> option B) l y :
  In y (filter_map f l) <-> exists x, In x l /\ f x = Some y.
Proof.
  induction l as [| a l IH]; simpl.
  - split; [intros [] | intros (x & [] & _)].
  - destruct (f a) as [b |] eqn:E; simpl; rewrite IH; split.
    + intros [<- | (x & Hx & Hf)]; eauto.
    + intros (x & [<- | Hx] & Hf); [left; congruence | right; eauto].
    + intros (x & Hx & Hf); eauto.
    + intros (x & [<- | Hx] & Hf); [congruence | eauto].
Qed.

(** X8. [get_chunk_details] depends only on the set of the ids it is given:
    their order and repetitions change nothing, so the parent-first order of
    the section lookup and the nearest-first order of the vector search do
    not reach the answer generator. Its rows are exactly the joins of the
    identity rows whose id was asked for and that have a content row; an id
    that is unknown is dropped without an error. *)
Theorem get_chunk_details_by_set db ids1 ids2 :
  (forall id, In id ids1 <-> In id ids2) ->
  get_chunk_details db ids1 = get_chunk_details db ids2
  /\ forall d, In d (get_chunk_details db ids1) <->
       exists ci, In ci (chunks_identity db)
                  /\ In (chunk_id ci) ids2
                  /\ join_detail db ci = Some d.
Proof.
  intros Hset.
  assert (Hf : filter (fun ci => existsb (String.eqb (chunk_id ci)) ids1)
                 (chunks_identity db)
               = filter (fun ci => existsb (String.eqb (chunk_id ci)) ids2)
                   (chunks_identity db)).
  { apply filter_ext. intros ci.
    destruct (existsb (String.eqb (chunk_id ci)) ids2) eqn:E.
    - apply existsb_eqb_In. apply Hset. now apply existsb_eqb_In.
    - apply not_true_iff_false. intros H. apply existsb_eqb_In in H.
      apply Hset in H. apply existsb_eqb_In in H. congruence. }
  unfold get_chunk_details. rewrite Hf. split; [reflexivity|].
  intros d. rewrite order_by_In, filter_map_In. split.
  - intros (ci & Hci & Hj). apply filter_In in Hci as [Hin He].
    exists ci. repeat split; [exact Hin | now apply existsb_eqb_In | exact Hj].
  - intros (ci & Hin & Hid & Hj). exists ci. split; [| exact Hj].
    apply filter_In. split; [exact Hin | now apply existsb_eqb_In].
Qed.

Lemma get_chunk_details_by_set_witness :
  get_chunk_details example_db ["ca2013_act_s017_p001"; "ca2013_act_s017_c01"]
  = get_chunk_details example_db
      ["ca2013_act_s017_c01"; "ca2013_act_s017_p001"; "ca2013_act_s017_c01"].
Proof.
  destruct (get_chunk_details_by_set example_db
              ["ca2013_act_s017_p001"; "ca2013_act_s017_c01"]
              ["ca2013_act_s017_c01"; "ca2013_act_s017_p001"; "ca2013_act_s017_c01"])
    as [H _]; [| exact H].
  intros id. simpl. tauto.
Defined.

(** ** Positions of the index and the metadata *)

Lemma py_index_defined {A : Type} (l : list A) (i : Z) :
  (exists x, py_index l i = Some x)
  <-> (- Z.of_nat (List.length l) <= i < Z.of_nat (List.length l))%Z.
Proof.
  unfold py_index.
  destruct (Z.leb_spec 0 i) as [Hi | Hi].
  - split.
    + intros (x & Hx).
      assert (Hlt : Z.to_nat i < List.length l)
        by (apply nth_error_Some; congruence).
      lia.
    + intros [_ Hlt].
      destruct (nth_error l (Z.to_nat i)) eqn:E; [eauto|].
      apply nth_error_None in E. lia.
  - destruct (Z.leb_spec (- Z.of_nat (List.length l)) i) as [Hn | Hn].
    + split; [lia|]. intros _.
      destruct (nth_error l (Z.to_nat (Z.of_nat (List.length l) + i))) eqn:E;
        [eauto|].
      apply nth_error_None in E. lia.
    + split; [intros (x & Hx); discriminate | lia].
Qed.

Lemma py_index_from_end {A : Type} (l : list A) (k : nat) (default : A) :
  0 < k <= List.length l ->
  py_index l (- Z.of_nat k) = Some (nth (List.length l - k) l default).
Proof.
  intros Hk. unfold py_index.
  destruct (Z.leb_spec 0 (- Z.of_nat k)); [lia|].
  destruct (Z.leb_spec (- Z.of_nat (List.length l)) (- Z.of_nat k)); [| lia].
  replace (Z.to_nat (Z.of_nat (List.length l) + - Z.of_nat k))
    with (List.length l - k) by lia.
  apply nth_error_nth'. lia.
Qed.

(** X9. The comprehension that maps the hits of the index to chunk ids
    returns exactly when every position lies between minus the length of
    the metadata and its length; otherwise it raises IndexError, its only
    failure. A negative position does not fail: it counts from the end of
    the metadata, so the filler position -1 of an index that holds fewer
    vectors than were asked for is reported as the last chunk. *)
Theorem map_to_chunk_ids_positions metadata hits :
  let n := Z.of_nat (List.length metadata) in
  (Forall (fun hit => (- n <= fst hit < n)%Z) hits ->
   exists results,
     map_to_chunk_ids metadata hits = Returned results
     /\ List.length results = List.length hits)
  /\ (~ Forall (fun hit => (- n <= fst hit < n)%Z) hits ->
      map_to_chunk_ids metadata hits = Raised IndexError)
  /\ (forall k d, 0 < k <= List.length metadata ->
        map_to_chunk_ids metadata [((- Z.of_nat k)%Z, d)]
        = Returned [ {| vr_chunk_id :=
                          nth (List.length metadata - k) metadata EmptyString;
                        vr_similarity_score := similarity_of_distance d |} ]).
Proof.
  intros n. unfold map_to_chunk_ids. repeat split.
  - induction 1 as [| hit hits Hhit _ (results & IH & Hlen)]; simpl.
    + now exists [].
    + apply py_index_defined in Hhit as (id & Hid). rewrite Hid. simpl.
      rewrite IH. simpl. eexists. split; [reflexivity|]. simpl. now rewrite Hlen.
  - induction hits as [| hit hits IH]; intros Hnot.
    + exfalso. apply Hnot. constructor.
    + simpl. destruct (py_index metadata (fst hit)) as [id |] eqn:Hid;
        [| reflexivity].
      simpl. rewrite IH; [reflexivity|].
      intros Hall. apply Hnot. constructor; [| exact Hall].
      apply py_index_defined. eauto.
  - intros k d Hk. simpl.
    now rewrite (py_index_from_end metadata k EmptyString Hk).
Qed.

Lemma map_to_chunk_ids_positions_witness :
  map_to_chunk_ids ["ca2013_act_s017_c01"; "textbook_ch3_c01"] [((-1)%Z, 1%Q)]
  = Returned [ {| vr_chunk_id := "textbook_ch3_c01";
                  vr_similarity_score := similarity_of_distance 1 |} ].
Proof.
  destruct (map_to_chunk_ids_positions
              ["ca2013_act_s017_c01"; "textbook_ch3_c01"] []) as (_ & _ & H).
  apply (H 1 1%Q). simpl. lia.
Defined.

Lemma similarity_antitone (d1 d2 : Q) :
  (d1 <= d2)%Q -> (similarity_of_distance d2 <= similarity_of_distance d1)%Q.
Proof.
  unfold similarity_of_distance, Qdiv. change (/ 2)%Q with (1 # 2)%Q.
  intros H. lra.
Qed.

(** X10. The conversion of distances to scores reverses the order: when
    the index returns its hits nearest first, the results of
    [search_vectors] carry scores that never increase along the list. *)
Theorem scores_follow_distances metadata hits results :
  map_to_chunk_ids metadata hits = Returned results ->
  StronglySorted (fun a b => (snd a <= snd b)%Q) hits ->
  StronglySorted
    (fun r1 r2 => (vr_similarity_score r2 <= vr_similarity_score r1)%Q) results.
Proof.
  intros H. apply map_to_chunk_ids_spec in H.
  induction H as [| hit r hits results [_ Hr] Hrest IH]; intros Hs.
  - constructor.
  - apply StronglySorted_inv in Hs as [Hs Hall]. constructor; [now apply IH|].
    rewrite Forall_forall in *. intros r' Hin.
    destruct (Forall2_In_r _ _ _ _ Hrest Hin) as (hit' & Hin' & _ & Hr').
    rewrite Hr, Hr'. apply similarity_antitone. now apply Hall.
Qed.

Lemma scores_follow_distances_witness :
  StronglySorted
    (fun r1 r2 => (vr_similarity_score r2 <= vr_similarity_score r1)%Q)
    [ {| vr_chunk_id := "ca2013_act_s017_c01";
         vr_similarity_score := similarity_of_distance (1 # 2) |};
      {| vr_chunk_id := "textbook_ch3_c01";
         vr_similarity_score := similarity_of_distance 1 |} ].
Proof.
  apply (scores_follow_distances ["ca2013_act_s017_c01"; "textbook_ch3_c01"]
           [(0%Z, (1 # 2)%Q); (1%Z, 1%Q)]).
  - reflexivity.
  - repeat constructor. simpl. discriminate.
Defined.

(** ** The context under two budgets *)

Lemma take_take (m n : nat) (s : string) :
  take m (take n s) = take (Nat.min m n) s.
Proof.
  revert n s; induction m as [| m IH]; intros n s; [reflexivity|].
  destruct n as [| n]; [reflexivity|].
  destruct s as [| c s]; [reflexivity|]. simpl. now rewrite IH.
Qed.

(** X11. A smaller budget keeps a prefix of what a larger one keeps: the
    context built with the budget of 6000 characters is the first 6000
    characters of the context that the budget of 8000 gave, so lowering the
    budget only drops the end of the context and changes nothing else. *)
Theorem build_context_budget_monotone (m n : nat) chunks :
  m <= n ->
  build_context m chunks = take m (build_context n chunks)
  /\ prefix (build_context m chunks) (build_context n chunks) = true.
Proof.
  intros Hmn. unfold build_context.
  assert (E : take m (take n (join context_separator (map context_part chunks)))
              = take m (join context_separator (map context_part chunks))).
  { rewrite take_take. now rewrite Nat.min_l. }
  split; [now rewrite E|].
  rewrite <- E. apply prefix_append.
  exists (drop m (take n (join context_separator (map context_part chunks)))).
  now rewrite take_drop.
Qed.

Lemma build_context_budget_monotone_witness :
  build_context 40 (get_chunk_details example_db ["ca2013_act_s017_p001"])
  = take 40
      (build_context 60 (get_chunk_details example_db ["ca2013_act_s017_p001"]))
  /\ prefix
       (build_context 40 (get_chunk_details example_db ["ca2013_act_s017_p001"]))
       (build_context 60 (get_chunk_details example_db ["ca2013_act_s017_p001"]))
     = true.
Proof.
  apply (build_context_budget_monotone 40 60
           (get_chunk_details example_db ["ca2013_act_s017_p001"])).
  apply Nat.leb_le. reflexivity.
Defined.

(** ** A definition lookup and the formatter *)

(** The rows that either record of the definition lookup hands on have a
    text, and the text satisfies the LIKE condition. *)
Lemma definition_details_match db term lookup d :
  In lookup definition_lookups ->
  In d (get_chunk_details db (lookup db term)) ->
  exists t, cd_text d = Some t
            /\ like ("%" ++ lower term ++ "%") (lower t) = true.
Proof.
  intros Hl. destruct (definition_lookups_rows db term lookup Hl)
    as (rows & -> & Hperm).
  unfold get_chunk_details. rewrite order_by_In, filter_map_In.
  intros (ci & Hci & Hj). apply filter_In in Hci as [_ Hid].
  apply existsb_eqb_In in Hid.
  apply in_map_iff in Hid as (ci' & Heq & Hin').
  apply In_firstn in Hin'. apply (Permutation_in _ Hperm) in Hin'.
  apply filter_In in Hin' as [_ Hrow].
  destruct (definition_row_spec _ _ _ Hrow) as (cc & t & _ & _ & Hcc & Ht & Hlike & _).
  rewrite Heq in Hcc. unfold join_detail in Hj. rewrite Hcc in Hj.
  injection Hj as <-. simpl. eauto.
Qed.

(** The formatter raises exactly when a chunk has no text. *)
Lemma format_chunks_raise scores tag details :
  (exists d, In d details /\ cd_text d = None)
  <-> map_outcome (format_chunk scores tag) details = Raised TypeError.
Proof.
  induction details as [| c details IH]; simpl.
  - split; [intros (d & [] & _) | discriminate].
  - unfold format_chunk at 1. destruct (cd_text c) as [t |] eqn:Ht; simpl.
    + destruct (map_outcome (format_chunk scores tag) details) as [views | e] eqn:Hm;
        simpl.
      * split; [| discriminate]. intros (d & [<- | Hd] & Hnone); [congruence|].
        assert (H : exists d, In d details /\ cd_text d = None) by eauto.
        apply IH in H. discriminate.
      * split; [| intros [= ->]; destruct (proj2 IH eq_refl) as (d & Hd & Hn); eauto].
        intros (d & [<- | Hd] & Hnone); [congruence|].
        assert (H : exists d, In d details /\ cd_text d = None) by eauto.
        apply IH in H. congruence.
    + split; [reflexivity | intros _; eauto].
Qed.

(** X12. The formatter of the response cannot fail on the chunks of a
    definition lookup. It raises a TypeError exactly when one of the
    chunks it is given has a NULL text, and the LIKE condition of the
    definition lookup, under either record of the query, excludes such a
    chunk: every chunk the lookup hands on has a text that matches the
    pattern, and whatever the term, the score map and the mark of the
    source are, the formatter returns one entry per chunk, in the order
    of the chunk details. *)
Theorem definition_lookup_formats db term scores tag :
  (forall details,
      (exists d, In d details /\ cd_text d = None)
      <-> map_outcome (format_chunk scores tag) details = Raised TypeError)
  /\ forall lookup, In lookup definition_lookups ->
       let details := get_chunk_details db (lookup db term) in
       Forall (fun d => exists t,
                   cd_text d = Some t
                   /\ like ("%" ++ lower term ++ "%") (lower t) = true) details
       /\ exists views,
            map_outcome (format_chunk scores tag) details = Returned views
            /\ map cv_chunk_id views = map cd_chunk_id details
            /\ List.length views = List.length details.
Proof.
  split; [intros details; apply format_chunks_raise|].
  intros lookup Hl details.
  assert (Hall : Forall (fun d => exists t,
                             cd_text d = Some t
                             /\ like ("%" ++ lower term ++ "%") (lower t) = true)
                   details).
  { apply Forall_forall. intros d. now apply definition_details_match. }
  split; [exact Hall|].
  destruct (format_chunks_total scores tag details) as (views & Hv).
  { eapply Forall_impl; [| exact Hall]. intros d (t & -> & _). discriminate. }
  exists views. split; [exact Hv|].
  destruct (format_chunks_returned _ _ _ _ Hv) as (Hids & _ & Hlen). now split.
Qed.

Lemma definition_lookup_formats_witness :
  exists views,
    map_outcome (format_chunk [] None)
      (get_chunk_details example_db
         (direct_definition_lookup_parent_first example_db "memorandum"))
    = Returned views
    /\ List.length views = 5.
Proof.
  destruct (definition_lookup_formats example_db "memorandum" [] None) as [_ H].
  destruct (H direct_definition_lookup_parent_first) as (_ & views & Hv & _ & Hlen).
  - right. left. reflexivity.
  - exists views. split; [exact Hv | exact Hlen].
Defined.

(** ** Section numbers: the classifier and the form agree *)

Lemma string_of_uint_digits d :
  forallb_chars is_digit (NilEmpty.string_of_uint d) = true.
Proof. induction d; simpl; auto. Qed.

Lemma to_uint_not_Nil n : Nat.to_uint n <> Decimal.Nil.
Proof.
  rewrite <- (DecimalNat.Unsigned.of_to n) at 1.
  rewrite DecimalNat.Unsigned.to_of. unfold Decimal.unorm.
  destruct (Decimal.nzhead (Nat.to_uint n)); discriminate.
Qed.

Lemma String_of_nat_digits n :
  String_of_nat n <> EmptyString
  /\ forallb_chars is_digit (String_of_nat n) = true.
Proof.
  unfold String_of_nat. split; [| apply string_of_uint_digits].
  pose proof (to_uint_not_Nil n) as H.
  destruct (Nat.to_uint n); [congruence | | | | | | | | | |]; discriminate.
Qed.

Lemma parse_digits_uint d (a : nat) :
  parse_digits 10 (NilEmpty.string_of_uint d) (Some (Z.of_nat a))
  = Some (Z.of_nat (Nat.of_uint_acc d a)).
Proof.
  revert a; induction d; intros a; simpl; [reflexivity | | | | | | | | | |];
    rewrite Nat.tail_mul_spec;
    match goal with
    | |- parse_digits _ _ (Some ?z) = Some (Z.of_nat (Nat.of_uint_acc _ ?m)) =>
        replace z with (Z.of_nat m) by lia; apply IHd
    end.
Qed.

Lemma parse_digits_zeros k s :
  parse_digits 10 (replicate k "0"%char ++ s) (Some 0%Z)
  = parse_digits 10 s (Some 0%Z).
Proof. induction k as [| k IH]; simpl; [reflexivity | exact IH]. Qed.

Lemma digit_value_digit c :
  is_digit c = true -> exists d, digit_value 10 c = Some d.
Proof.
  destruct c as [b0 b1 b2 b3 b4 b5 b6 b7].
  destruct b0, b1, b2, b3, b4, b5, b6, b7; try discriminate;
    intros _; eexists; reflexivity.
Qed.

Lemma parse_digits_start s :
  s <> EmptyString -> forallb_chars is_digit s = true ->
  parse_digits 10 s None = parse_digits 10 s (Some 0%Z).
Proof.
  destruct s as [| c s]; [congruence|]. intros _ H. simpl in H.
  apply andb_true_iff in H as [Hc _].
  destruct (digit_value_digit c Hc) as (d & Hd).
  cbn [parse_digits]. rewrite Hd. reflexivity.
Qed.

(** On a string of digits [parseInt] only reads the digits. *)
Lemma parseInt_digits s :
  forallb_chars is_digit s = true ->
  parseInt s = match parse_digits 10 s None with
               | Some z => Num z
               | None => NaN
               end.
Proof.
  intros H. unfold parseInt.
  assert (Htrim : trim_start s = s).
  { destruct s as [| c s]; [reflexivity|]. simpl in H.
    apply andb_true_iff in H as [Hc _]. simpl.
    destruct c as [b0 b1 b2 b3 b4 b5 b6 b7].
    destruct b0, b1, b2, b3, b4, b5, b6, b7; (reflexivity || discriminate). }
  rewrite Htrim.
  destruct s as [| c s]; [reflexivity|].
  simpl in H. apply andb_true_iff in H as [Hc Hs].
  assert (Hminus : Ascii.eqb c "-"%char = false).
  { destruct c as [b0 b1 b2 b3 b4 b5 b6 b7].
    destruct b0, b1, b2, b3, b4, b5, b6, b7; (reflexivity || discriminate). }
  assert (Hplus : Ascii.eqb c "+"%char = false).
  { destruct c as [b0 b1 b2 b3 b4 b5 b6 b7].
    destruct b0, b1, b2, b3, b4, b5, b6, b7; (reflexivity || discriminate). }
  rewrite Hminus, Hplus.
  assert (Hx : (prefix "0x" (String c s) || prefix "0X" (String c s))%bool = false).
  { apply orb_false_iff. split; apply not_true_iff_false; intros E;
      apply prefix_append in E as (rest & E); injection E as -> ->;
      simpl in Hs; discriminate. }
  rewrite Hx.
  destruct (parse_digits 10 (String c s) None) as [z |]; [| reflexivity].
  f_equal. now destruct z.
Qed.

Lemma parseInt_padded k n :
  parseInt (replicate k "0"%char ++ String_of_nat n) = Num (Z.of_nat n).
Proof.
  destruct (String_of_nat_digits n) as [Hne Hd].
  rewrite parseInt_digits.
  - rewrite parse_digits_start.
    + rewrite parse_digits_zeros. unfold String_of_nat.
      pose proof (parse_digits_uint (Nat.to_uint n) 0) as E.
      change (Z.of_nat 0) with 0%Z in E. rewrite E.
      change (Nat.of_uint_acc (Nat.to_uint n) 0) with (Nat.of_uint (Nat.to_uint n)).
      now rewrite DecimalNat.Unsigned.of_to.
    + destruct k; simpl; [exact Hne | discriminate].
    + rewrite forallb_chars_append, Hd, andb_true_r.
      clear. induction k; simpl; auto.
  - rewrite forallb_chars_append, Hd, andb_true_r.
    clear. induction k; simpl; auto.
Qed.

(** A greedy run over characters of one class takes all of them when
    what follows succeeds at the end of the input. *)
Lemma star_loop_class_all c k w caps res :
  forallb_chars (in_class c) w = true ->
  k EmptyString caps = Some res ->
  forall fuel, length w <= fuel ->
    star_loop (match_here (Class c)) k fuel w caps = Some res.
Proof.
  intros Hw Hk. induction w as [| a w IH]; intros fuel Hfuel.
  - destruct fuel; simpl; exact Hk.
  - simpl in Hw. apply andb_true_iff in Hw as [Ha Hw].
    destruct fuel as [| fuel]; [simpl in Hfuel; lia|].
    assert (Hlt : Nat.ltb (length w) (length (String a w)) = true)
      by (apply Nat.ltb_lt; simpl; lia).
    rewrite star_loop_step. cbn [match_here]. rewrite Ha. cbn beta.
    rewrite Hlt.
    match goal with |- context [star_loop ?b k fuel w caps] =>
      change (star_loop b k fuel w caps)
        with (star_loop (match_here (Class c)) k fuel w caps) end.
    rewrite (IH Hw fuel); [reflexivity | simpl in Hfuel; lia].
Qed.

Lemma digit_not_space c : is_digit c = true -> in_class class_space c = false.
Proof.
  destruct c as [b0 b1 b2 b3 b4 b5 b6 b7].
  destruct b0, b1, b2, b3, b4, b5, b6, b7; (reflexivity || discriminate).
Qed.

Lemma digit_not_upper c : is_digit c = true -> is_upper c = false.
Proof.
  destruct c as [b0 b1 b2 b3 b4 b5 b6 b7].
  destruct b0, b1, b2, b3, b4, b5, b6, b7; (reflexivity || discriminate).
Qed.

Lemma lower_digits s : forallb_chars is_digit s = true -> lower s = s.
Proof.
  intros H. apply lower_fixed.
  eapply forallb_chars_impl; [| exact H].
  intros c Hc. now rewrite digit_not_upper.
Qed.

Lemma map_chars_append f a b :
  map_chars f (a ++ b) = (map_chars f a ++ map_chars f b)%string.
Proof. induction a as [| c a IH]; simpl; [reflexivity | now rewrite IH]. Qed.

Lemma match_here_lit t s caps k :
  match_here (Lit t) (t ++ s) caps k = k s caps.
Proof.
  cbn [match_here].
  assert (H : prefix t (t ++ s) = true) by (apply prefix_append; eauto).
  now rewrite H, drop_append.
Qed.

Lemma match_here_class_hit c a s caps k :
  in_class c a = true -> match_here (Class c) (String a s) caps k = k s caps.
Proof. intros H. cbn [match_here]. now rewrite H. Qed.

Lemma star_loop_class_none c k fuel a s caps :
  in_class c a = false ->
  star_loop (match_here (Class c)) k fuel (String a s) caps = k (String a s) caps.
Proof.
  intros H. destruct fuel; [reflexivity|].
  rewrite star_loop_step. cbn [match_here]. now rewrite H.
Qed.

Lemma search_here r s caps :
  match_here r s [] (fun _ caps => Some caps) = Some caps ->
  search r s = Some caps.
Proof. intros H. destruct s; simpl; now rewrite H. Qed.

Lemma section_match_number digits :
  digits <> EmptyString -> forallb_chars is_digit digits = true ->
  section_match ("section " ++ digits) = Some digits.
Proof.
  intros Hne Hd. unfold section_match, lower.
  rewrite map_chars_append. fold (lower digits). rewrite (lower_digits _ Hd).
  change (map_chars lower_char "section ") with "section ".
  destruct digits as [| d ds]; [congruence|].
  simpl in Hd. apply andb_true_iff in Hd as [Hd Hds].
  unfold search_group.
  rewrite (search_here section_pattern _ [(1, String d ds)]); [reflexivity|].
  change ("section " ++ String d ds)%string
    with ("section" ++ String " " (String d ds))%string.
  unfold section_pattern, spaces, Plus.
  change (match_here (Seq ?r1 ?r2) ?s ?caps ?k)
    with (match_here r1 s caps (fun s' caps' => match_here r2 s' caps' k)).
  rewrite match_here_lit.
  change (match_here (Seq ?r1 ?r2) ?s ?caps ?k)
    with (match_here r1 s caps (fun s' caps' => match_here r2 s' caps' k)).
  change (match_here (Seq ?r1 ?r2) ?s ?caps ?k)
    with (match_here r1 s caps (fun s' caps' => match_here r2 s' caps' k)).
  rewrite match_here_class_hit by reflexivity.
  change (match_here (Star ?r) ?s ?caps ?k)
    with (star_loop (match_here r) k (length s) s caps).
  rewrite star_loop_class_none by (now apply digit_not_space).
  change (match_here (Group ?n ?r) ?s ?caps ?k)
    with (match_here r s caps
            (fun s' caps' => k s' ((n, take (length s - length s') s) :: caps'))).
  change (match_here (Seq ?r1 ?r2) ?s ?caps ?k)
    with (match_here r1 s caps (fun s' caps' => match_here r2 s' caps' k)).
  rewrite match_here_class_hit by exact Hd.
  change (match_here (Star ?r) ?s ?caps ?k)
    with (star_loop (match_here r) k (length s) s caps).
  apply star_loop_class_all; [exact Hds | | lia].
  cbn [length]. rewrite Nat.sub_0_r.
  change (S (length ds)) with (length (String d ds)).
  pose proof (take_append (String d ds) EmptyString) as E.
  rewrite append_empty_r in E. now rewrite E.
Qed.

Lemma section_query_not_definition digits :
  forallb_chars is_digit digits = true ->
  is_definition_query ("section " ++ digits) = false.
Proof.
  intros Hd. unfold is_definition_query, lower.
  rewrite map_chars_append. fold (lower digits). rewrite (lower_digits _ Hd).
  change (map_chars lower_char "section ") with "section ".
  assert (Htail : forall keyword c rest,
             keyword = String c rest -> is_digit c = false ->
             contains keyword digits = false).
  { intros keyword c rest -> Hc.
    induction digits as [| d ds IH]; [reflexivity|].
    simpl in Hd. apply andb_true_iff in Hd as [Hd Hds].
    cbn [contains prefix].
    destruct (ascii_dec c d) as [-> | _]; [congruence|].
    now rewrite (IH Hds). }
  unfold definition_keywords. cbn [existsb].
  repeat match goal with
  | |- context [contains ?kw ("section " ++ digits)] =>
      let H := fresh "H" in
      assert (H : contains kw ("section " ++ digits) = false);
      [ simpl append; cbn [contains prefix];
        repeat match goal with
        | |- context [ascii_dec ?a ?b] =>
            destruct (ascii_dec a b); [discriminate|]
        end;
        cbn [orb];
        eapply Htail; [reflexivity | reflexivity]
      | rewrite H; clear H ]
  end.
  reflexivity.
Qed.

Lemma classify_section_digits digits :
  digits <> EmptyString -> forallb_chars is_digit digits = true ->
  classify ("section " ++ digits) = section_query (padStart 3 "0"%char digits).
Proof.
  intros Hne Hd. unfold classify.
  rewrite (section_query_not_definition digits Hd).
  rewrite (section_match_number digits Hne Hd).
  unfold padStart. now rewrite (zfill_digits 3 digits Hd).
Qed.

(** X13. A query that is the word section, a blank and a number in
    digits is classified as a section query for that number, and the key
    is the number padded with zeros on the left to three digits: no
    definition keyword can occur in such a query, and the greedy digit
    group takes the whole number. *)
Theorem classify_section_number digits :
  digits <> EmptyString -> forallb_chars is_digit digits = true ->
  classify ("section " ++ digits) = section_query (padStart 3 "0"%char digits).
Proof.
  intros Hne Hd.
  assert (Hdef : is_definition_query ("section " ++ digits) = false)
    by now apply section_query_not_definition.
  assert (Hsec : section_match ("section " ++ digits) = Some digits)
    by now apply section_match_number.
  unfold classify. rewrite Hdef, Hsec.
  unfold padStart. now rewrite (zfill_digits 3 digits Hd).
Qed.

Lemma classify_section_number_witness :
  classify ("section " ++ "134") = section_query (padStart 3 "0"%char "134").
Proof.
  apply (classify_section_number "134"); [discriminate | reflexivity].
Defined.

(** ** The section keys of the form *)

Lemma padStart_digits k n :
  parseInt (padStart k "0"%char (String_of_nat n)) = Num (Z.of_nat n).
Proof. unfold padStart. apply parseInt_padded. Qed.

Lemma section_key_injective i j :
  padStart 3 "0"%char (String_of_nat (i + 1))
  = padStart 3 "0"%char (String_of_nat (j + 1)) -> i = j.
Proof.
  intros H. apply (f_equal parseInt) in H. rewrite !padStart_digits in H.
  injection H as H. lia.
Qed.

Lemma NoDup_map_injective {A B : Type} (f : A -> B) l :
  (forall x y, f x = f y -> x = y) -> NoDup l -> NoDup (map f l).
Proof.
  intros Hinj. induction 1 as [| x l Hx _ IH]; simpl; constructor; [| exact IH].
  intros Hin. apply in_map_iff in Hin as (y & Hy & Hin).
  apply Hinj in Hy. now subst.
Qed.

Lemma nth_COMPANIES_ACT_SECTIONS i :
  i < 470 ->
  nth i COMPANIES_ACT_SECTIONS EmptyString
  = padStart 3 "0"%char (String_of_nat (i + 1)).
Proof.
  intros Hi. unfold COMPANIES_ACT_SECTIONS.
  rewrite (nth_indep _ EmptyString (padStart 3 "0"%char (String_of_nat (0 + 1))))
    by (now rewrite length_map, length_seq).
  rewrite (map_nth (fun i => padStart 3 "0"%char (String_of_nat (i + 1)))).
  now rewrite seq_nth.
Qed.

(** X14. The table [COMPANIES_ACT_SECTIONS] of the form holds 470 keys,
    no two alike, and its entry at position i is the number i + 1 in
    exactly three digits. The key is the one the query classifier derives
    for that section, so the form and the retrieval side name a section
    the same way; and the label the form shows for it, [parseInt] of the
    key, is the number again. *)
Theorem COMPANIES_ACT_SECTIONS_keys :
  List.length COMPANIES_ACT_SECTIONS = 470
  /\ NoDup COMPANIES_ACT_SECTIONS
  /\ forall i, i < 470 ->
       let key := nth i COMPANIES_ACT_SECTIONS EmptyString in
       key = padStart 3 "0"%char (String_of_nat (i + 1))
       /\ length key = 3
       /\ forallb_chars is_digit key = true
       /\ classify ("section " ++ String_of_nat (i + 1)) = section_query key
       /\ IngestionForm.section_label key = Some (Z.of_nat (i + 1)).
Proof.
  split; [unfold COMPANIES_ACT_SECTIONS; now rewrite length_map, length_seq|].
  split.
  { unfold COMPANIES_ACT_SECTIONS. apply NoDup_map_injective.
    - intros i j. apply section_key_injective.
    - apply seq_NoDup. }
  intros i Hi key. subst key. rewrite (nth_COMPANIES_ACT_SECTIONS i Hi).
  destruct (String_of_nat_digits (i + 1)) as [Hne Hd].
  split; [reflexivity|]. split.
  { assert (Hall : forallb (fun s => Nat.eqb (length s) 3) COMPANIES_ACT_SECTIONS
                   = true) by (vm_compute; reflexivity).
    rewrite forallb_forall in Hall.
    rewrite <- (nth_COMPANIES_ACT_SECTIONS i Hi).
    apply Nat.eqb_eq, Hall, nth_In.
    unfold COMPANIES_ACT_SECTIONS. now rewrite length_map, length_seq. }
  split.
  { unfold padStart. rewrite forallb_chars_append, Hd, andb_true_r.
    generalize (3 - length (String_of_nat (i + 1))). intros k.
    induction k; simpl; auto. }
  split.
  - apply classify_section_digits; assumption.
  - unfold IngestionForm.section_label. now rewrite padStart_digits.
Qed.

Lemma COMPANIES_ACT_SECTIONS_keys_witness :
  nth 16 COMPANIES_ACT_SECTIONS EmptyString
  = padStart 3 "0"%char (String_of_nat (16 + 1))
  /\ length (nth 16 COMPANIES_ACT_SECTIONS EmptyString) = 3
  /\ forallb_chars is_digit (nth 16 COMPANIES_ACT_SECTIONS EmptyString) = true
  /\ classify ("section " ++ String_of_nat (16 + 1))
     = section_query (nth 16 COMPANIES_ACT_SECTIONS EmptyString)
  /\ IngestionForm.section_label (nth 16 COMPANIES_ACT_SECTIONS EmptyString)
     = Some (Z.of_nat (16 + 1)).
Proof.
  destruct COMPANIES_ACT_SECTIONS_keys as (_ & _ & H).
  apply (H 16). apply Nat.ltb_lt. reflexivity.
Defined.

(** ** The tables of document types *)

(** X15. The three tables of document types agree with each other and
    with [document_type_enum]: every type of the schema is in exactly one
    of [BINDING_DOCUMENT_TYPES] and [NON_BINDING_DOCUMENT_TYPES], it has
    one entry in [ALL_DOCUMENT_TYPES] of the form, and the [binding] flag
    of that entry says which list it is in; and the tables name nothing
    but types of the schema. *)
Theorem document_type_tables :
  (forall d : document_type_enum,
      let name := document_type_name d in
      includes BINDING_DOCUMENT_TYPES name
      = negb (includes NON_BINDING_DOCUMENT_TYPES name)
      /\ exists entry,
           IngestionForm.find_document_type (IngestionForm.str name) = Some entry
           /\ IngestionForm.value entry = name
           /\ IngestionForm.binding entry = includes BINDING_DOCUMENT_TYPES name
           /\ List.length
                (filter (fun e => String.eqb (IngestionForm.value e) name)
                   IngestionForm.ALL_DOCUMENT_TYPES) = 1)
  /\ (forall name,
        In name (BINDING_DOCUMENT_TYPES ++ NON_BINDING_DOCUMENT_TYPES
                 ++ map IngestionForm.value IngestionForm.ALL_DOCUMENT_TYPES) ->
        exists d, document_type_name d = name)
  /\ NoDup (BINDING_DOCUMENT_TYPES ++ NON_BINDING_DOCUMENT_TYPES).
Proof.
  split; [| split].
  - intros d; destruct d; (split; [reflexivity | eexists; repeat split]).
  - intros name H. simpl in H.
    repeat (destruct H as [<- | H];
            [first [ now exists act | now exists rule | now exists regulation
                   | now exists order | now exists notification
                   | now exists circular | now exists sop | now exists form
                   | now exists guideline | now exists practice_note
                   | now exists commentary | now exists textbook
                   | now exists qa_book | now exists schedule
                   | now exists register | now exists return_
                   | now exists qa | now exists other ] |]).
    contradiction.
  - unfold BINDING_DOCUMENT_TYPES, NON_BINDING_DOCUMENT_TYPES. simpl.
    repeat (constructor; [simpl; intuition discriminate |]). constructor.
Qed.

(** ** The ingestion route and the form *)

Lemma includes_In l x : includes l x = true <-> In x l.
Proof.
  unfold includes. rewrite existsb_exists. split.
  - intros (y & Hy & E). apply String.eqb_eq in E. now subst.
  - intros H. exists x. split; [exact H | apply String.eqb_refl].
Qed.

(** X16. The route and the shared table disagree on one type: of the ten
    types of [BINDING_DOCUMENT_TYPES], the route asks nine for a section
    and not [regulation]. A complete request for a binding document
    without a section is rejected for each of the nine, and for a
    regulation it is accepted, queued, and filed under
    [raw/non-binding/other]. *)
Theorem ingest_section_requirement env ingestionQueue data fileName hasFile t :
  IngestRoute.missing_field data = None ->
  IngestRoute.isBinding data = true ->
  truthy (IngestRoute.section data) = false ->
  IngestRoute.documentType data = Some t ->
  includes BINDING_DOCUMENT_TYPES t = true ->
  (includes IngestRoute.bindingTypes t = true <-> t <> "regulation")
  /\ (t <> "regulation" ->
      IngestRoute.enqueue env ingestionQueue data fileName hasFile
      = (IngestRoute.rejected "Section is required for binding documents",
         ingestionQueue))
  /\ (t = "regulation" ->
      exists job,
        IngestRoute.enqueue env ingestionQueue data fileName hasFile
        = (IngestRoute.queued (IngestRoute.id job) "raw/non-binding/other",
           ingestionQueue ++ [job])
        /\ IngestRoute.storagePath job = "raw/non-binding/other"
        /\ IngestRoute.data job = data).
Proof.
  intros Hreq Hb Hs Ht Hin.
  assert (Hgap : includes IngestRoute.bindingTypes t = true <-> t <> "regulation").
  { apply includes_In in Hin. unfold BINDING_DOCUMENT_TYPES in Hin. simpl in Hin.
    repeat (destruct Hin as [<- | Hin];
            [first [ split; [intros _; discriminate | intros _; reflexivity]
                   | split; [discriminate | congruence] ] |]).
    contradiction. }
  split; [exact Hgap|].
  unfold IngestRoute.enqueue, IngestRoute.storage_path.
  rewrite Hreq, Hb, Hs, Ht. cbn [andb negb or_default].
  split.
  - intros Hne. apply Hgap in Hne.
    assert (E : String.eqb t EmptyString = false).
    { destruct t; [discriminate | reflexivity]. }
    rewrite E, Hne. reflexivity.
  - intros ->.
    exists {| IngestRoute.id :=
                ("ING-" ++ IngestRoute.Date_now env ++ "-"
                 ++ IngestRoute.random_suffix env)%string;
              IngestRoute.status := IngestRoute.pending;
              IngestRoute.data := data;
              IngestRoute.createdAt := IngestRoute.toISOString env;
              IngestRoute.completedAt := None;
              IngestRoute.storagePath := "raw/non-binding/other";
              IngestRoute.fileName := fileName;
              IngestRoute.hasFile := hasFile |}.
    repeat split.
Qed.

Lemma ingest_section_requirement_witness :
  exists job,
    IngestRoute.enqueue example_environment [] regulation_request None false
    = (IngestRoute.queued (IngestRoute.id job) "raw/non-binding/other", [] ++ [job])
    /\ IngestRoute.storagePath job = "raw/non-binding/other"
    /\ IngestRoute.data job = regulation_request.
Proof.
  apply (ingest_section_requirement example_environment [] regulation_request
           None false "regulation"); reflexivity.
Defined.

Lemma formData_get_missing entries name :
  Forall (fun entry => fst entry <> name) entries ->
  IngestRoute.formData_get entries name = None.
Proof.
  unfold IngestRoute.formData_get. induction 1 as [| e l He _ IH]; [reflexivity|].
  simpl. apply String.eqb_neq in He. now rewrite He.
Qed.

Lemma append_if_set_name data field name :
  field <> name ->
  Forall (fun entry : string * IngestionForm.form_entry => fst entry <> name)
    (IngestionForm.append_if_set data field).
Proof.
  intros H. unfold IngestionForm.append_if_set.
  destruct (IngestionForm.truthy_value _); repeat constructor. exact H.
Qed.

(** X17. No submission of the ingestion form reaches the queue of the
    in-memory route: [handleIngestionSubmit] posts the fields of the form
    as separate form-data entries and never an entry named [metadata],
    while for a multipart request the route reads only that entry, so it
    answers every submission, whatever the form holds, with status 400,
    [Metadata is required], and leaves the queue as it was. *)
Theorem form_submission_rejected env ingestionQueue boundary data :
  IngestRoute.POST env ingestionQueue
    (IngestRoute.multipart_request boundary (IngestionForm.submitted_entries data))
  = (IngestRoute.rejected "Metadata is required", ingestionQueue).
Proof.
  unfold IngestRoute.POST, IngestRoute.multipart_request.
  cbn [IngestRoute.content_type IngestRoute.formData].
  assert (Hct : contains "multipart/form-data"
                  ("multipart/form-data; boundary=" ++ boundary) = true).
  { apply contains_infix_iff. exists EmptyString, ("; boundary=" ++ boundary)%string.
    reflexivity. }
  rewrite Hct.
  rewrite formData_get_missing; [reflexivity|].
  unfold IngestionForm.submitted_entries, IngestionForm.append_always.
  repeat (apply Forall_app; split);
    try (apply append_if_set_name; discriminate);
    try (repeat constructor; discriminate).
  destruct (IngestionForm.get data "inputType"); try constructor.
  destruct (_ && _); [repeat constructor; discriminate|].
  destruct (_ && _); repeat constructor; discriminate.
Qed.

Lemma find_app_none {A : Type} (p : A -> bool) l l' :
  Forall (fun x => p x = false) l -> find p (l ++ l') = find p l'.
Proof.
  induction 1 as [| x l Hx _ IH]; [reflexivity|]. simpl. now rewrite Hx.
Qed.

Lemma complete_job_app_none l l' jobId now :
  Forall (fun j => String.eqb (IngestRoute.id j) jobId = false) l ->
  IngestRoute.complete_job (l ++ l') jobId now
  = l ++ IngestRoute.complete_job l' jobId now.
Proof.
  induction 1 as [| x l Hx _ IH]; [reflexivity|]. simpl. now rewrite Hx, IH.
Qed.

(** X18. A request that the route accepts adds one job to the end of the
    queue, in state [pending] and with the data of the request; when the
    id is not yet in the queue, [GET] with that id returns this job, and
    after the timer has fired it returns the same job as [completed],
    with its data and storage path unchanged. *)
Theorem ingest_job_round_trip env ingestionQueue data fileName hasFile jobId path
  queue' :
  IngestRoute.enqueue env ingestionQueue data fileName hasFile
  = (IngestRoute.queued jobId path, queue') ->
  ~ In jobId (map IngestRoute.id ingestionQueue) ->
  exists job,
    queue' = ingestionQueue ++ [job]
    /\ IngestRoute.id job = jobId
    /\ IngestRoute.status job = IngestRoute.pending
    /\ IngestRoute.data job = data
    /\ IngestRoute.storagePath job = path
    /\ IngestRoute.GET queue' (Some jobId) = IngestRoute.one_job job
    /\ forall now,
         exists done,
           IngestRoute.GET (IngestRoute.complete_job queue' jobId now) (Some jobId)
           = IngestRoute.one_job done
           /\ IngestRoute.status done = IngestRoute.completed
           /\ IngestRoute.completedAt done = Some now
           /\ IngestRoute.data done = data
           /\ IngestRoute.storagePath done = path.
Proof.
  unfold IngestRoute.enqueue.
  destruct (IngestRoute.missing_field data); [discriminate|].
  destruct (_ && _); [discriminate|].
  intros [= <- <- <-] Hfresh.
  match type of Hfresh with ~ In ?j _ => set (jobId := j) in * end.
  assert (Hnone : Forall (fun j => String.eqb (IngestRoute.id j) jobId = false)
                    ingestionQueue).
  { apply Forall_forall. intros j Hj. apply String.eqb_neq. intros E.
    apply Hfresh. rewrite <- E. now apply in_map. }
  assert (Hne : String.eqb jobId EmptyString = false) by reflexivity.
  assert (Hget : forall l (j : IngestRoute.job),
             IngestRoute.id j = jobId ->
             Forall (fun j => String.eqb (IngestRoute.id j) jobId = false) l ->
             IngestRoute.GET (l ++ [j]) (Some jobId) = IngestRoute.one_job j).
  { intros l j Hj Hl. unfold IngestRoute.GET, truthy, or_default.
    rewrite Hne. cbn [negb]. rewrite find_app_none by exact Hl.
    cbn [find]. now rewrite Hj, String.eqb_refl. }
  eexists. split; [reflexivity|].
  cbn [IngestRoute.id IngestRoute.status IngestRoute.data IngestRoute.storagePath].
  repeat split.
  - apply Hget; [reflexivity | exact Hnone].
  - intros now. eexists. split.
    + rewrite complete_job_app_none by exact Hnone.
      cbn [IngestRoute.complete_job IngestRoute.id]. rewrite String.eqb_refl.
      apply Hget; [reflexivity | exact Hnone].
    + repeat split.
Qed.

Lemma ingest_job_round_trip_witness :
  exists job,
    IngestRoute.GET
      (snd (IngestRoute.enqueue example_environment [] circular_request None false))
      (Some "ING-1769942400000-k3j9x0a1b")
    = IngestRoute.one_job job
    /\ IngestRoute.status job = IngestRoute.pending
    /\ IngestRoute.storagePath job = "raw/companies_act/section_017/circulars".
Proof.
  destruct (ingest_job_round_trip example_environment [] circular_request
              None false "ING-1769942400000-k3j9x0a1b"
              "raw/companies_act/section_017/circulars"
              (snd (IngestRoute.enqueue example_environment [] circular_request
                      None false))
              eq_refl)
    as (job & _ & _ & Hs & _ & Hp & Hget & _).
  - intros [].
  - exists job. repeat split; assumption.
Defined.

Lemma length_padStart k c s : length (padStart k c s) = Nat.max k (length s).
Proof. unfold padStart. rewrite length_append, length_replicate. lia. Qed.

Lemma padStart_idempotent k c s : padStart k c (padStart k c s) = padStart k c s.
Proof.
  unfold padStart at 1. rewrite length_padStart.
  replace (k - Nat.max k (length s)) with 0 by lia. reflexivity.
Qed.

(** X19. Ingestion and retrieval name a section alike: a binding request
    whose section is a number n, written plainly or already padded to
    three digits, is filed in the folder [section_] followed by the key
    that the query classifier derives from [section n]. *)
Theorem storage_path_section_key data n s :
  IngestRoute.isBinding data = true ->
  IngestRoute.section data = Some s ->
  s = String_of_nat n \/ s = padStart 3 "0"%char (String_of_nat n) ->
  exists key,
    classify ("section " ++ String_of_nat n) = section_query key
    /\ IngestRoute.storage_path data
       = ("raw/companies_act/section_" ++ key ++ "/"
          ++ or_default (IngestRoute.documentType data) EmptyString ++ "s")%string.
Proof.
  intros Hb Hs Hform.
  destruct (String_of_nat_digits n) as [Hne Hd].
  exists (padStart 3 "0"%char (String_of_nat n)).
  split; [now apply classify_section_digits|].
  unfold IngestRoute.storage_path. rewrite Hb, Hs.
  assert (Htruthy : truthy (Some s) = true).
  { destruct Hform as [-> | ->]; simpl.
    - destruct (String_of_nat n); [congruence | reflexivity].
    - unfold padStart.
      destruct (replicate _ _ ++ String_of_nat n)%string eqn:E; [| reflexivity].
      destruct (replicate _ _); [| discriminate]. simpl in E. congruence. }
  rewrite Htruthy. cbn [andb].
  assert (Hor : or_default (Some s) EmptyString = s).
  { simpl in *. destruct (String.eqb s EmptyString); [discriminate | reflexivity]. }
  rewrite Hor.
  destruct Hform as [-> | ->]; [reflexivity | now rewrite padStart_idempotent].
Qed.

Lemma storage_path_section_key_witness :
  exists key,
    classify ("section " ++ String_of_nat 17) = section_query key
    /\ IngestRoute.storage_path circular_request
       = ("raw/companies_act/section_" ++ key ++ "/"
          ++ or_default (IngestRoute.documentType circular_request) EmptyString
          ++ "s")%string.
Proof.
  apply (storage_path_section_key circular_request 17 "17");
    [reflexivity | reflexivity |].
  left. reflexivity.
Defined.

(** X20. Choosing a document type in the form sets the binding flag from
    the table and, for a type that is not binding, clears the section:
    after the change the form holds the type, [isBinding] is the flag of
    the type, a section is required exactly when the type is binding, a
    non-binding type has no section left, and every other field is as it
    was. *)
Theorem handleChange_documentType prev (d : document_type_enum) :
  let name := document_type_name d in
  let updated :=
    IngestionForm.handleChange prev "documentType" (IngestionForm.str name) in
  IngestionForm.get updated "documentType" = IngestionForm.str name
  /\ IngestionForm.get updated "isBinding"
     = IngestionForm.flag (includes BINDING_DOCUMENT_TYPES name)
  /\ IngestionForm.requiresSection updated = includes BINDING_DOCUMENT_TYPES name
  /\ (includes BINDING_DOCUMENT_TYPES name = false ->
      IngestionForm.get updated "section" = IngestionForm.undefined)
  /\ (includes BINDING_DOCUMENT_TYPES name = true ->
      IngestionForm.get updated "section" = IngestionForm.get prev "section")
  /\ forall field,
       field <> "documentType" -> field <> "isBinding" -> field <> "section" ->
       IngestionForm.get updated field = IngestionForm.get prev field.
Proof.
  intros name updated. subst name updated.
  assert (Hget : forall (s : IngestionForm.form_state) f g v,
             IngestionForm.get (IngestionForm.set s f v) g
             = if String.eqb f g then v else IngestionForm.get s g).
  { intros s f g v. unfold IngestionForm.get, IngestionForm.set. simpl.
    now destruct (String.eqb f g). }
  destruct d; cbv [document_type_name IngestionForm.handleChange];
    cbn [String.eqb Ascii.eqb Bool.eqb IngestionForm.find_document_type find
         IngestionForm.ALL_DOCUMENT_TYPES IngestionForm.value
         IngestionForm.binding negb];
    (split; [reflexivity|]; split; [reflexivity|]; split; [reflexivity|];
     split; [intros H; try (vm_compute in H; discriminate H); reflexivity|];
     split; [intros H; try (vm_compute in H; discriminate H); reflexivity|];
     intros field H1 H2 H3;
     apply String.eqb_neq in H1, H2, H3;
     rewrite !Hget;
     rewrite ?(String.eqb_sym "documentType" field),
       ?(String.eqb_sym "isBinding" field), ?(String.eqb_sym "section" field),
       ?H1, ?H2, ?H3; reflexivity).
Qed.

(** ** The notifications route *)

Lemma filter_length_le_map {A : Type} (p : A -> bool) (f : A -> A) l :
  (forall x, p (f x) = true -> p x = true) ->
  List.length (filter p (map f l)) <= List.length (filter p l).
Proof.
  intros H. induction l as [| x l IH]; simpl; [lia|].
  destruct (p (f x)) eqn:E.
  - rewrite (H x E). simpl. lia.
  - destruct (p x); simpl; lia.
Qed.

Lemma length_filter_le {A : Type} (p : A -> bool) l :
  List.length (filter p l) <= List.length l.
Proof. induction l as [| x l IH]; simpl; [lia|]. destruct (p x); simpl; lia. Qed.

Lemma filter_filter_length_le {A : Type} (p q : A -> bool) l :
  List.length (filter p (filter q l)) <= List.length (filter p l).
Proof.
  induction l as [| x l IH]; simpl; [lia|].
  destruct (q x); simpl; destruct (p x); simpl; lia.
Qed.

(** One request: nothing is created, nothing but the [read] flag is
    altered, and the flag is never cleared. *)
Lemma handle_step store r :
  let store' := NotificationsRoute.handle store r in
  List.length store' <= List.length store
  /\ List.length (filter (fun n => negb (NotificationsRoute.read n)) store')
     <= List.length (filter (fun n => negb (NotificationsRoute.read n)) store)
  /\ forall n', In n' store' ->
       exists n, In n store
                 /\ NotificationsRoute.mark_read n' = NotificationsRoute.mark_read n
                 /\ (NotificationsRoute.read n = true ->
                     NotificationsRoute.read n' = true).
Proof.
  assert (Hmap : forall f,
             (forall n, f n = n \/ f n = NotificationsRoute.mark_read n) ->
             List.length (map f store) <= List.length store
             /\ List.length (filter (fun n => negb (NotificationsRoute.read n))
                               (map f store))
                <= List.length (filter (fun n => negb (NotificationsRoute.read n))
                                  store)
             /\ forall n', In n' (map f store) ->
                  exists n, In n store
                            /\ NotificationsRoute.mark_read n'
                               = NotificationsRoute.mark_read n
                            /\ (NotificationsRoute.read n = true ->
                                NotificationsRoute.read n' = true)).
  { intros f Hf. split; [now rewrite length_map|]. split.
    - apply filter_length_le_map. intros n.
      destruct (Hf n) as [-> | ->]; [auto | discriminate].
    - intros n' Hin. apply in_map_iff in Hin as (n & <- & Hin).
      exists n. split; [exact Hin|].
      destruct (Hf n) as [-> | ->]; [auto | split; reflexivity]. }
  assert (Hid : List.length store <= List.length store
                /\ List.length (filter (fun n => negb (NotificationsRoute.read n))
                                  store)
                   <= List.length (filter (fun n => negb (NotificationsRoute.read n))
                                     store)
                /\ forall n', In n' store ->
                     exists n, In n store
                               /\ NotificationsRoute.mark_read n'
                                  = NotificationsRoute.mark_read n
                               /\ (NotificationsRoute.read n = true ->
                                   NotificationsRoute.read n' = true)).
  { repeat split; try lia. intros n' Hin. exists n'. auto. }
  destruct r as [filter_param | id_field action_field | id_param]; cbn zeta.
  - exact Hid.
  - unfold NotificationsRoute.handle, NotificationsRoute.PATCH.
    destruct action_field as [action_value |]; [| exact Hid].
    destruct id_field as [id_value |].
    + destruct (_ && _).
      * apply Hmap. intros n. destruct (String.eqb _ _); auto.
      * destruct (String.eqb action_value "markAllAsRead"); [| exact Hid].
        apply Hmap. auto.
    + destruct (String.eqb action_value "markAllAsRead"); [| exact Hid].
      apply Hmap. auto.
  - unfold NotificationsRoute.handle, NotificationsRoute.DELETE.
    destruct id_param as [id_value |]; [| exact Hid].
    destruct (String.eqb id_value EmptyString); [exact Hid|].
    cbn [snd]. split; [apply length_filter_le|]. split.
    + apply filter_filter_length_le.
    + intros n' Hin. apply filter_In in Hin as [Hin _]. exists n'. auto.
Qed.

(** X21. Whatever requests the notifications route serves, in whatever
    order, the store never gains a notification, the number of unread
    notifications never grows, and every notification that is left is one
    of the original ones with its id, type, title, message and timestamp
    untouched, and read if it was read before: no request creates a
    notification, edits one, or marks one as unread. *)
Theorem notifications_only_shrink requests store :
  let final := fold_left NotificationsRoute.handle requests store in
  NotificationsRoute.total (NotificationsRoute.GET final None)
  <= NotificationsRoute.total (NotificationsRoute.GET store None)
  /\ NotificationsRoute.unreadCount (NotificationsRoute.GET final None)
     <= NotificationsRoute.unreadCount (NotificationsRoute.GET store None)
  /\ forall n', In n' final ->
       exists n, In n store
                 /\ NotificationsRoute.mark_read n' = NotificationsRoute.mark_read n
                 /\ (NotificationsRoute.read n = true ->
                     NotificationsRoute.read n' = true).
Proof.
  cbn [NotificationsRoute.GET NotificationsRoute.total
       NotificationsRoute.unreadCount].
  revert store. induction requests as [| r requests IH]; intros store.
  - simpl. repeat split; try lia. intros n' Hin. exists n'. auto.
  - cbn [fold_left].
    destruct (IH (NotificationsRoute.handle store r)) as (Hlen & Hunread & Hin).
    destruct (handle_step store r) as (Hlen1 & Hunread1 & Hin1).
    split; [lia|]. split; [lia|].
    intros n' Hn'. destruct (Hin n' Hn') as (n1 & Hn1 & E1 & R1).
    destruct (Hin1 n1 Hn1) as (n & Hn & E & R).
    exists n. split; [exact Hn|]. split; [congruence | auto].
Qed.

Lemma filter_unread_mark_read store :
  filter (fun n => negb (NotificationsRoute.read n))
    (map NotificationsRoute.mark_read store) = [].
Proof. induction store as [| n store IH]; simpl; [reflexivity | exact IH]. Qed.

(** X22. Marking as read. After [markAllAsRead] nothing is unread: the
    unread count is 0, the unread view is empty, and the notifications are
    the same in number, order and content. [markAsRead] with an id marks
    the notifications of that id and no other, so the unread count drops
    by the number of unread notifications with that id, and a repeated
    request changes nothing; without an id the request is refused as an
    invalid action and the store is left as it was. *)
Theorem mark_as_read_spec store :
  (forall id_field,
      let '(response, store') :=
        NotificationsRoute.PATCH store id_field (Some "markAllAsRead") in
      response = NotificationsRoute.success "All notifications marked as read"
      /\ NotificationsRoute.unreadCount (NotificationsRoute.GET store' None) = 0
      /\ NotificationsRoute.data (NotificationsRoute.GET store' (Some "unread")) = []
      /\ map NotificationsRoute.mark_read store'
         = map NotificationsRoute.mark_read store)
  /\ (forall id_value,
        id_value <> EmptyString ->
        let '(response, store') :=
          NotificationsRoute.PATCH store (Some id_value) (Some "markAsRead") in
        response = NotificationsRoute.success "Notification marked as read"
        /\ map NotificationsRoute.mark_read store'
           = map NotificationsRoute.mark_read store
        /\ (forall n, In n store' ->
              NotificationsRoute.id n = id_value -> NotificationsRoute.read n = true)
        /\ filter (fun n => negb (String.eqb (NotificationsRoute.id n) id_value)) store'
           = filter (fun n => negb (String.eqb (NotificationsRoute.id n) id_value))
               store
        /\ NotificationsRoute.unreadCount (NotificationsRoute.GET store' None)
           + List.length
               (filter (fun n => String.eqb (NotificationsRoute.id n) id_value
                                 && negb (NotificationsRoute.read n)) store)
           = NotificationsRoute.unreadCount (NotificationsRoute.GET store None)
        /\ NotificationsRoute.PATCH store' (Some id_value) (Some "markAsRead")
           = (response, store'))
  /\ (forall id_field,
        truthy id_field = false ->
        NotificationsRoute.PATCH store id_field (Some "markAsRead")
        = (NotificationsRoute.bad_request "Invalid action", store)).
Proof.
  split; [| split].
  - intros id_field.
    assert (E : NotificationsRoute.PATCH store id_field (Some "markAllAsRead")
                = (NotificationsRoute.success "All notifications marked as read",
                   map NotificationsRoute.mark_read store)).
    { unfold NotificationsRoute.PATCH. destruct id_field; reflexivity. }
    rewrite E. cbn [NotificationsRoute.GET NotificationsRoute.unreadCount
                    NotificationsRoute.data or_default].
    rewrite filter_unread_mark_read. repeat split.
    rewrite map_map. apply map_ext. reflexivity.
  - intros id_value Hne. unfold NotificationsRoute.PATCH.
    apply String.eqb_neq in Hne. rewrite Hne. cbn [String.eqb Ascii.eqb Bool.eqb andb negb].
    split; [reflexivity|]. split; [| split; [| split; [| split]]].
    + rewrite map_map. apply map_ext. intros n.
      now destruct (String.eqb (NotificationsRoute.id n) id_value).
    + intros n Hin Hid. apply in_map_iff in Hin as (n0 & <- & _).
      destruct (String.eqb (NotificationsRoute.id n0) id_value) eqn:E;
        [reflexivity|].
      apply String.eqb_neq in E. contradiction.
    + induction store as [| n store IH]; [reflexivity|]. cbn [map filter].
      destruct (String.eqb (NotificationsRoute.id n) id_value) eqn:E.
      * cbn [NotificationsRoute.mark_read NotificationsRoute.id].
        rewrite E. cbn [negb]. exact IH.
      * rewrite E. cbn [negb]. now rewrite IH.
    + cbn [NotificationsRoute.GET NotificationsRoute.unreadCount].
      induction store as [| n store IH]; [reflexivity|]. cbn [map filter].
      destruct (String.eqb (NotificationsRoute.id n) id_value) eqn:E.
      * cbn [NotificationsRoute.mark_read NotificationsRoute.read negb andb].
        destruct (NotificationsRoute.read n); cbn [negb List.length]; lia.
      * cbn [andb].
        destruct (NotificationsRoute.read n); cbn [negb List.length]; lia.
    + f_equal. rewrite map_map. apply map_ext. intros n.
      destruct (String.eqb (NotificationsRoute.id n) id_value) eqn:E.
      * cbn [NotificationsRoute.mark_read NotificationsRoute.id]. now rewrite E.
      * now rewrite E.
  - intros id_field Hf. unfold NotificationsRoute.PATCH.
    destruct id_field as [id_value |]; [| reflexivity].
    simpl in Hf. apply negb_false_iff in Hf. rewrite Hf.
    cbn [String.eqb Ascii.eqb Bool.eqb andb negb]. reflexivity.
Qed.

(** ** Pages of the audit log *)

Lemma firstn_add_skipn {A : Type} (a b : nat) (l : list A) :
  firstn (a + b) l = firstn a l ++ firstn b (skipn a l).
Proof.
  revert l; induction a as [| a IH]; intros l; [reflexivity|].
  destruct l as [| x l]; simpl; [now rewrite firstn_nil | now rewrite IH].
Qed.

Lemma firstn_min_length {A : Type} (n : nat) (l : list A) :
  firstn (Nat.min n (List.length l)) l = firstn n l.
Proof.
  destruct (Nat.le_ge_cases n (List.length l)) as [H | H].
  - now rewrite Nat.min_l.
  - rewrite Nat.min_r by exact H. now rewrite !firstn_all2 by lia.
Qed.

(** A slice between two indices that are not negative. *)
Lemma slice_page {A : Type} (l : list A) (a n : Z) :
  (0 <= a)%Z -> (0 <= n)%Z ->
  slice l (Num a) (Num (a + n)) = firstn (Z.to_nat n) (skipn (Z.to_nat a) l).
Proof.
  intros Ha Hn. unfold slice, relative_index.
  destruct (Z.ltb_spec a 0); [lia|]. destruct (Z.ltb_spec (a + n) 0); [lia|].
  destruct (Z.le_gt_cases (Z.of_nat (List.length l)) a) as [Hout | Hin].
  - rewrite (Z.min_r a) by lia. rewrite Nat2Z.id.
    rewrite skipn_all. rewrite (skipn_all2 (n := Z.to_nat a)) by lia.
    now rewrite !firstn_nil.
  - rewrite (Z.min_l a) by lia.
    rewrite <- (firstn_min_length (Z.to_nat n)). f_equal.
    rewrite length_skipn. lia.
Qed.

Lemma concat_pages {A : Type} (size : nat) (l : list A) (m : nat) :
  List.concat (map (fun i => firstn size (skipn ((i - 1) * size) l)) (seq 1 m))
  = firstn (m * size) l.
Proof.
  induction m as [| m IH]; [reflexivity|].
  rewrite seq_S, map_app, concat_app, IH. cbn [map List.concat]. rewrite app_nil_r.
  replace (1 + m - 1) with m by lia.
  replace (S m * size) with (m * size + size) by lia.
  now rewrite firstn_add_skipn.
Qed.

Lemma parseInt_String_of_nat n : parseInt (String_of_nat n) = Num (Z.of_nat n).
Proof. exact (parseInt_padded 0 n). Qed.

Lemma or_default_String_of_nat n fallback :
  or_default (Some (String_of_nat n)) fallback = String_of_nat n.
Proof.
  destruct (String_of_nat_digits n) as [Hne _]. simpl.
  destruct (String_of_nat n); [congruence | reflexivity].
Qed.

(** X23. The pages of the audit log partition it. For a limit of at
    least one (and below 2^53, where a number is exact), the page count
    reported is the number of entries divided by the limit and rounded up,
    for every page asked for; the pages 1 to that count, one after the
    other, are exactly the filtered log in its order; every page before
    the last is full, none holds more than the limit, and every page after
    the last is empty. *)
Theorem audit_pages_cover logs action_param status_param search_param limit_param
  (l : Z) :
  parseInt (or_default limit_param "10") = Num l ->
  (1 <= l)%Z ->
  (l < 2 ^ 53)%Z ->
  let filtered :=
    AuditRoute.filter_logs logs action_param status_param search_param in
  let pages := Z.to_nat (- (- Z.of_nat (List.length filtered) / l)) in
  let page i :=
    AuditRoute.data
      (AuditRoute.GET logs action_param status_param search_param
         (Some (String_of_nat i)) limit_param) in
  (forall page_param,
      let info :=
        AuditRoute.pagination
          (AuditRoute.GET logs action_param status_param search_param
             page_param limit_param) in
      AuditRoute.totalPages info = Some (Z.of_nat pages)
      /\ AuditRoute.total info = List.length filtered
      /\ AuditRoute.limit info = Some l)
  /\ List.concat (map page (seq 1 pages)) = filtered
  /\ (forall i, 1 <= i ->
        List.length (page i) <= Z.to_nat l
        /\ (i < pages -> List.length (page i) = Z.to_nat l))
  /\ (forall i, pages < i -> page i = []).
Proof.
  intros Hl Hpos _ filtered pages page.
  set (n := List.length filtered).
  assert (Hdiv : (Z.of_nat n <= Z.of_nat pages * l
                  /\ (Z.of_nat pages * l < Z.of_nat n + l))%Z).
  { subst pages. fold n.
    pose proof (Z.div_mod (- Z.of_nat n) l ltac:(lia)) as E.
    pose proof (Z.mod_pos_bound (- Z.of_nat n) l ltac:(lia)) as B.
    assert (Hq : (- Z.of_nat n / l <= 0)%Z).
    { apply Z.div_le_upper_bound; lia. }
    rewrite Z2Nat.id by lia. nia. }
  assert (Hpage : forall i, 1 <= i ->
             page i = firstn (Z.to_nat l) (skipn ((i - 1) * Z.to_nat l) filtered)).
  { intros i Hi. subst page. unfold AuditRoute.GET. cbn [AuditRoute.data].
    rewrite Hl, or_default_String_of_nat, parseInt_String_of_nat.
    cbn [js_sub js_mul js_add]. fold filtered.
    rewrite slice_page by nia. f_equal. f_equal. nia. }
  split; [| split; [| split]].
  - intros page_param info. subst info. unfold AuditRoute.GET.
    cbn [AuditRoute.pagination AuditRoute.totalPages AuditRoute.total
         AuditRoute.limit]. rewrite Hl. fold filtered.
    split; [| split; reflexivity].
    unfold json_ceil_div. destruct (Z.eqb_spec l 0); [lia|].
    subst pages. fold n.
    assert (Hq : (- Z.of_nat n / l <= 0)%Z).
    { apply Z.div_le_upper_bound; lia. }
    f_equal. rewrite Z2Nat.id by lia. reflexivity.
  - rewrite (map_ext_in page
               (fun i => firstn (Z.to_nat l)
                           (skipn ((i - 1) * Z.to_nat l) filtered))).
    + rewrite concat_pages. apply firstn_all2. fold n. nia.
    + intros i Hi. apply in_seq in Hi. apply Hpage. lia.
  - intros i Hi. rewrite (Hpage i Hi). split.
    + rewrite length_firstn. lia.
    + intros Hlt. rewrite length_firstn, length_skipn. fold n. nia.
  - intros i Hi. rewrite (Hpage i) by lia.
    rewrite skipn_all2; [apply firstn_nil|]. fold n. nia.
Qed.

Lemma audit_pages_cover_witness :
  List.concat
    (map (fun i =>
            AuditRoute.data
              (AuditRoute.GET AuditRoute.auditLogs (Some "INGEST") None None
                 (Some (String_of_nat i)) (Some "2")))
       (seq 1
          (Z.to_nat
             (- (- Z.of_nat
                     (List.length
                        (AuditRoute.filter_logs AuditRoute.auditLogs
                           (Some "INGEST") None None)) / 2)))))
  = AuditRoute.filter_logs AuditRoute.auditLogs (Some "INGEST") None None.
Proof.
  destruct (audit_pages_cover AuditRoute.auditLogs (Some "INGEST") None None
              (Some "2") 2) as (_ & H & _).
  - reflexivity.
  - apply Z.leb_le. reflexivity.
  - reflexivity.
  - exact H.
Defined.

(** X24. Pages outside the range. The route refuses no page number and
    no limit: with a limit that reads as 0, or as no number at all, every
    page is empty and the page count is written as null; with a limit of
    at least one, page 0 is empty, and a negative page -p is not empty in
    general: it holds what page p + 1 would hold if the log were read
    from its end, in the order of the log (limit and p below 2^53, where
    a number is exact). *)
Theorem audit_pages_out_of_range logs action_param status_param search_param
  page_param limit_param :
  let filtered :=
    AuditRoute.filter_logs logs action_param status_param search_param in
  let response :=
    AuditRoute.GET logs action_param status_param search_param
      page_param limit_param in
  (parseInt (or_default limit_param "10") = Num 0
   \/ parseInt (or_default limit_param "10") = NaN ->
   AuditRoute.data response = []
   /\ AuditRoute.totalPages (AuditRoute.pagination response) = None)
  /\ (forall l,
        parseInt (or_default limit_param "10") = Num l ->
        (1 <= l < 2 ^ 53)%Z ->
        (parseInt (or_default page_param "1") = NaN ->
         AuditRoute.data response = [])
        /\ (parseInt (or_default page_param "1") = Num 0 ->
            AuditRoute.data response = [])
        /\ (forall p, (1 <= p < 2 ^ 53)%Z ->
              parseInt (or_default page_param "1") = Num (- p) ->
              AuditRoute.data response
              = rev (firstn (Z.to_nat l)
                       (skipn (Z.to_nat (p * l)) (rev filtered))))).
Proof.
  intros filtered response. subst response. unfold AuditRoute.GET.
  cbn [AuditRoute.data AuditRoute.pagination AuditRoute.totalPages].
  fold filtered. split.
  - intros [-> | ->].
    + split; [| reflexivity].
      destruct (parseInt (or_default page_param "1")) as [| p].
      * reflexivity.
      * cbn [js_sub js_mul js_add]. unfold slice.
        rewrite Z.add_0_r, Z.sub_diag. reflexivity.
    + split; [| reflexivity].
      destruct (parseInt (or_default page_param "1")); reflexivity.
  - intros l -> [Hl _]. split; [| split].
    + intros ->. reflexivity.
    + intros ->. cbn [js_sub js_mul js_add]. unfold slice, relative_index.
      destruct (Z.ltb_spec ((0 - 1) * l) 0); [| lia].
      destruct (Z.ltb_spec ((0 - 1) * l + l) 0); [lia|].
      match goal with |- firstn ?c _ = [] => replace c with 0 by lia end.
      reflexivity.
    + intros p [Hp _] ->. cbn [js_sub js_mul js_add]. unfold slice, relative_index.
      set (n := List.length filtered).
      destruct (Z.ltb_spec ((- p - 1) * l) 0); [| nia].
      destruct (Z.ltb_spec ((- p - 1) * l + l) 0); [| nia].
      rewrite skipn_rev, firstn_rev, rev_involutive.
      rewrite length_firstn. fold n.
      rewrite skipn_firstn_comm.
      assert (E1 : Z.to_nat (Z.max (Z.of_nat n + (- p - 1) * l) 0)
                   = Nat.min (n - Z.to_nat (p * l)) n - Z.to_nat l) by nia.
      assert (E2 : Z.to_nat (Z.max (Z.of_nat n + ((- p - 1) * l + l)) 0
                             - Z.max (Z.of_nat n + (- p - 1) * l) 0)
                   = n - Z.to_nat (p * l)
                     - (Nat.min (n - Z.to_nat (p * l)) n - Z.to_nat l)) by nia.
      now rewrite E1, E2.
Qed.

Lemma audit_pages_out_of_range_witness :
  AuditRoute.data
    (AuditRoute.GET AuditRoute.auditLogs None None None (Some "-1") (Some "2"))
  = rev (firstn (Z.to_nat 2)
           (skipn (Z.to_nat (1 * 2))
              (rev (AuditRoute.filter_logs AuditRoute.auditLogs None None None)))).
Proof.
  destruct (audit_pages_out_of_range AuditRoute.auditLogs None None None
              (Some "-1") (Some "2")) as (_ & H).
  destruct (H 2%Z eq_refl) as (_ & _ & Hneg).
  - split; [apply Z.leb_le | apply Z.ltb_lt]; reflexivity.
  - apply (Hneg 1%Z); [| reflexivity].
    split; [apply Z.leb_le | apply Z.ltb_lt]; reflexivity.
Defined.

(** ** Groups of the result list *)

Lemma push_chunk_keys acc key c :
  map fst (SectionResults.push_chunk acc key c)
  = if existsb (String.eqb key) (map fst acc) then map fst acc
    else map fst acc ++ [key].
Proof.
  induction acc as [| [k cs] acc IH]; [reflexivity|].
  cbn [SectionResults.push_chunk map fst existsb].
  rewrite (String.eqb_sym key k).
  destruct (String.eqb k key); [reflexivity|].
  cbn [map fst orb]. rewrite IH.
  now destruct (existsb (String.eqb key) (map fst acc)).
Qed.

Lemma push_chunk_In acc key c k cs :
  NoDup (map fst acc) ->
  In (k, cs) (SectionResults.push_chunk acc key c) ->
  (k <> key /\ In (k, cs) acc)
  \/ (k = key /\ exists old, cs = old ++ [c]
                             /\ (In (key, old) acc
                                 \/ (old = [] /\ ~ In key (map fst acc)))).
Proof.
  induction acc as [| [k0 cs0] acc IH]; intros Hnd Hin.
  - cbn [SectionResults.push_chunk In] in Hin. destruct Hin as [E | []].
    injection E as E1 E2; subst. right. split; [reflexivity|].
    exists []. split; [reflexivity|]. right. split; [reflexivity | intros []].
  - cbn [map fst] in Hnd. apply NoDup_cons_iff in Hnd as [Hk0 Hnd].
    cbn [SectionResults.push_chunk] in Hin.
    destruct (String.eqb_spec k0 key) as [E0 | Hne].
    + subst k0. cbn [In] in Hin. destruct Hin as [E | Hin].
      * injection E as E1 E2; subst. right. split; [reflexivity|].
        exists cs0. split; [reflexivity|]. left. now left.
      * left. split; [| now right]. intros E. subst k. apply Hk0.
        change key with (fst (key, cs)). now apply in_map.
    + cbn [In] in Hin. destruct Hin as [E | Hin].
      * injection E as E1 E2; subst. left. split; [exact Hne | now left].
      * destruct (IH Hnd Hin) as [[Hk Hacc] | [Hk (old & Hcs & Hold)]].
        -- left. split; [exact Hk | now right].
        -- right. split; [exact Hk|]. exists old. split; [exact Hcs|].
           destruct Hold as [Hold | [Hold Hno]]; [left; now right|].
           right. split; [exact Hold|]. cbn [map fst In].
           intros [E | E]; [congruence | contradiction].
Qed.

Lemma push_chunk_NoDup acc key c :
  NoDup (map fst acc) -> NoDup (map fst (SectionResults.push_chunk acc key c)).
Proof.
  intros Hnd. rewrite push_chunk_keys.
  destruct (existsb (String.eqb key) (map fst acc)) eqn:E; [exact Hnd|].
  apply NoDup_app; [exact Hnd | repeat constructor; intros [] |].
  intros k Hk [Ek | []]. subst k.
  assert (existsb (String.eqb key) (map fst acc) = true); [| congruence].
  apply existsb_exists. exists key. split; [exact Hk | apply String.eqb_refl].
Qed.

Lemma filter_none_In {A : Type} (p : A -> bool) l :
  (forall x, In x l -> p x = false) -> filter p l = [].
Proof.
  induction l as [| x l IH]; intros H; [reflexivity|]. simpl.
  rewrite (H x) by now left. apply IH. intros y Hy. apply H. now right.
Qed.

(** What the [reduce] keeps true from one chunk to the next. *)
Lemma group_step_invariant done acc c acc' :
  NoDup (map fst acc) ->
  (forall k cs, In (k, cs) acc ->
     cs <> [] /\ cs = filter (fun x => String.eqb (SectionResults.section_key x) k) done) ->
  (forall x, In x done -> In (SectionResults.section_key x) (map fst acc)) ->
  SectionResults.group_step (Some acc) c = Some acc' ->
  NoDup (map fst acc')
  /\ (forall k cs, In (k, cs) acc' ->
        cs <> []
        /\ cs = filter (fun x => String.eqb (SectionResults.section_key x) k)
                  (done ++ [c]))
  /\ (forall x, In x (done ++ [c]) ->
        In (SectionResults.section_key x) (map fst acc')).
Proof.
  intros Hnd Hgroups Hkeys. unfold SectionResults.group_step.
  destruct (includes _ _); [discriminate|]. intros [= <-].
  split; [now apply push_chunk_NoDup|]. split.
  - intros k cs Hin. apply (push_chunk_In _ _ _ _ _ Hnd) in Hin.
    rewrite filter_app. cbn [filter].
    destruct Hin as [[Hk Hin] | [-> (old & -> & [Hin | [-> Hno]])]].
    + destruct (Hgroups k cs Hin) as [Hne ->]. split; [exact Hne|].
      apply not_eq_sym, String.eqb_neq in Hk. rewrite Hk. now rewrite app_nil_r.
    + destruct (Hgroups _ old Hin) as [_ ->]. rewrite String.eqb_refl.
      split; [now destruct (filter _ done) | reflexivity].
    + rewrite String.eqb_refl. split; [discriminate|].
      assert (E : filter (fun x => String.eqb (SectionResults.section_key x)
                                     (SectionResults.section_key c)) done = []).
      { apply filter_none_In. intros x Hx. apply String.eqb_neq. intros E.
        apply Hno. rewrite <- E. now apply Hkeys. }
      now rewrite E.
  - intros x Hx. rewrite push_chunk_keys.
    apply in_app_or in Hx as [Hx | [Ex | []]].
    + destruct (existsb _ _); [now apply Hkeys|].
      apply in_or_app. left. now apply Hkeys.
    + subst x.
      destruct (existsb (String.eqb (SectionResults.section_key c)) (map fst acc))
        eqn:E.
      * apply existsb_exists in E as (k & Hk & E). apply String.eqb_eq in E.
        now subst.
      * apply in_or_app. right. now left.
Qed.

Lemma groupedSections_invariant sections :
  forall done acc result,
    NoDup (map fst acc) ->
    (forall k cs, In (k, cs) acc ->
       cs <> []
       /\ cs = filter (fun x => String.eqb (SectionResults.section_key x) k) done) ->
    (forall x, In x done -> In (SectionResults.section_key x) (map fst acc)) ->
    fold_left SectionResults.group_step sections (Some acc) = Some result ->
    NoDup (map fst result)
    /\ (forall k cs, In (k, cs) result ->
          cs <> []
          /\ cs = filter (fun x => String.eqb (SectionResults.section_key x) k)
                    (done ++ sections))
    /\ (forall x, In x (done ++ sections) ->
          In (SectionResults.section_key x) (map fst result)).
Proof.
  induction sections as [| c sections IH]; intros done acc result Hnd Hg Hk.
  - cbn [fold_left]. intros [= <-]. rewrite app_nil_r. auto.
  - cbn [fold_left].
    destruct (SectionResults.group_step (Some acc) c) as [acc' |] eqn:E.
    + intros Hfold.
      destruct (group_step_invariant done acc c acc' Hnd Hg Hk E)
        as (Hnd' & Hg' & Hk').
      replace (done ++ c :: sections) with ((done ++ [c]) ++ sections)
        by now rewrite <- app_assoc.
      exact (IH (done ++ [c]) acc' result Hnd' Hg' Hk' Hfold).
    + intros Hfold. exfalso. clear -Hfold.
      induction sections as [| x l IHl]; [discriminate | exact (IHl Hfold)].
Qed.

(** X25. The grouping of the result list is a partition by section: when
    rendering does not throw, every key heads one group only, the group of
    a key holds exactly the chunks of the response with that section (or
    with no section, under [Unknown]), in the order of the response, no
    group is empty, and every chunk is in the group of its section.
    Rendering throws exactly when some chunk has a section that is the
    name of a property every object inherits, such as [constructor]. *)
Theorem groupedSections_partition sections :
  (forall acc, SectionResults.groupedSections sections = Some acc ->
     NoDup (map fst acc)
     /\ (forall key chunks, In (key, chunks) acc ->
           chunks <> []
           /\ chunks
              = filter (fun c => String.eqb (SectionResults.section_key c) key)
                  sections)
     /\ (forall c, In c sections ->
           In (SectionResults.section_key c) (map fst acc)))
  /\ (SectionResults.groupedSections sections = None <->
      exists c, In c sections
                /\ includes Object_prototype_properties
                     (SectionResults.section_key c) = true).
Proof.
  split.
  - intros acc H.
    apply (groupedSections_invariant sections [] [] acc);
      [constructor | intros k cs [] | intros x [] | exact H].
  - unfold SectionResults.groupedSections. generalize (@nil (string * list SectionResults.chunk)).
    induction sections as [| c sections IH]; intros acc.
    + cbn [fold_left]. split; [discriminate | intros (c & [] & _)].
    + cbn [fold_left SectionResults.group_step].
      destruct (includes Object_prototype_properties
                  (SectionResults.section_key c)) eqn:E.
      * split; [| intros _;
                  clear; induction sections as [| x l IHl]; [reflexivity | exact IHl]].
        intros _. exists c. split; [now left | exact E].
      * rewrite IH. split.
        -- intros (x & Hx & Hp). exists x. split; [now right | exact Hp].
        -- intros (x & [<- | Hx] & Hp); [congruence | eauto].
Qed.

(** ** Order of the result list *)

Lemma Sorted_StronglySorted_on {A : Type} (P : A -> Prop) (R R' : A -> A -> Prop) l :
  (forall a b, P a -> P b -> R a b -> R' a b) ->
  (forall a b c, P a -> P b -> P c -> R' a b -> R' b c -> R' a c) ->
  Forall P l -> Sorted R l -> StronglySorted R' l.
Proof.
  intros Hrel Htrans HP Hs. induction Hs as [| x l Hs IH Hhd]; [constructor|].
  apply Forall_cons_iff in HP as [Hx HP]. specialize (IH HP).
  constructor; [exact IH|].
  destruct Hhd as [| y l' Hxy]; [constructor|].
  apply Forall_cons_iff in HP as [Hy HP'].
  apply StronglySorted_inv in IH as [_ Hall].
  constructor; [now apply Hrel|].
  rewrite Forall_forall in *. intros z Hz.
  apply (Htrans x y z); auto.
Qed.

Lemma compare_chunks_total a b :
  Qle_bool (SectionResults.compare_chunks a b) 0 = false ->
  Qle_bool (SectionResults.compare_chunks b a) 0 = true.
Proof.
  intros H. apply Qle_bool_iff.
  assert (Hgt : ~ (SectionResults.compare_chunks a b <= 0)%Q).
  { intros Hle. apply Qle_bool_iff in Hle. congruence. }
  unfold SectionResults.compare_chunks in *.
  assert (Hsym : SectionResults.strict_neq (SectionResults.priority b)
                   (SectionResults.priority a)
                 = SectionResults.strict_neq (SectionResults.priority a)
                     (SectionResults.priority b)).
  { destruct (SectionResults.priority a) as [| | x],
             (SectionResults.priority b) as [| | y]; try reflexivity.
    simpl. f_equal. destruct (Qeq_bool y x) eqn:E1, (Qeq_bool x y) eqn:E2;
      try reflexivity.
    - apply Qeq_bool_iff in E1. symmetry in E1. apply Qeq_bool_iff in E1. congruence.
    - apply Qeq_bool_iff in E2. symmetry in E2. apply Qeq_bool_iff in E2. congruence. }
  rewrite Hsym. destruct (SectionResults.strict_neq _ _); lra.
Qed.

(** X26. Within a section the chunks are shown by priority and then by
    similarity. For chunks whose priority is a number other than 0 and 999
    or is null, as the backend sends it, the list shown is a rearrangement
    of the chunks of the group in which priorities never decrease, a
    missing priority counts as 999 and so comes last, chunks of one
    priority follow each other by similarity from the highest down, a
    missing similarity counting as 0; so the chunks with the badge of a
    high priority all come before the others. *)
Theorem sortedChunks_order chunks :
  Forall (fun c => match SectionResults.priority c with
                   | SectionResults.js_num q => ~ (q == 0)%Q /\ ~ (q == 999)%Q
                   | SectionResults.js_null => True
                   | SectionResults.js_undefined => False
                   end) chunks ->
  let rank c := SectionResults.number_or (SectionResults.priority c) 999 in
  let score c := SectionResults.number_or (SectionResults.similarity_score c) 0 in
  let sorted := SectionResults.sortedChunks chunks in
  Permutation sorted chunks
  /\ StronglySorted
       (fun a b => (rank a < rank b)%Q
                   \/ ((rank a == rank b)%Q /\ (score b <= score a)%Q)) sorted
  /\ (forall before a between b after,
        sorted = before ++ a :: between ++ b :: after ->
        SectionResults.isHighPriority b = true ->
        SectionResults.isHighPriority a = true).
Proof.
  intros Hplain rank score sorted.
  assert (Hperm : Permutation sorted chunks) by apply order_by_perm.
  assert (Hsorted : StronglySorted
            (fun a b => (rank a < rank b)%Q
                        \/ ((rank a == rank b)%Q /\ (score b <= score a)%Q)) sorted).
  { apply (Sorted_StronglySorted_on
             (fun c => match SectionResults.priority c with
                       | SectionResults.js_num q => ~ (q == 0)%Q /\ ~ (q == 999)%Q
                       | SectionResults.js_null => True
                       | SectionResults.js_undefined => False
                       end)
             (fun a b => Qle_bool (SectionResults.compare_chunks a b) 0 = true)).
    - intros a b Ha Hb Hle. apply Qle_bool_iff in Hle.
      subst rank score. cbv beta.
      unfold SectionResults.compare_chunks in Hle.
      destruct (SectionResults.priority a) as [| | x] eqn:Ea; [contradiction | |];
        destruct (SectionResults.priority b) as [| | y] eqn:Eb;
        try contradiction; cbn [SectionResults.strict_neq SectionResults.number_or] in *.
      + right. split; [reflexivity | lra].
      + destruct Hb as [Hy0 Hy9].
        destruct (Qeq_bool y 0) eqn:E0; [apply Qeq_bool_iff in E0; contradiction|].
        left. lra.
      + destruct Ha as [Hx0 Hx9].
        destruct (Qeq_bool x 0) eqn:E0; [apply Qeq_bool_iff in E0; contradiction|].
        left. lra.
      + destruct Ha as [Hx0 Hx9], Hb as [Hy0 Hy9].
        destruct (Qeq_bool x 0) eqn:E0; [apply Qeq_bool_iff in E0; contradiction|].
        destruct (Qeq_bool y 0) eqn:E1; [apply Qeq_bool_iff in E1; contradiction|].
        destruct (Qeq_bool x y) eqn:E; cbn [negb] in Hle.
        * apply Qeq_bool_iff in E. right. split; [exact E | lra].
        * left. assert (~ (x == y)%Q).
          { intros Hxy. apply Qeq_bool_iff in Hxy. congruence. }
          lra.
    - intros a b c _ _ _ [H1 | [H1 H1']] [H2 | [H2 H2']];
        [left; lra | left; lra | left; lra | right; split; lra].
    - apply Forall_forall. intros c Hc. rewrite Forall_forall in Hplain.
      apply Hplain. eapply Permutation_in; [exact Hperm | exact Hc].
    - apply order_by_sorted. apply compare_chunks_total. }
  split; [exact Hperm|]. split; [exact Hsorted|].
  intros before a between b after E Hb. rewrite E in Hsorted.
  apply StronglySorted_pair in Hsorted.
  unfold SectionResults.isHighPriority in *.
  apply Qle_bool_iff in Hb. apply Qle_bool_iff.
  subst rank score. cbv beta in Hsorted. destruct Hsorted as [H | [H _]]; lra.
Qed.

Lemma sortedChunks_order_witness :
  Permutation
    (SectionResults.sortedChunks
       [ result_chunk "circular_2014_s017_p001" (Some "017")
           (SectionResults.js_num 2) (SectionResults.js_num (3 # 4));
         result_chunk "ca2013_act_s017_p001" (Some "017")
           (SectionResults.js_num 1) (SectionResults.js_num (1 # 2)) ])
    [ result_chunk "circular_2014_s017_p001" (Some "017")
        (SectionResults.js_num 2) (SectionResults.js_num (3 # 4));
      result_chunk "ca2013_act_s017_p001" (Some "017")
        (SectionResults.js_num 1) (SectionResults.js_num (1 # 2)) ].
Proof.
  destruct (sortedChunks_order
              [ result_chunk "circular_2014_s017_p001" (Some "017")
                  (SectionResults.js_num 2) (SectionResults.js_num (3 # 4));
                result_chunk "ca2013_act_s017_p001" (Some "017")
                  (SectionResults.js_num 1) (SectionResults.js_num (1 # 2)) ])
    as (H & _).
  - repeat constructor; simpl; intros E; discriminate E.
  - exact H.
Defined.

Lemma index_le_total a b :
  SectionResults.index_le a b = false -> SectionResults.index_le b a = true.
Proof.
  unfold SectionResults.index_le.
  destruct (parse_digits 10 (fst a) None), (parse_digits 10 (fst b) None);
    try discriminate; try reflexivity.
  intros H. apply Z.leb_gt in H. apply Z.leb_le. lia.
Qed.

Lemma three_digit_keys n :
  n < 1000 ->
  SectionResults.is_array_index (padStart 3 "0"%char (String_of_nat n))
  = Nat.leb 100 n.
Proof.
  intros Hn.
  assert (Hall : forallb
                   (fun n => Bool.eqb
                               (SectionResults.is_array_index
                                  (padStart 3 "0"%char (String_of_nat n)))
                               (Nat.leb 100 n))
                   (seq 0 1000) = true) by (vm_compute; reflexivity).
  rewrite forallb_forall in Hall. apply eqb_prop, Hall, in_seq. lia.
Qed.

Lemma filter_filter {A : Type} (p q : A -> bool) l :
  filter p (filter q l) = filter (fun x => q x && p x) l.
Proof.
  induction l as [| x l IH]; [reflexivity|]. simpl.
  destruct (q x); simpl; [destruct (p x)|]; now rewrite IH.
Qed.

Lemma map_fst_filter {A B : Type} (p : A -> bool) (l : list (A * B)) :
  map fst (filter (fun entry => p (fst entry)) l) = filter p (map fst l).
Proof.
  induction l as [| x l IH]; [reflexivity|]. simpl.
  destruct (p (fst x)); simpl; now rewrite IH.
Qed.

Lemma existsb_eqb_app (k : string) (l : list string) (key : string) :
  existsb (String.eqb k) (l ++ [key])
  = existsb (String.eqb k) l || String.eqb k key.
Proof. rewrite existsb_app. simpl. now rewrite orb_false_r. Qed.

(** The [reduce] creates the keys in the order in which the sections
    first occur in the response. *)
Lemma groupedSections_keys sections :
  forall acc result,
    fold_left SectionResults.group_step sections (Some acc) = Some result ->
    map fst result
    = map fst acc
      ++ filter (fun k => negb (existsb (String.eqb k) (map fst acc)))
           (first_occurrences (map SectionResults.section_key sections)).
Proof.
  induction sections as [| c sections IH]; intros acc result.
  - cbn [fold_left]. intros [= <-]. simpl. now rewrite app_nil_r.
  - cbn [fold_left].
    destruct (SectionResults.group_step (Some acc) c) as [acc' |] eqn:E.
    + intros Hfold. rewrite (IH acc' result Hfold).
      unfold SectionResults.group_step in E.
      destruct (includes _ _); [discriminate|]. injection E as <-.
      rewrite push_chunk_keys. cbn [map first_occurrences filter].
      set (key := SectionResults.section_key c).
      set (keys := first_occurrences (map SectionResults.section_key sections)).
      destruct (existsb (String.eqb key) (map fst acc)) eqn:Hmem; cbn [negb].
      * f_equal. rewrite filter_filter. apply filter_ext_in. intros k _.
        destruct (String.eqb key k) eqn:Ek; [| reflexivity].
        apply String.eqb_eq in Ek. subst k. now rewrite Hmem.
      * rewrite <- app_assoc. cbn [app]. f_equal. f_equal.
        rewrite filter_filter. apply filter_ext. intros k.
        rewrite existsb_eqb_app, negb_orb, (String.eqb_sym k key).
        apply andb_comm.
    + intros Hfold. exfalso. clear -Hfold.
      induction sections as [| x l IHl]; [discriminate | exact (IHl Hfold)].
Qed.

(** X27. The sections are not shown in the order of the response:
    [Object.entries] lists first the keys that are array indices, in
    ascending numeric order, and then the other keys in the order in
    which they first occur in the response. A key of three digits is an
    array index exactly when it does not begin with a zero, so the groups
    of the sections 100 and above come first, by number, and the sections
    001 to 099 follow, in the order of the response: a chunk of section
    134 is shown above a chunk of section 017 wherever the response has
    them. *)
Theorem render_section_order sections rendered :
  SectionResults.render sections = Some rendered ->
  let keys :=
    first_occurrences (map SectionResults.section_key sections) in
  (exists indexed others,
      map SectionResults.sectionNumber rendered = indexed ++ others
      /\ Permutation indexed (filter SectionResults.is_array_index keys)
      /\ others = filter (fun key => negb (SectionResults.is_array_index key)) keys
      /\ Forall (fun key => SectionResults.is_array_index key = true) indexed
      /\ Forall (fun key => SectionResults.is_array_index key = false) others
      /\ StronglySorted
           (fun a b => exists x y,
                parse_digits 10 a None = Some x
                /\ parse_digits 10 b None = Some y /\ (x <= y)%Z) indexed)
  /\ (forall c1 c2,
        In c1 sections -> In c2 sections ->
        SectionResults.is_array_index (SectionResults.section_key c1) = false ->
        SectionResults.is_array_index (SectionResults.section_key c2) = true ->
        exists l1 g2 l2 g1 l3,
          rendered = l1 ++ g2 :: l2 ++ g1 :: l3
          /\ SectionResults.sectionNumber g2 = SectionResults.section_key c2
          /\ SectionResults.sectionNumber g1 = SectionResults.section_key c1)
  /\ (forall n, n < 1000 ->
        SectionResults.is_array_index (padStart 3 "0"%char (String_of_nat n))
        = Nat.leb 100 n).
Proof.
  unfold SectionResults.render.
  destruct (SectionResults.groupedSections sections) as [o |] eqn:Hg;
    [| discriminate].
  cbn [option_map]. intros [= <-]. cbv zeta.
  destruct (groupedSections_invariant sections [] [] o (NoDup_nil _)
              (fun k cs (H : In (k, cs) []) => match H with end)
              (fun x (H : In x []) => match H with end) Hg)
    as (_ & _ & Hkeys).
  assert (Hcreated : map fst o
                     = first_occurrences (map SectionResults.section_key sections)).
  { rewrite (groupedSections_keys sections [] o Hg). cbn [map app existsb negb].
    clear. induction (first_occurrences _) as [| k l IH]; [reflexivity|].
    simpl. now rewrite IH. }
  unfold SectionResults.Object_entries.
  set (A := order_by SectionResults.index_le
              (filter (fun entry => SectionResults.is_array_index (fst entry)) o)).
  set (B := filter (fun entry => negb (SectionResults.is_array_index (fst entry))) o).
  assert (HA : forall e, In e A <-> In e o /\ SectionResults.is_array_index (fst e) = true).
  { intros e. subst A. rewrite order_by_In. apply filter_In. }
  assert (HB : forall e, In e B <-> In e o /\ SectionResults.is_array_index (fst e) = false).
  { intros e. subst B. rewrite filter_In. now rewrite negb_true_iff. }
  assert (Hnum : forall e, map SectionResults.sectionNumber
                             (map SectionResults.render_group e) = map fst e).
  { intros e. rewrite map_map. apply map_ext. reflexivity. }
  split; [| split].
  - exists (map fst A), (map fst B). rewrite Hnum, map_app.
    split; [reflexivity|]. split; [| split; [| split; [| split]]].
    + rewrite <- Hcreated, <- map_fst_filter. apply Permutation_map.
      subst A. apply order_by_perm.
    + rewrite <- Hcreated. subst B.
      exact (map_fst_filter (fun key => negb (SectionResults.is_array_index key)) o).
    + apply Forall_forall. intros k Hk. apply in_map_iff in Hk as (e & <- & He).
      now apply HA.
    + apply Forall_forall. intros k Hk. apply in_map_iff in Hk as (e & <- & He).
      now apply HB.
    + assert (Hs : StronglySorted
                (fun a b => exists x y,
                     parse_digits 10 (fst a) None = Some x
                     /\ parse_digits 10 (fst b) None = Some y /\ (x <= y)%Z) A).
      { apply (Sorted_StronglySorted_on
                 (fun e => SectionResults.is_array_index (fst e) = true)
                 (fun a b => SectionResults.index_le a b = true)).
        - intros a b Ha Hb Hle. unfold SectionResults.is_array_index in Ha, Hb.
          unfold SectionResults.index_le in Hle.
          destruct (parse_digits 10 (fst a) None) as [x |];
            [| now rewrite andb_false_r in Ha].
          destruct (parse_digits 10 (fst b) None) as [y |];
            [| now rewrite andb_false_r in Hb].
          exists x, y. repeat split. now apply Z.leb_le.
        - intros a b c _ _ _ (x & y & Hx & Hy & Hxy) (y' & z & Hy' & Hz & Hyz).
          exists x, z. repeat split; try assumption.
          rewrite Hy in Hy'. injection Hy' as <-. lia.
        - apply Forall_forall. intros e He. now apply HA.
        - subst A. apply order_by_sorted. apply index_le_total. }
      clear -Hs. induction Hs as [| e l _ IH Hall]; [constructor|].
      cbn [map]. constructor; [exact IH|].
      rewrite Forall_forall in *. intros k Hk.
      apply in_map_iff in Hk as (e' & <- & He'). now apply Hall.
  - intros c1 c2 H1 H2 Hno Hidx.
    apply Hkeys in H1, H2.
    apply in_map_iff in H1 as ([k1 cs1] & E1 & Hin1).
    apply in_map_iff in H2 as ([k2 cs2] & E2 & Hin2).
    cbn [fst] in E1, E2.
    assert (HinA : In (k2, cs2) A).
    { apply HA. split; [exact Hin2 | cbn [fst]; now rewrite E2]. }
    assert (HinB : In (k1, cs1) B).
    { apply HB. split; [exact Hin1 | cbn [fst]; now rewrite E1]. }
    apply in_split in HinA as (a1 & a2 & EA).
    apply in_split in HinB as (b1 & b2 & EB).
    exists (map SectionResults.render_group a1),
           (SectionResults.render_group (k2, cs2)),
           (map SectionResults.render_group (a2 ++ b1)),
           (SectionResults.render_group (k1, cs1)),
           (map SectionResults.render_group b2).
    split; [| split; [exact E2 | exact E1]].
    rewrite EA, EB. rewrite <- app_assoc. cbn [app].
    rewrite !map_app. cbn [map]. rewrite !map_app. cbn [map].
    now rewrite <- app_assoc.
  - apply three_digit_keys.
Qed.

Lemma render_section_order_witness :
  exists rendered,
    SectionResults.render
      [ result_chunk "ca2013_act_s017_p001" (Some "017")
          (SectionResults.js_num 1) SectionResults.js_null;
        result_chunk "ca2013_act_s134_p001" (Some "134")
          (SectionResults.js_num 1) SectionResults.js_null;
        result_chunk "ca2013_act_s002_p001" (Some "002")
          (SectionResults.js_num 1) SectionResults.js_null;
        result_chunk "ca2013_act_s017_c01" (Some "017")
          (SectionResults.js_num 1) SectionResults.js_null ]
    = Some rendered
    /\ exists indexed,
         map SectionResults.sectionNumber rendered = indexed ++ ["017"; "002"]
         /\ Permutation indexed ["134"].
Proof.
  eexists. split; [reflexivity|].
  destruct (render_section_order
              [ result_chunk "ca2013_act_s017_p001" (Some "017")
                  (SectionResults.js_num 1) SectionResults.js_null;
                result_chunk "ca2013_act_s134_p001" (Some "134")
                  (SectionResults.js_num 1) SectionResults.js_null;
                result_chunk "ca2013_act_s002_p001" (Some "002")
                  (SectionResults.js_num 1) SectionResults.js_null;
                result_chunk "ca2013_act_s017_c01" (Some "017")
                  (SectionResults.js_num 1) SectionResults.js_null ]
              _ eq_refl) as ((indexed & others & Hmap & Hperm & Hothers & _) & _).
  exists indexed. split.
  - rewrite Hmap, Hothers. reflexivity.
  - exact Hperm.
Defined.

(** ** The list handed to the result component *)

(** X28. An empty [retrieved_sections] hides the chunks: the page shows
    the heading of the sources over an empty list exactly when the result
    carries an empty array [retrieved_sections] together with a non-empty
    [retrieved_chunks]; when [retrieved_sections] is absent, as in the
    responses of the FAISS backend, the list shown is [retrieved_chunks]
    and the heading is shown exactly when that list is not empty. *)
Theorem sections_shown_choice {A : Type}
  (retrieved_sections retrieved_chunks : option (list A)) :
  (UserPage.shows_sources retrieved_sections retrieved_chunks = true
   /\ UserPage.sections_shown retrieved_sections retrieved_chunks = []
   <-> retrieved_sections = Some []
       /\ exists c rest, retrieved_chunks = Some (c :: rest))
  /\ (retrieved_sections = None ->
      UserPage.sections_shown retrieved_sections retrieved_chunks
      = match retrieved_chunks with
        | Some chunks => chunks
        | None => []
        end
      /\ (UserPage.shows_sources retrieved_sections retrieved_chunks = true
          <-> UserPage.sections_shown retrieved_sections retrieved_chunks <> [])).
Proof.
  unfold UserPage.shows_sources, UserPage.sections_shown. split.
  - destruct retrieved_sections as [[| s l] |];
      destruct retrieved_chunks as [[| c l'] |]; cbn; split;
      try (intros [H1 H2]; discriminate);
      try (intros [H1 (c0 & rest & H2)]; discriminate).
    + intros _. split; [reflexivity | eauto].
    + intros _. split; reflexivity.
  - intros ->. split; [reflexivity|].
    destruct retrieved_chunks as [[| c l'] |]; cbn; split;
      try discriminate; try congruence; auto.
Qed.

(** ** The sections the form offers *)

Lemma firstn_map_seq {A : Type} (f : nat -> A) (k n : nat) :
  k <= n -> firstn k (map f (seq 0 n)) = map f (seq 0 k).
Proof.
  intros Hk. rewrite firstn_map. f_equal.
  replace n with (k + (n - k)) by lia. rewrite seq_app.
  rewrite firstn_app, length_seq, Nat.sub_diag, firstn_O, app_nil_r.
  apply firstn_all2. rewrite length_seq. lia.
Qed.

(** X29. The form offers the first hundred sections only: its select
    holds exactly the keys 001 to 100, labelled 1 to 100, so a binding
    document of one of the sections 101 to 470, which the table
    [COMPANIES_ACT_SECTIONS] holds, cannot be given its section in the
    form. *)
Theorem section_options_first_hundred :
  IngestionForm.section_options
  = map (fun i => padStart 3 "0"%char (String_of_nat (i + 1))) (seq 0 100)
  /\ (forall key,
        In key IngestionForm.section_options <->
        exists n, 1 <= n <= 100 /\ key = padStart 3 "0"%char (String_of_nat n))
  /\ (forall key,
        In key IngestionForm.section_options ->
        exists n, 1 <= n <= 100
                  /\ IngestionForm.section_label key = Some (Z.of_nat n))
  /\ (forall i, 100 <= i < 470 ->
        In (nth i COMPANIES_ACT_SECTIONS EmptyString) COMPANIES_ACT_SECTIONS
        /\ ~ In (nth i COMPANIES_ACT_SECTIONS EmptyString)
             IngestionForm.section_options).
Proof.
  assert (E : IngestionForm.section_options
              = map (fun i => padStart 3 "0"%char (String_of_nat (i + 1)))
                  (seq 0 100)).
  { unfold IngestionForm.section_options, slice, relative_index.
    unfold COMPANIES_ACT_SECTIONS at 2 3.
    rewrite length_map, length_seq.
    change (Z.to_nat (Z.min 0 (Z.of_nat 470))) with 0.
    change (Z.to_nat (Z.min 100 (Z.of_nat 470) - Z.min 0 (Z.of_nat 470))) with 100.
    cbn [skipn]. unfold COMPANIES_ACT_SECTIONS.
    apply firstn_map_seq. apply Nat.leb_le. reflexivity. }
  assert (Hin : forall key,
             In key IngestionForm.section_options <->
             exists n, 1 <= n <= 100 /\ key = padStart 3 "0"%char (String_of_nat n)).
  { intros key. rewrite E, in_map_iff. split.
    - intros (i & <- & Hi). apply in_seq in Hi. exists (i + 1). split; [lia | reflexivity].
    - intros (n & Hn & ->). exists (n - 1). split.
      + f_equal. f_equal. lia.
      + apply in_seq. lia. }
  split; [exact E|]. split; [exact Hin|]. split.
  - intros key Hkey. apply Hin in Hkey as (n & Hn & ->). exists n.
    split; [exact Hn|]. unfold IngestionForm.section_label.
    now rewrite padStart_digits.
  - intros i Hi. split.
    + apply nth_In. unfold COMPANIES_ACT_SECTIONS.
      rewrite length_map, length_seq. lia.
    + rewrite nth_COMPANIES_ACT_SECTIONS by lia. intros H.
      apply Hin in H as (n & Hn & Heq).
      apply (f_equal parseInt) in Heq. rewrite !padStart_digits in Heq.
      injection Heq as Heq. lia.
Qed.

(** ** Keys in the settings *)

Lemma get_own_set_own o key v key' :
  SettingsRoute.get_own (SettingsRoute.set_own o key v) key'
  = if String.eqb key key' then Some v else SettingsRoute.get_own o key'.
Proof.
  unfold SettingsRoute.get_own. induction o as [| [k w] o IH].
  - cbn. now destruct (String.eqb key key').
  - cbn [SettingsRoute.set_own].
    destruct (String.eqb_spec k key) as [-> | Hne]; cbn [find fst].
    + destruct (String.eqb key key'); reflexivity.
    + destruct (String.eqb_spec k key') as [-> | Hne'].
      * apply String.eqb_neq in Hne. rewrite String.eqb_sym in Hne.
        now rewrite Hne.
      * exact IH.
Qed.

(** X30. The masking of the API keys covers one of the two views only.
    When the settings hold a key, the view of all settings shows the mask
    in its place, and the view of the section [api] returns the section as
    it is stored, with the key in clear. A PATCH that sets a key answers
    with the section and the new key in it, stores it, leaves the other
    settings of the section as they were, and the key can then be read
    back through the view of the section. *)
Theorem settings_key_exposure s key :
  SettingsRoute.get_own (SettingsRoute.api s) "openaiKey"
  = Some (SettingsRoute.JStr key) ->
  key <> EmptyString ->
  SettingsRoute.GET s (Some "api")
  = SettingsRoute.section_data (SettingsRoute.own (SettingsRoute.api s))
  /\ (exists shown,
        SettingsRoute.GET s None = SettingsRoute.all_settings shown
        /\ SettingsRoute.get_own (SettingsRoute.api shown) "openaiKey"
           = Some (SettingsRoute.JStr SettingsRoute.mask)
        /\ forall field,
             field <> "openaiKey" -> field <> "cohereKey" ->
             SettingsRoute.get_own (SettingsRoute.api shown) field
             = SettingsRoute.get_own (SettingsRoute.api s) field)
  /\ (forall new_key,
        new_key <> EmptyString ->
        exists stored,
          SettingsRoute.PATCH s (Some "api")
            (Some (SettingsRoute.JObj [("openaiKey", SettingsRoute.JStr new_key)]))
          = (SettingsRoute.updated (SettingsRoute.api stored), stored)
          /\ SettingsRoute.get_own (SettingsRoute.api stored) "openaiKey"
             = Some (SettingsRoute.JStr new_key)
          /\ SettingsRoute.GET stored (Some "api")
             = SettingsRoute.section_data
                 (SettingsRoute.own (SettingsRoute.api stored))
          /\ forall field,
               field <> "openaiKey" ->
               SettingsRoute.get_own (SettingsRoute.api stored) field
               = SettingsRoute.get_own (SettingsRoute.api s) field).
Proof.
  intros Hkey Hne. split; [reflexivity|]. split.
  - eexists. split; [reflexivity|].
    cbn [SettingsRoute.maskedSettings SettingsRoute.api]. split.
    + rewrite !get_own_set_own. cbn [String.eqb Ascii.eqb Bool.eqb].
      rewrite Hkey. cbn [SettingsRoute.masked_key SettingsRoute.js_truthy].
      apply String.eqb_neq in Hne. now rewrite Hne.
    + intros field H1 H2. rewrite !get_own_set_own.
      apply not_eq_sym, String.eqb_neq in H1, H2. now rewrite H1, H2.
  - intros new_key Hnew.
    exists (SettingsRoute.set_section s "api"
              (SettingsRoute.set_own (SettingsRoute.api s) "openaiKey"
                 (SettingsRoute.JStr new_key))).
    split; [reflexivity|]. cbn [SettingsRoute.set_section String.eqb Ascii.eqb
      Bool.eqb SettingsRoute.api]. split; [| split].
    + rewrite get_own_set_own. reflexivity.
    + reflexivity.
    + intros field H1. rewrite get_own_set_own.
      apply not_eq_sym, String.eqb_neq in H1. now rewrite H1.
Qed.

Lemma settings_key_exposure_witness :
  SettingsRoute.GET SettingsRoute.settings (Some "api")
  = SettingsRoute.section_data
      (SettingsRoute.own (SettingsRoute.api SettingsRoute.settings)).
Proof.
  destruct (settings_key_exposure SettingsRoute.settings
              "sk-••••••••••••••••••••••••••••••••") as (H & _).
  - reflexivity.
  - discriminate.
  - exact H.
Defined.
